(** * azure2aws: the Azure AD sign-in flow interpreter

    A shallow embedding of [internal/provider/azuread] (client.go, the
    authentication state machine and the MFA driver), of the transport
    wrapper [provider.HTTPClient] and of [prompter.String], with the
    properties of the flow proved over it.

    The Go code talks to a remote server, reads the terminal and sleeps.
    Those effects are explicit here: a [World] carries the answers the
    server is going to give, the lines typed on the terminal, the client's
    session state (redirect policy, cookie jar) and the trace of everything
    the program did, in order.  Library functions the repository only
    calls (the HTML parser, encoding/json, net/url) are the fields of the
    class [Platform]; every theorem holds for all of them. *)

From Stdlib Require Import QArith Ascii.
From stdpp Require Import gmap strings list fin_maps pretty.

Set Warnings "-register-all".

Local Open Scope string_scope.
Local Open Scope Z_scope.
Local Open Scope list_scope.

(** ** Strings (package [strings]) *)

(** [strings.HasPrefix(s, prefix)] *)
Definition HasPrefix (s prefix : string) : bool := String.prefix prefix s.

(** [strings.Contains(s, substr)]: [substr] occurs in [s] at some offset. *)
Fixpoint Contains (s substr : string) : bool :=
  if HasPrefix s substr then true
  else match s with
       | EmptyString => false
       | String _ s' => Contains s' substr
       end.

(** ** Errors and results

    [fmt.Errorf] is kept symbolic: the format string and its operands.  A
    format that ends in [%w] wraps the error it is given. *)

Inductive any_json : Type :=
| JNull
| JBool (b : bool)
| JNumber (f : Q)
| JString (s : string)
| JArray (l : list any_json)
| JObject (l : list (string * any_json)).

Inductive fmt_arg : Type :=
| ArgS (s : string)       (* an operand printed with %s *)
| ArgD (n : Z)            (* an operand printed with %d *)
| ArgV (v : any_json).    (* an interface{} operand printed with %v *)

Inductive error : Type :=
| LibError (msg : string)                        (* an error made by a library *)
| Errorf (format : string) (args : list fmt_arg)
| Wrapf (format : string) (err : error).

Inductive result (A : Type) : Type :=
| ok (a : A)
| fail (err : error).
Arguments ok {A} a.
Arguments fail {A} err.

(** ** HTML documents ([golang.org/x/net/html] nodes, goquery selections) *)

Inductive NodeType := ErrorNode | TextNode | DocumentNode | ElementNode
                    | CommentNode | DoctypeNode.

Record Attribute := { Key : string; Val : string }.

Inductive Node : Type :=
| mkNode (type : NodeType) (data : string) (attr : list Attribute)
         (children : list Node).

Definition node_Type (n : Node) : NodeType := let (t, _, _, _) := n in t.
Definition node_Data (n : Node) : string := let (_, d, _, _) := n in d.
Definition node_Attr (n : Node) : list Attribute := let (_, _, a, _) := n in a.
Definition node_children (n : Node) : list Node := let (_, _, _, c) := n in c.

(** The node and everything below it, in document order. *)
Fixpoint subtree (n : Node) : list Node :=
  match n with
  | mkNode _ _ _ cs => n :: flat_map subtree cs
  end.

Definition descendants (n : Node) : list Node := flat_map subtree (node_children n).

(** A goquery selection is a list of nodes. *)
Definition Selection := list Node.

(** The three selectors the client uses: [tag] and [tag[key='val']]. *)
Inductive Selector :=
| SelTag (tag : string)
| SelTagAttr (tag key val : string).

Definition isElement (n : Node) : bool :=
  match node_Type n with ElementNode => true | _ => false end.

Definition matches (sel : Selector) (n : Node) : bool :=
  match sel with
  | SelTag tag => isElement n && String.eqb (node_Data n) tag
  | SelTagAttr tag key val =>
      isElement n && String.eqb (node_Data n) tag &&
      existsb (fun a => String.eqb (Key a) key && String.eqb (Val a) val) (node_Attr n)
  end.

(** [s.Find(selector)]: the matching descendants of the selection's nodes.
    The client calls it on the document and on a single form only. *)
Definition Find (sel : Selector) (s : Selection) : Selection :=
  List.filter (matches sel) (flat_map descendants s).

(** [s.First()] and [s.Length()] *)
Definition First (s : Selection) : Selection := take 1 s.
Definition Length (s : Selection) : nat := length s.

(** [s.Attr(name)]: the attribute of the first node of the selection. *)
Definition node_attr (name : string) (n : Node) : string * bool :=
  match List.find (fun a => String.eqb (Key a) name) (node_Attr n) with
  | Some a => (Val a, true)
  | None => ("", false)
  end.

Definition Attr (s : Selection) (name : string) : string * bool :=
  match s with
  | n :: _ => node_attr name n
  | [] => ("", false)
  end.

(** ** Form values ([url.Values]) and headers ([http.Header]) *)

Abbreviation Values := (gmap string (list string)).

(** [v.Set(key, value)] replaces whatever the key held. *)
Definition Values_Set (v : Values) (key value : string) : Values :=
  <[key := [value]]> v.

Abbreviation Header := (gmap string string).

(** ** The wire types (types.go, provider.go) *)

(** [float64] values are the rationals they denote. *)
Definition float64 := Q.

Record UserProof := {
  up_AuthMethodID : string;
  up_Data : string;
  up_Display : string;
  up_IsDefault : bool }.

Record ConvergedResponse := {
  URLGetCredentialType : string;
  ArrUserProofs : list UserProof;
  URLSkipMfaRegistration : string;
  OPerAuthPollingInterval : gmap string float64;
  URLBeginAuth : string;
  URLEndAuth : string;
  URLPost : string;
  SErrorCode : string;
  SErrTxt : string;
  SPOSTUsername : string;
  SFT : string;
  SFTName : string;
  SCtx : string;
  Hpgact : Z;
  Hpgid : Z;
  Pgid : string;
  APICanary : string;
  Canary : string;
  CorrelationID : string;
  SessionID : string }.

Record GetCredentialTypeRequest := {
  gr_Username : string;
  gr_IsOtherIdpSupported : bool;
  gr_CheckPhones : bool;
  gr_IsRemoteNGCSupported : bool;
  gr_IsCookieBannerShown : bool;
  gr_IsFidoSupported : bool;
  gr_OriginalRequest : string;
  gr_Country : string;
  gr_Forceotclogin : bool;
  gr_IsExternalFederationDisallowed : bool;
  gr_IsRemoteConnectSupported : bool;
  gr_FederationFlags : Z;
  gr_IsSignup : bool;
  gr_FlowToken : string;
  gr_IsAccessPassSupported : bool }.

Record CredentialsInfo := {
  PrefCredential : Z;
  HasPassword : bool;
  RemoteNgcParams : any_json;
  FidoParams : any_json;
  SasParams : any_json;
  CertAuthParams : any_json;
  GoogleParams : any_json;
  FacebookParams : any_json;
  FederationRedirectURL : string }.

Record GetCredentialTypeResponse := {
  gc_Username : string;
  gc_Display : string;
  gc_IfExistsResult : Z;
  gc_IsUnmanaged : bool;
  gc_ThrottleStatus : Z;
  gc_Credentials : CredentialsInfo;
  gc_FlowToken : string;
  gc_IsSignupDisallowed : bool;
  gc_APICanary : string }.

Record MFARequest := {
  rq_AuthMethodID : string;
  rq_Method : string;
  rq_Ctx : string;
  rq_FlowToken : string;
  rq_SessionID : string;
  rq_AdditionalAuthData : string }.

(** The [Timestamp] field is kept as the text that was received. *)
Record MFAResponse := {
  Success : bool;
  ResultValue : string;
  Message : any_json;
  AuthMethodID : string;
  ErrCode : Z;
  Retry : bool;
  FlowToken : string;
  Ctx : string;
  mr_SessionID : string;
  mr_CorrelationID : string;
  Timestamp : string;
  Entropy : Z }.

Definition MFAPhoneAppOTP := "PhoneAppOTP".
Definition MFAPhoneAppNotification := "PhoneAppNotification".
Definition MFAOneWaySMS := "OneWaySMS".
Definition MFATwoWayVoiceMobile := "TwoWayVoiceMobile".

Record LoginCredentials := {
  Username : string;
  Password : string;
  MFAToken : string }.

(** ** What the libraries do

    The functions of the Go libraries that the client calls and whose
    definitions are not part of the repository. *)

Class Platform := {
  (** [goquery.NewDocumentFromReader(strings.NewReader(html))]: the document
      node of the parsed page *)
  NewDocumentFromReader : string -> result Node;
  (** [json.Unmarshal] into a [ConvergedResponse] *)
  Unmarshal_ConvergedResponse : string -> result ConvergedResponse;
  (** [json.NewDecoder(body).Decode] into the two response types *)
  Decode_GetCredentialTypeResponse : string -> result GetCredentialTypeResponse;
  Decode_MFAResponse : string -> result MFAResponse;
  (** [net/url]: parsed URLs, [url.Parse], [u.ResolveReference(ref)],
      [u.String()] *)
  URL : Type;
  url_Parse : string -> result URL;
  ResolveReference : URL -> URL -> URL;
  URL_String : URL -> string;
  (** [strings.TrimSpace] *)
  TrimSpace : string -> string;
  (** [runtime.GOOS] and [runtime.GOARCH] *)
  GOOS : string;
  GOARCH : string;
  (** the state of a [cookiejar.Jar] *)
  Jar : Type;
  (** what a conversion of a [float64] outside the range of [int64] gives
      (the language leaves it to the implementation) *)
  float64_out_of_range : float64 -> Z
}.

Section Flow.
Context {P : Platform}.

(** ** Requests, responses and the world *)

(** The body of an outgoing request.  [url.Values.Encode] and
    [json.Marshal] are injective on what the client gives them and cannot
    fail on these types, so a body is kept as the value that is encoded. *)
Inductive RequestBody :=
| NoBody
| FormBody (v : Values)
| CredentialTypeBody (r : GetCredentialTypeRequest)
| MFABody (r : MFARequest).

Record Request := {
  Method : string;
  req_URL : string;
  req_Header : Header;
  req_Body : RequestBody }.

(** A response: [res.Request.URL] (the address that was finally fetched)
    and what reading [res.Body] to its end gives. *)
Record Response := {
  Request_URL : URL;
  Body : result string }.

Inductive Event :=
| EvDo (req : Request) (follow : bool)  (* a request sent, and whether redirects were followed *)
| EvSleep (d : Z)                       (* time.Sleep(d), in nanoseconds *)
| EvPrint (format : string) (args : list fmt_arg)
| EvReadLine.

(** What the server does with one request: its answer (or a transport
    error) and the cookies it leaves in the jar. *)
Record Exchange := {
  reply : result Response;
  set_cookies : Jar -> Jar }.

(** [server] lists the exchanges still to come, in order; a deterministic
    client meets every behaviour of a server as one such list.  When the
    list is exhausted nothing answers and the client's timeout ends the
    request with an error.  [stdin] lists the results of the reads from the
    terminal still to come. *)
Record World := {
  trace : list Event;
  server : list Exchange;
  stdin : list (result string);
  followRedirect : bool;
  jar : Jar }.

Definition log (e : Event) (w : World) : World :=
  {| trace := trace w ++ [e]; server := server w; stdin := stdin w;
     followRedirect := followRedirect w; jar := jar w |}.

(** ** Computations: a state and error monad over the world *)

Definition M (A : Type) : Type := World -> result A * World.

Definition ret {A} (a : A) : M A := fun w => (ok a, w).
Definition throw {A} (e : error) : M A := fun w => (fail e, w).
Definition bind {A B} (m : M A) (k : A -> M B) : M B :=
  fun w => match m w with
           | (ok a, w') => k a w'
           | (fail e, w') => (fail e, w')
           end.
Definition lift {A} (r : result A) : M A := fun w => (r, w).

(** [x, err := m; if err != nil { return ..., fmt.Errorf(format, err) }] *)
Definition wrap {A} (format : string) (m : M A) : M A :=
  fun w => match m w with
           | (fail e, w') => (fail (Wrapf format e), w')
           | r => r
           end.

Notation "'let*' x ':=' m 'in' k" := (bind m (fun x => k))
  (at level 10, x pattern, m at level 100, k at level 200).

(** Computations that contain a loop take fuel; [None] says that the
    fuel ran out before the loop ended. *)
Definition Mo (A : Type) : Type := World -> option (result A * World).

Definition run {A} (m : M A) : Mo A := fun w => Some (m w).

(** ** The transport ([provider.HTTPClient]) *)

Definition UserAgent := "azure2aws/1.0".

(** [h.Set(key, value)].  The library stores the key in its canonical
    spelling ([canary] as [Canary]); the keys are kept here as the client
    writes them, no two of which share a canonical spelling. *)
Definition Header_Set (h : Header) (key value : string) : Header := <[key := value]> h.

Definition with_header (req : Request) (key value : string) : Request :=
  {| Method := Method req; req_URL := req_URL req;
     req_Header := Header_Set (req_Header req) key value; req_Body := req_Body req |}.

(** [http.NewRequest]: fails when the address does not parse. *)
Definition NewRequest (method url : string) (body : RequestBody) : result Request :=
  match url_Parse url with
  | fail e => fail e
  | ok _ => ok {| Method := method; req_URL := url; req_Header := ∅; req_Body := body |}
  end.

(** [c.Client.Do(req)] *)
Definition Client_Do (req : Request) : M Response := fun w =>
  let tr := trace w ++ [EvDo req (followRedirect w)] in
  match server w with
  | [] => (fail (LibError "no answer from the server"),
           {| trace := tr; server := []; stdin := stdin w;
              followRedirect := followRedirect w; jar := jar w |})
  | x :: rest => (reply x,
           {| trace := tr; server := rest; stdin := stdin w;
              followRedirect := followRedirect w; jar := set_cookies x (jar w) |})
  end.

(** The client identity that [HTTPClient.Do] stamps on every request. *)
Definition stamp (req : Request) : Request :=
  with_header req "User-Agent" (UserAgent +:+ " (" +:+ GOOS +:+ " " +:+ GOARCH +:+ ")").

Definition Do (req : Request) : M Response := Client_Do (stamp req).

Definition Get (url : string) : M Response :=
  let* req := lift (NewRequest "GET" url NoBody) in
  Do req.

Definition set_followRedirect (b : bool) : M unit := fun w =>
  (ok tt, {| trace := trace w; server := server w; stdin := stdin w;
             followRedirect := b; jar := jar w |}).

Definition DisableFollowRedirect : M unit := set_followRedirect false.
Definition EnableFollowRedirect : M unit := set_followRedirect true.

(** ** Terminal and clock *)

Definition Printf (format : string) (args : list fmt_arg) : M unit :=
  fun w => (ok tt, log (EvPrint format args) w).

Definition Sleep (d : Z) : M unit := fun w => (ok tt, log (EvSleep d) w).

(** [p.reader.ReadString('\n')] *)
Definition ReadString : M string := fun w =>
  match stdin w with
  | [] => (fail (LibError "EOF"), log EvReadLine w)
  | l :: rest => (l, {| trace := trace w ++ [EvReadLine]; server := server w; stdin := rest;
                        followRedirect := followRedirect w; jar := jar w |})
  end.

(** [prompter.String], that is [PromptString] of the default prompter *)
Definition PromptString (prompt defaultValue : string) : M string :=
  let* _ := (if negb (String.eqb defaultValue "")
             then Printf "%s [%s]: " [ArgS prompt; ArgS defaultValue]
             else Printf "%s: " [ArgS prompt]) in
  let* input := wrap "failed to read input: %w" ReadString in
  let input := TrimSpace input in
  if String.eqb input "" then ret defaultValue else ret input.

(** ** Content extractors (the helper methods of the client) *)

(** [fullURL]: an address relative to the page it came with made absolute *)
Definition fullURL (res : Response) (relativeURL : string) : string :=
  if HasPrefix relativeURL "http" then relativeURL
  else match url_Parse relativeURL with
       | fail _ => relativeURL
       | ok parsed => URL_String (ResolveReference (Request_URL res) parsed)
       end.

Fixpoint skip (n : nat) (s : string) : string :=
  match n, s with
  | S n', String _ s' => skip n' s'
  | _, _ => s
  end.

(** The characters before the first [;] of [s], and whether there is one. *)
Fixpoint until_semicolon (s : string) : string * bool :=
  match s with
  | EmptyString => (EmptyString, false)
  | String c s' =>
      if Ascii.eqb c ";"%char then (EmptyString, true)
      else let (r, b) := until_semicolon s' in (String c r, b)
  end.

Definition last_is (c : ascii) (s : string) : bool :=
  match String.get (String.length s - 1) s with
  | Some d => Ascii.eqb c d
  | None => false
  end.

(** The pattern [\$Config=({[^;]+});] matched at the start of [s]: the
    text of its group.  No [;] can lie inside [[^;]+] or be the [}], so the
    [;] that ends the match is the first one after the [{]; the pattern
    matches exactly when the characters up to it end in [}] and have at
    least one character before it. *)
Definition Config_at (s : string) : option string :=
  if HasPrefix s "$Config={" then
    let (r, semicolon) := until_semicolon (skip 9 s) in
    if semicolon && (2 <=? String.length r)%nat && last_is "}"%char r
    then Some ("{" +:+ r) else None
  else None.

(** [re.FindStringSubmatch(html)[1]] of the leftmost match *)
Fixpoint FindStringSubmatch_Config (html : string) : option string :=
  match Config_at html with
  | Some g => Some g
  | None => match html with
            | EmptyString => None
            | String _ html' => FindStringSubmatch_Config html'
            end
  end.

(** [unmarshalEmbeddedJSON] into a [ConvergedResponse] (its only use) *)
Definition unmarshalEmbeddedJSON (html : string) : result ConvergedResponse :=
  match FindStringSubmatch_Config html with
  | None => fail (Errorf "$Config not found in response" [])
  | Some g => Unmarshal_ConvergedResponse g
  end.

Definition sel_form := SelTag "form".
Definition sel_input := SelTag "input".
Definition sel_hidden := SelTagAttr "input" "type" "hidden".
Definition sel_SAMLResponse := SelTagAttr "input" "name" "SAMLResponse".

(** [isHiddenForm] *)
Definition isHiddenForm (html : string) : bool :=
  match NewDocumentFromReader html with
  | fail _ => false
  | ok doc =>
      (0 <? Length (Find sel_form [doc]))%nat &&
      ((0 <? Length (Find sel_hidden [doc]))%nat ||
       (0 <? Length (Find sel_SAMLResponse [doc]))%nat)
  end.

(** [getSAMLAssertion] *)
Definition getSAMLAssertion (html : string) : string :=
  match NewDocumentFromReader html with
  | fail _ => ""
  | ok doc =>
      let (samlResponse, exists_) := Attr (Find sel_SAMLResponse [doc]) "value" in
      if exists_ then samlResponse else ""
  end.

(** The callback that [parseFormData] runs on each [input] of the form. *)
Definition add_input (values : Values) (s : Node) : Values :=
  let (name, nameExists) := Attr [s] "name" in
  let (value, _) := Attr [s] "value" in
  if nameExists && negb (String.eqb name "") then Values_Set values name value
  else values.

(** [parseFormData]: the fields and the action of the first form *)
Definition parseFormData (html : string) : result (Values * string) :=
  match NewDocumentFromReader html with
  | fail e => fail (Wrapf "failed to parse HTML: %w" e)
  | ok doc =>
      let form := First (Find sel_form [doc]) in
      if (Length form =? 0)%nat then fail (Errorf "form not found" [])
      else
        let (action, _) := Attr form "action" in
        let values := fold_left add_input (Find sel_input form) ∅ in
        ok (values, action)
  end.

(** ** The sign-in handlers *)

Record Client := {
  baseURL : string;
  appID : string }.

(** [json.NewDecoder(res.Body).Decode(&v)] *)
Definition decode_body {A} (decode : string -> result A) (res : Response) : result A :=
  match Body res with
  | ok s => decode s
  | fail e => fail e
  end.

(** [m] run to its end, its error kept as a value *)
Definition attempt {A} (m : M A) : M (result A) :=
  fun w => let (r, w') := m w in (ok r, w').

Definition form_urlencoded := "application/x-www-form-urlencoded".

(** [requestGetCredentialType]; of its three results the caller reads the
    decoded answer and the error. *)
Definition requestGetCredentialType (refererURL : string) (creds : LoginCredentials)
    (convergedResp : ConvergedResponse) : M GetCredentialTypeResponse :=
  let reqBody :=
    {| gr_Username := Username creds;
       gr_IsOtherIdpSupported := true;
       gr_CheckPhones := false;
       gr_IsRemoteNGCSupported := false;
       gr_IsCookieBannerShown := false;
       gr_IsFidoSupported := false;
       gr_OriginalRequest := SCtx convergedResp;
       gr_Country := "";
       gr_Forceotclogin := false;
       gr_IsExternalFederationDisallowed := false;
       gr_IsRemoteConnectSupported := false;
       gr_FederationFlags := 0;
       gr_IsSignup := false;
       gr_FlowToken := SFT convergedResp;
       gr_IsAccessPassSupported := false |} in
  let* req := wrap "failed to create request: %w"
                (lift (NewRequest "POST" (URLGetCredentialType convergedResp)
                                  (CredentialTypeBody reqBody))) in
  let req := with_header req "Content-Type" "application/json" in
  let req := with_header req "canary" (APICanary convergedResp) in
  let req := with_header req "client-request-id" (CorrelationID convergedResp) in
  let req := with_header req "hpgact" (pretty (Hpgact convergedResp)) in
  let req := with_header req "hpgid" (pretty (Hpgid convergedResp)) in
  let req := with_header req "hpgrequestid" (SessionID convergedResp) in
  let req := with_header req "Referer" refererURL in
  let* res := wrap "request failed: %w" (Do req) in
  wrap "failed to decode response: %w"
    (lift (decode_body Decode_GetCredentialTypeResponse res)).

(** The form that [processAuthentication] submits. *)
Definition password_form (creds : LoginCredentials) (convergedResp : ConvergedResponse)
    : Values :=
  let formValues : Values := ∅ in
  let formValues := Values_Set formValues "canary" (Canary convergedResp) in
  let formValues := Values_Set formValues "hpgrequestid" (SessionID convergedResp) in
  let formValues := Values_Set formValues (SFTName convergedResp) (SFT convergedResp) in
  let formValues := Values_Set formValues "ctx" (SCtx convergedResp) in
  let formValues := Values_Set formValues "login" (Username creds) in
  let formValues := Values_Set formValues "loginfmt" (Username creds) in
  Values_Set formValues "passwd" (Password creds).

(** [processAuthentication] *)
Definition processAuthentication (loginURL refererURL : string) (creds : LoginCredentials)
    (convergedResp : ConvergedResponse) : M Response :=
  if negb (String.eqb (SErrorCode convergedResp) "") &&
     negb (String.eqb (SErrorCode convergedResp) "50058")
  then throw (Errorf "login error: %s - %s"
                [ArgS (SErrorCode convergedResp); ArgS (SErrTxt convergedResp)])
  else
    let* req := wrap "failed to create login request: %w"
                  (lift (NewRequest "POST" loginURL
                                    (FormBody (password_form creds convergedResp)))) in
    let req := with_header req "Content-Type" form_urlencoded in
    let req := with_header req "Referer" refererURL in
    wrap "login request failed: %w" (Do req).

(** The fields that [processFederatedAuth] lays over the extracted ones. *)
Definition federation_form (formValues : Values) (creds : LoginCredentials) : Values :=
  let formValues := Values_Set formValues "UserName" (Username creds) in
  let formValues := Values_Set formValues "Password" (Password creds) in
  Values_Set formValues "AuthMethod" "FormsAuthentication".

(** [processFederatedAuth] *)
Definition processFederatedAuth (federationURL : string) (creds : LoginCredentials)
    : M Response :=
  let* res := wrap "failed to get federation URL: %w" (Get federationURL) in
  let* resBodyStr := wrap "failed to read federation response: %w" (lift (Body res)) in
  let* form :=
     wrap "failed to parse ADFS form: %w" (lift (parseFormData resBodyStr)) in
  let (formValues, formSubmitURL) := (form : Values * string) in
  if String.eqb formSubmitURL "" then throw (Errorf "ADFS form submit URL not found" [])
  else
    let formValues := federation_form formValues creds in
    let* req := wrap "failed to create ADFS login request: %w"
                  (lift (NewRequest "POST" (fullURL res formSubmitURL)
                                    (FormBody formValues))) in
    let req := with_header req "Content-Type" form_urlencoded in
    Do req.

(** [processConvergedSignIn] *)
Definition processConvergedSignIn (res : Response) (resBodyStr : string)
    (creds : LoginCredentials) : M Response :=
  let* convergedResp := wrap "failed to parse ConvergedSignIn response: %w"
                          (lift (unmarshalEmbeddedJSON resBodyStr)) in
  let loginURL := fullURL res (URLPost convergedResp) in
  let refererURL := URL_String (Request_URL res) in
  let* credTypeResp := wrap "failed to get credential type: %w"
                         (requestGetCredentialType refererURL creds convergedResp) in
  if negb (String.eqb (FederationRedirectURL (gc_Credentials credTypeResp)) "")
  then processFederatedAuth (FederationRedirectURL (gc_Credentials credTypeResp)) creds
  else processAuthentication loginURL refererURL creds convergedResp.

(** [processKmsiInterrupt] *)
Definition processKmsiInterrupt (res : Response) (resBodyStr : string) : M Response :=
  let* convergedResp := wrap "failed to parse KMSI response: %w"
                          (lift (unmarshalEmbeddedJSON resBodyStr)) in
  let formValues : Values := ∅ in
  let formValues := Values_Set formValues (SFTName convergedResp) (SFT convergedResp) in
  let formValues := Values_Set formValues "ctx" (SCtx convergedResp) in
  let formValues := Values_Set formValues "LoginOptions" "1" in
  let* req := wrap "failed to create KMSI request: %w"
                (lift (NewRequest "POST" (fullURL res (URLPost convergedResp))
                                  (FormBody formValues))) in
  let req := with_header req "Content-Type" form_urlencoded in
  let* _ := DisableFollowRedirect in
  let* newRes := attempt (Do req) in
  let* _ := EnableFollowRedirect in
  wrap "KMSI request failed: %w" (lift newRes).

(** [processSAMLRequest] *)
Definition processSAMLRequest (res : Response) (resBodyStr : string) : M Response :=
  let* form :=
     wrap "failed to parse SAML request form: %w" (lift (parseFormData resBodyStr)) in
  let (formValues, formSubmitURL) := (form : Values * string) in
  if String.eqb formSubmitURL "" then throw (Errorf "SAML request form URL not found" [])
  else
    let* req := wrap "failed to create SAML request: %w"
                  (lift (NewRequest "POST" (fullURL res formSubmitURL)
                                    (FormBody formValues))) in
    let req := with_header req "Content-Type" form_urlencoded in
    Do req.

(** [reProcessForm] *)
Definition reProcessForm (resBodyStr : string) : M Response :=
  let* form :=
     wrap "failed to parse form: %w" (lift (parseFormData resBodyStr)) in
  let (formValues, formSubmitURL) := (form : Values * string) in
  if String.eqb formSubmitURL "" then throw (Errorf "form URL not found" [])
  else
    let* req := wrap "failed to create form request: %w"
                  (lift (NewRequest "POST" formSubmitURL (FormBody formValues))) in
    let req := with_header req "Content-Type" form_urlencoded in
    Do req.

(** ** The MFA driver *)

(** Go's [int64] arithmetic wraps around. *)
Definition int64 (z : Z) : Z := (z + 2 ^ 63) mod 2 ^ 64 - 2 ^ 63.

(** [time.Second], in nanoseconds *)
Definition Second : Z := 1000000000.

(** A [float64] converted to an integer type: the fraction is discarded. *)
Definition float64_to_int64 (f : float64) : Z :=
  let t := Z.quot (Qnum f) (Z.pos (Qden f)) in
  if (- 2 ^ 63 <=? t) && (t <? 2 ^ 63) then t else float64_out_of_range f.

(** [time.Duration(interval) * time.Second] *)
Definition interval_Duration (interval : float64) : Z :=
  int64 (float64_to_int64 interval * Second).

(** The wait before the next poll (the end of the loop body). *)
Definition polling_wait (convergedResp : ConvergedResponse) (mfaResp : MFAResponse) : Z :=
  match OPerAuthPollingInterval convergedResp !! AuthMethodID mfaResp with
  | Some interval => interval_Duration interval
  | None => 2 * Second
  end.

(** The loop of [processMFABeginAuth]: [mfa] unless an entry is the
    default, then the first such entry. *)
Fixpoint select_default (mfa : UserProof) (mfas : list UserProof) : UserProof :=
  match mfas with
  | [] => mfa
  | v :: rest => if up_IsDefault v then v else select_default mfa rest
  end.

(** [processMFABeginAuth].  [mfas[0]] panics on an empty list; the one
    caller has excluded it. *)
Definition processMFABeginAuth (mfas : list UserProof) (convergedResp : ConvergedResponse)
    : M MFAResponse :=
  match mfas with
  | [] => throw (LibError "panic: index out of range [0] with length 0")
  | mfas0 :: _ =>
      let mfa := select_default mfas0 mfas in
      let mfaReq :=
        {| rq_AuthMethodID := up_AuthMethodID mfa;
           rq_Method := "BeginAuth";
           rq_Ctx := SCtx convergedResp;
           rq_FlowToken := SFT convergedResp;
           rq_SessionID := "";
           rq_AdditionalAuthData := "" |} in
      let* req := wrap "failed to create MFA BeginAuth request: %w"
                    (lift (NewRequest "POST" (URLBeginAuth convergedResp) (MFABody mfaReq))) in
      let req := with_header req "Content-Type" "application/json" in
      let* res := wrap "MFA BeginAuth request failed: %w" (Do req) in
      let* mfaResp := wrap "failed to decode MFA BeginAuth response: %w"
                        (lift (decode_body Decode_MFAResponse res)) in
      if negb (Success mfaResp)
      then throw (Errorf "MFA BeginAuth failed: %v" [ArgV (Message mfaResp)])
      else ret mfaResp
  end.

(** [processMFAEndAuth] *)
Definition processMFAEndAuth (mfaReq : MFARequest) (convergedResp : ConvergedResponse)
    : M MFAResponse :=
  let* req := wrap "failed to create MFA EndAuth request: %w"
                (lift (NewRequest "POST" (URLEndAuth convergedResp) (MFABody mfaReq))) in
  let req := with_header req "Content-Type" "application/json" in
  let* res := wrap "MFA EndAuth request failed: %w" (Do req) in
  wrap "failed to decode MFA EndAuth response: %w"
    (lift (decode_body Decode_MFAResponse res)).

(** [processMFAAuth] *)
Definition processMFAAuth (mfaResp : MFAResponse) (convergedResp : ConvergedResponse)
    : M Response :=
  let formValues : Values := ∅ in
  let formValues := Values_Set formValues "request" (Ctx mfaResp) in
  let formValues := Values_Set formValues "mfaAuthMethod" (AuthMethodID mfaResp) in
  let formValues := Values_Set formValues "canary" (Canary convergedResp) in
  let formValues := Values_Set formValues "login" (SPOSTUsername convergedResp) in
  let formValues := Values_Set formValues (SFTName convergedResp) (FlowToken mfaResp) in
  let* req := wrap "failed to create MFA completion request: %w"
                (lift (NewRequest "POST" (URLPost convergedResp) (FormBody formValues))) in
  let req := with_header req "Content-Type" form_urlencoded in
  Do req.

(** The request that an iteration of the poll loop starts from. *)
Definition EndAuth_request (mfaResp : MFAResponse) : MFARequest :=
  {| rq_AuthMethodID := AuthMethodID mfaResp;
     rq_Method := "EndAuth";
     rq_Ctx := Ctx mfaResp;
     rq_FlowToken := FlowToken mfaResp;
     rq_SessionID := mr_SessionID mfaResp;
     rq_AdditionalAuthData := "" |}.

Definition with_AdditionalAuthData (r : MFARequest) (data : string) : MFARequest :=
  {| rq_AuthMethodID := rq_AuthMethodID r; rq_Method := rq_Method r; rq_Ctx := rq_Ctx r;
     rq_FlowToken := rq_FlowToken r; rq_SessionID := rq_SessionID r;
     rq_AdditionalAuthData := data |}.

(** "Handle OTP-based MFA methods" *)
Definition otp_data (mfaReq : MFARequest) (creds : LoginCredentials) : M MFARequest :=
  if String.eqb (rq_AuthMethodID mfaReq) MFAPhoneAppOTP ||
     String.eqb (rq_AuthMethodID mfaReq) MFAOneWaySMS
  then
    if negb (String.eqb (MFAToken creds) "")
    then ret (with_AdditionalAuthData mfaReq (MFAToken creds))
    else
      let* verifyCode := wrap "failed to read verification code: %w"
                           (PromptString "Enter verification code" "") in
      ret (with_AdditionalAuthData mfaReq verifyCode)
  else ret mfaReq.

(** "Handle push notification on first iteration" *)
Definition push_hint (mfaReq : MFARequest) (i : Z) (mfaResp : MFAResponse) : M unit :=
  if String.eqb (rq_AuthMethodID mfaReq) MFAPhoneAppNotification && (i =? 0)
  then
    if Entropy mfaResp =? 0
    then Printf "%s\n" [ArgS "Phone approval required."]
    else Printf "Phone approval required. Number match: %d\n" [ArgD (Entropy mfaResp)]
  else ret tt.

(** One end-challenge attempt: the loop body down to the call. *)
Definition end_challenge (i : Z) (mfaResp : MFAResponse)
    (convergedResp : ConvergedResponse) (creds : LoginCredentials) : M MFAResponse :=
  let* mfaReq := otp_data (EndAuth_request mfaResp) creds in
  let* _ := push_hint mfaReq i mfaResp in
  wrap "MFA EndAuth failed: %w" (processMFAEndAuth mfaReq convergedResp).

(** The polling loop of [processMFA], from iteration [i] on with the last
    answer [mfaResp].  It ends with an error, or at a [break] with the
    answer in hand. *)
Fixpoint poll (fuel : nat) (i : Z) (mfaResp : MFAResponse)
    (convergedResp : ConvergedResponse) (creds : LoginCredentials) : Mo MFAResponse :=
  fun w =>
    match fuel with
    | O => None
    | S fuel' =>
        match end_challenge i mfaResp convergedResp creds w with
        | (fail e, w') => Some (fail e, w')
        | (ok mfaResp, w') =>
            if negb (ErrCode mfaResp =? 0)
            then Some (fail (Errorf "MFA error %d: %v"
                               [ArgD (ErrCode mfaResp); ArgV (Message mfaResp)]), w')
            else if Success mfaResp then Some (ok mfaResp, w')
            else if negb (Retry mfaResp) then Some (ok mfaResp, w')
            else
              let (_, w'') := Sleep (polling_wait convergedResp mfaResp) w' in
              poll fuel' (int64 (i + 1)) mfaResp convergedResp creds w''
        end
    end.

(** [processMFA] *)
Definition processMFA (fuel : nat) (mfas : list UserProof)
    (convergedResp : ConvergedResponse) (creds : LoginCredentials) : Mo Response :=
  fun w =>
    if (length mfas =? 0)%nat then Some (fail (Errorf "no MFA methods available" []), w)
    else
      match wrap "MFA BeginAuth failed: %w" (processMFABeginAuth mfas convergedResp) w with
      | (fail e, w1) => Some (fail e, w1)
      | (ok mfaResp, w1) =>
          match poll fuel 0 mfaResp convergedResp creds w1 with
          | None => None
          | Some (fail e, w2) => Some (fail e, w2)
          | Some (ok mfaResp, w2) =>
              if negb (Success mfaResp)
              then Some (fail (Errorf "MFA authentication failed" []), w2)
              else Some (processMFAAuth mfaResp convergedResp w2)
          end
      end.

(** [processConvergedTFA] *)
Definition processConvergedTFA (fuel : nat) (res : Response) (resBodyStr : string)
    (creds : LoginCredentials) : Mo Response :=
  fun w =>
    match unmarshalEmbeddedJSON resBodyStr with
    | fail e => Some (fail (Wrapf "failed to parse ConvergedTFA response: %w" e), w)
    | ok convergedResp =>
        let mfas := ArrUserProofs convergedResp in
        if negb (String.eqb (URLSkipMfaRegistration convergedResp) "")
        then Some (Get (URLSkipMfaRegistration convergedResp) w)
        else if (0 <? length mfas)%nat
        then processMFA fuel mfas convergedResp creds w
        else Some (ok res, w)
    end.

(** ** The state machine *)

(** What one turn of the main loop ends with: the assertion, or the
    response to classify next. *)
Inductive outcome :=
| Return (samlAssertion : string)
| Continue (res : Response).

(** [res, err = handler(...); if err != nil { return "", fmt.Errorf(format, err) }] *)
Definition handle (format : string) (m : Mo Response) : Mo outcome :=
  fun w => match m w with
           | None => None
           | Some (fail e, w') => Some (fail (Wrapf format e), w')
           | Some (ok res, w') => Some (ok (Continue res), w')
           end.

Definition unknown_state : error := Errorf "reached unknown authentication state" [].

(** The [default] case of the switch. *)
Definition default_case (resBodyStr : string) : M outcome :=
  if Contains resBodyStr "sErrorCode" then
    match unmarshalEmbeddedJSON resBodyStr with
    | ok convergedResp =>
        if negb (String.eqb (SErrorCode convergedResp) "") &&
           negb (String.eqb (SErrorCode convergedResp) "50058")
        then throw (Errorf "authentication error: %s - %s"
                      [ArgS (SErrorCode convergedResp); ArgS (SErrTxt convergedResp)])
        else throw unknown_state
    | fail _ => throw unknown_state
    end
  else throw unknown_state.

(** The [switch] of the main loop. *)
Definition switch (fuel : nat) (res : Response) (resBodyStr : string)
    (creds : LoginCredentials) : Mo outcome :=
  if Contains resBodyStr "ConvergedSignIn" then
    handle "ConvergedSignIn failed: %w" (run (processConvergedSignIn res resBodyStr creds))
  else if Contains resBodyStr "ConvergedTFA" then
    handle "ConvergedTFA failed: %w" (processConvergedTFA fuel res resBodyStr creds)
  else if Contains resBodyStr "KmsiInterrupt" then
    handle "KmsiInterrupt failed: %w" (run (processKmsiInterrupt res resBodyStr))
  else if Contains resBodyStr "SAMLRequest" then
    handle "SAMLRequest failed: %w" (run (processSAMLRequest res resBodyStr))
  else if isHiddenForm resBodyStr then
    let samlAssertion := getSAMLAssertion resBodyStr in
    if negb (String.eqb samlAssertion "") then run (ret (Return samlAssertion))
    else handle "form reprocessing failed: %w" (run (reProcessForm resBodyStr))
  else run (default_case resBodyStr).

(** The body that was read put back for reading again. *)
Definition buffered (res : Response) (resBody : string) : Response :=
  {| Request_URL := Request_URL res; Body := ok resBody |}.

(** The main loop of [authenticate], entered with the response [res]. *)
Fixpoint authenticate_loop (fuel : nat) (creds : LoginCredentials) (res : Response)
    : Mo string :=
  fun w =>
    match fuel with
    | O => None
    | S fuel' =>
        match Body res with
        | fail e => Some (fail (Wrapf "failed to read response body: %w" e), w)
        | ok resBodyStr =>
            match switch fuel' (buffered res resBodyStr) resBodyStr creds w with
            | None => None
            | Some (fail e, w') => Some (fail e, w')
            | Some (ok (Return samlAssertion), w') => Some (ok samlAssertion, w')
            | Some (ok (Continue res'), w') => authenticate_loop fuel' creds res' w'
            end
        end
    end.

Definition startURL (c : Client) : string :=
  baseURL c +:+ "/applications/redirecttofederatedapplication.aspx?Operation=LinkedSignIn&applicationId="
            +:+ appID c.

(** [authenticate] *)
Definition authenticate (fuel : nat) (c : Client) (creds : LoginCredentials) : Mo string :=
  fun w =>
    match wrap "failed to start authentication: %w" (Get (startURL c)) w with
    | (fail e, w') => Some (fail e, w')
    | (ok res, w') => authenticate_loop fuel creds res w'
    end.

(** [Authenticate]; [None] is the nil pointer. *)
Definition Authenticate (fuel : nat) (c : Client) (creds : option LoginCredentials)
    : Mo string :=
  match creds with
  | None => run (throw (Errorf "credentials cannot be nil" []))
  | Some creds =>
      if String.eqb (Username creds) "" then run (throw (Errorf "username is required" []))
      else if String.eqb (Password creds) "" then run (throw (Errorf "password is required" []))
      else authenticate fuel c creds
  end.

(** ** The vocabulary of the specification *)

(** The page types of the classifier, in their order of precedence. *)
Inductive PageState :=
| ConvergedSignIn
| ConvergedTFA
| KmsiInterrupt
| SAMLRequestRelay
| HiddenFormOrAssertion
| Fallback.

Definition priority : list PageState :=
  [ConvergedSignIn; ConvergedTFA; KmsiInterrupt; SAMLRequestRelay;
   HiddenFormOrAssertion; Fallback].

(** The position of a state in the order of precedence. *)
Definition rank (s : PageState) : nat :=
  match s with
  | ConvergedSignIn => 0
  | ConvergedTFA => 1
  | KmsiInterrupt => 2
  | SAMLRequestRelay => 3
  | HiddenFormOrAssertion => 4
  | Fallback => 5
  end.

(** The content marker of a state, looked for in the raw body. *)
Definition marker (s : PageState) (body : string) : bool :=
  match s with
  | ConvergedSignIn => Contains body "ConvergedSignIn"
  | ConvergedTFA => Contains body "ConvergedTFA"
  | KmsiInterrupt => Contains body "KmsiInterrupt"
  | SAMLRequestRelay => Contains body "SAMLRequest"
  | HiddenFormOrAssertion => isHiddenForm body
  | Fallback => true
  end.

(** First match wins. *)
Definition classify (body : string) : PageState :=
  match List.find (fun s => marker s body) priority with
  | Some s => s
  | None => Fallback
  end.

(** The handler of each state, as the specification lists them. *)
Definition handler (s : PageState) (fuel : nat) (res : Response) (body : string)
    (creds : LoginCredentials) : Mo outcome :=
  match s with
  | ConvergedSignIn =>
      handle "ConvergedSignIn failed: %w" (run (processConvergedSignIn res body creds))
  | ConvergedTFA =>
      handle "ConvergedTFA failed: %w" (processConvergedTFA fuel res body creds)
  | KmsiInterrupt =>
      handle "KmsiInterrupt failed: %w" (run (processKmsiInterrupt res body))
  | SAMLRequestRelay =>
      handle "SAMLRequest failed: %w" (run (processSAMLRequest res body))
  | HiddenFormOrAssertion =>
      if String.eqb (getSAMLAssertion body) "" then
        handle "form reprocessing failed: %w" (run (reProcessForm body))
      else run (ret (Return (getSAMLAssertion body)))
  | Fallback => run (default_case body)
  end.

(** The requests of a trace, and the waits. *)
Definition requests (tr : list Event) : list Request :=
  omap (fun e => match e with EvDo req _ => Some req | _ => None end) tr.

Definition sleeps (tr : list Event) : list Z :=
  omap (fun e => match e with EvSleep d => Some d | _ => None end) tr.

(** An end-challenge call: the request of [processMFAEndAuth]. *)
Definition is_EndAuth (convergedResp : ConvergedResponse) (req : Request) : bool :=
  String.eqb (Method req) "POST" &&
  String.eqb (req_URL req) (URLEndAuth convergedResp) &&
  match req_Body req with
  | MFABody r => String.eqb (rq_Method r) "EndAuth"
  | _ => false
  end.

(** The network side of a trace: calls and waits, in order. *)
Inductive step_kind :=
| EndAuthCall
| OtherCall
| Wait (d : Z).

Definition step_of (convergedResp : ConvergedResponse) (e : Event) : option step_kind :=
  match e with
  | EvDo req _ => Some (if is_EndAuth convergedResp req then EndAuthCall else OtherCall)
  | EvSleep d => Some (Wait d)
  | _ => None
  end.

Definition steps (convergedResp : ConvergedResponse) (tr : list Event) : list step_kind :=
  omap (step_of convergedResp) tr.

(** Whether an iteration that starts from the answer [m] asks the user
    for a code. *)
Definition prompts (creds : LoginCredentials) (m : MFAResponse) : bool :=
  (String.eqb (AuthMethodID m) MFAPhoneAppOTP || String.eqb (AuthMethodID m) MFAOneWaySMS)
  && String.eqb (MFAToken creds) "".

(** A retryable answer, and a successful one. *)
Definition retryable (r : MFAResponse) : Prop :=
  Retry r = true /\ Success r = false /\ ErrCode r = 0.

Definition successful (r : MFAResponse) : Prop :=
  Success r = true /\ ErrCode r = 0.

(** The name/value pairs of the inputs of a form that have a name, in
    document order; an input without a [value] has the empty value. *)
Definition named_pair (s : Node) : option (string * string) :=
  let (name, nameExists) := node_attr "name" s in
  if nameExists && negb (String.eqb name "") then Some (name, fst (node_attr "value" s))
  else None.

Definition fields (form : Node) : list (string * string) :=
  omap named_pair (Find sel_input [form]).

(** The value of the last pair named [n]. *)
Fixpoint assoc_last (n : string) (ps : list (string * string)) : option string :=
  match ps with
  | [] => None
  | (k, v) :: ps' =>
      match assoc_last n ps' with
      | Some v' => Some v'
      | None => if String.eqb k n then Some v else None
      end
  end.

(** The name/value pairs of a request body. *)
Definition pairs (v : Values) : list (string * string) :=
  map_to_list v ≫= (fun kv => (fun x => (fst kv, x)) <$> snd kv).

(** The request that relays a form unchanged. *)
Definition relay_call (action : string) (values : Values) : Request :=
  stamp (with_header {| Method := "POST"; req_URL := action; req_Header := ∅;
                        req_Body := FormBody values |}
                     "Content-Type" form_urlencoded).

(** The begin-challenge request that names the proof [mfa]. *)
Definition BeginAuth_call (mfa : UserProof) (convergedResp : ConvergedResponse) : Request :=
  stamp (with_header
           {| Method := "POST"; req_URL := URLBeginAuth convergedResp; req_Header := ∅;
              req_Body := MFABody {| rq_AuthMethodID := up_AuthMethodID mfa;
                                     rq_Method := "BeginAuth";
                                     rq_Ctx := SCtx convergedResp;
                                     rq_FlowToken := SFT convergedResp;
                                     rq_SessionID := "";
                                     rq_AdditionalAuthData := "" |} |}
           "Content-Type" "application/json").

(** The server answers with a body that decodes to [r]. *)
Definition answers_with (x : Exchange) (r : MFAResponse) : Prop :=
  exists res, reply x = ok res /\ decode_body Decode_MFAResponse res = ok r.

(** How many of the iterations that start from the answers [ms] ask for a
    code. *)
Definition codes_needed (creds : LoginCredentials) (ms : list MFAResponse) : nat :=
  length (List.filter (prompts creds) ms).

(** A request that carries the direct password-entry form. *)
Definition is_password_post (creds : LoginCredentials) (convergedResp : ConvergedResponse)
    (req : Request) : Prop :=
  req_Body req = FormBody (password_form creds convergedResp).

(** The two requests of the Federated-Auth path. *)
Definition is_federation_request (federationURL : string) (creds : LoginCredentials)
    (req : Request) : Prop :=
  (Method req = "GET" /\ req_URL req = federationURL /\ req_Body req = NoBody) \/
  (Method req = "POST" /\ exists formValues,
      req_Body req = FormBody (federation_form formValues creds)).

(** The ways the main loop ends. *)
Inductive explicit_exit : result string -> Prop :=
| exit_assertion a : a <> "" -> explicit_exit (ok a)
| exit_read e : explicit_exit (fail (Wrapf "failed to read response body: %w" e))
| exit_ConvergedSignIn e : explicit_exit (fail (Wrapf "ConvergedSignIn failed: %w" e))
| exit_ConvergedTFA e : explicit_exit (fail (Wrapf "ConvergedTFA failed: %w" e))
| exit_KmsiInterrupt e : explicit_exit (fail (Wrapf "KmsiInterrupt failed: %w" e))
| exit_SAMLRequest e : explicit_exit (fail (Wrapf "SAMLRequest failed: %w" e))
| exit_form e : explicit_exit (fail (Wrapf "form reprocessing failed: %w" e))
| exit_server_error code txt :
    explicit_exit (fail (Errorf "authentication error: %s - %s" [ArgS code; ArgS txt]))
| exit_unknown : explicit_exit (fail unknown_state).

End Flow.

(** ** A reference platform and sample pages

    The libraries tabulated on the pages and answers used in the examples:
    each entry is what the Go library gives for that text. *)

Module Ref.

Definition dq : string := String "034"%char EmptyString.
Definition nl : string := String "010"%char EmptyString.

(** A JSON string literal, and a member with a string value. *)
Definition js (s : string) : string := dq +:+ s +:+ dq.
Definition member (k v : string) : string := js k +:+ ":" +:+ js v.

Definition element (tag : string) (attrs : list Attribute) (children : list Node) : Node :=
  mkNode ElementNode tag attrs children.
Definition text (s : string) : Node := mkNode TextNode s [] [].
Definition at_ (k v : string) : Attribute := {| Key := k; Val := v |}.

(** The tree of a page: the parser supplies [html], [head] and [body]. *)
Definition document (head body : list Node) : Node :=
  mkNode DocumentNode "" []
    [element "html" [] [element "head" [] head; element "body" [] body]].

Definition input_ (type name value : string) : Node :=
  element "input" [at_ "type" type; at_ "name" name; at_ "value" value] [].

Definition form_ (action : string) (inputs : list Node) : Node :=
  element "form" [at_ "action" action; at_ "method" "post"] inputs.

Definition input_text (type name value : string) : string :=
  "<input type='" +:+ type +:+ "' name='" +:+ name +:+ "' value='" +:+ value +:+ "'>".

Definition form_text (action : string) (inputs : string) : string :=
  "<form action='" +:+ action +:+ "' method='post'>" +:+ inputs +:+ "</form>".

Definition assertion : string := "PHNhbWxwOlJlc3BvbnNlPg".
Definition aws : string := "https://signin.aws.amazon.com/saml".

(** The terminal page. *)
Definition assertion_page : string :=
  form_text aws (input_text "hidden" "SAMLResponse" assertion).
Definition assertion_doc : Node :=
  document [] [form_ aws [input_ "hidden" "SAMLResponse" assertion]].

(** The terminal page with, before its form, an empty input of the name
    of the assertion field. *)
Definition shadowed_page : string :=
  input_text "hidden" "SAMLResponse" "" +:+
  form_text aws (input_text "hidden" "SAMLResponse" assertion).
Definition shadowed_doc : Node :=
  document [] [input_ "hidden" "SAMLResponse" "";
               form_ aws [input_ "hidden" "SAMLResponse" assertion]].

(** A page of no known kind. *)
Definition unknown_page : string := "<html><body>Service unavailable</body></html>".
Definition unknown_doc : Node := document [] [text "Service unavailable"].

Definition script_page (config : string) : string :=
  "<html><head><script>$Config=" +:+ config +:+ ";</script></head><body></body></html>".
Definition script_doc (config : string) : Node :=
  document [element "script" [] [text ("$Config=" +:+ config +:+ ";")]] [].

(** A page of no known kind that reports a server error. *)
Definition error_config : string :=
  "{" +:+ member "sErrorCode" "50126" +:+ "," +:+
          member "sErrTxt" "Invalid username or password" +:+ "}".
Definition error_page : string := script_page error_config.

(** A relay page (one field has an empty value, one input has no name)
    and a form with two inputs of one name. *)
Definition acs : string := "https://sp.example.com/acs".
Definition relay_page : string :=
  form_text acs (input_text "hidden" "RelayState" "" +:+
                 input_text "hidden" "wresult" "token" +:+ "<input type='submit'>").
Definition relay_form : Node :=
  form_ acs [input_ "hidden" "RelayState" ""; input_ "hidden" "wresult" "token";
             element "input" [at_ "type" "submit"] []].
Definition relay_doc : Node := document [] [relay_form].

Definition repeated_page : string :=
  form_text acs (input_text "hidden" "scope" "read" +:+
                 input_text "hidden" "scope" "write").
Definition repeated_form : Node :=
  form_ acs [input_ "hidden" "scope" "read"; input_ "hidden" "scope" "write"].
Definition repeated_doc : Node := document [] [repeated_form].

(** The sign-in form of a federation service. *)
Definition adfs : string := "https://adfs.example.com/adfs/ls/".
Definition adfs_page : string :=
  form_text adfs (input_text "email" "UserName" "" +:+
                  input_text "password" "Password" "" +:+
                  input_text "hidden" "Kmsi" "true").
Definition adfs_doc : Node :=
  document [] [form_ adfs [input_ "email" "UserName" ""; input_ "password" "Password" "";
                           input_ "hidden" "Kmsi" "true"]].

Definition html_table : list (string * Node) :=
  [(assertion_page, assertion_doc); (shadowed_page, shadowed_doc);
   (unknown_page, unknown_doc); (error_page, script_doc error_config);
   (relay_page, relay_doc); (repeated_page, repeated_doc); (adfs_page, adfs_doc)].

Fixpoint table_lookup {A} (t : list (string * A)) (s : string) : option A :=
  match t with
  | [] => None
  | (k, a) :: t' => if String.eqb s k then Some a else table_lookup t' s
  end.

(** The zero values of the wire types. *)
Definition ConvergedResponse_zero : ConvergedResponse :=
  {| URLGetCredentialType := ""; ArrUserProofs := []; URLSkipMfaRegistration := "";
     OPerAuthPollingInterval := ∅; URLBeginAuth := ""; URLEndAuth := ""; URLPost := "";
     SErrorCode := ""; SErrTxt := ""; SPOSTUsername := ""; SFT := ""; SFTName := "";
     SCtx := ""; Hpgact := 0; Hpgid := 0; Pgid := ""; APICanary := ""; Canary := "";
     CorrelationID := ""; SessionID := "" |}.

Definition MFAResponse_zero : MFAResponse :=
  {| Success := false; ResultValue := ""; Message := JNull; AuthMethodID := "";
     ErrCode := 0; Retry := false; FlowToken := ""; Ctx := ""; mr_SessionID := "";
     mr_CorrelationID := ""; Timestamp := ""; Entropy := 0 |}.

Definition credentials_of (federationRedirectURL : string) : GetCredentialTypeResponse :=
  {| gc_Username := ""; gc_Display := ""; gc_IfExistsResult := 0; gc_IsUnmanaged := false;
     gc_ThrottleStatus := 0;
     gc_Credentials :=
       {| PrefCredential := 0; HasPassword := false; RemoteNgcParams := JNull;
          FidoParams := JNull; SasParams := JNull; CertAuthParams := JNull;
          GoogleParams := JNull; FacebookParams := JNull;
          FederationRedirectURL := federationRedirectURL |};
     gc_FlowToken := ""; gc_IsSignupDisallowed := false; gc_APICanary := "" |}.

(** The configuration objects of the sample pages. *)
Definition login : string := "https://login.example.com".

Definition signin_config : string :=
  "{" +:+ member "pgid" "ConvergedSignIn" +:+ "," +:+
          member "urlPost" (login +:+ "/login") +:+ "," +:+
          member "urlGetCredentialType" (login +:+ "/GetCredentialType") +:+ "," +:+
          member "sFTName" "flowToken" +:+ "," +:+
          member "sFT" "ft1" +:+ "," +:+ member "sCtx" "ctx1" +:+ "}".
Definition signin_page : string := script_page signin_config.
Definition signin_conv : ConvergedResponse :=
  {| URLGetCredentialType := login +:+ "/GetCredentialType"; ArrUserProofs := [];
     URLSkipMfaRegistration := ""; OPerAuthPollingInterval := ∅; URLBeginAuth := "";
     URLEndAuth := ""; URLPost := login +:+ "/login"; SErrorCode := ""; SErrTxt := "";
     SPOSTUsername := ""; SFT := "ft1"; SFTName := "flowToken"; SCtx := "ctx1";
     Hpgact := 0; Hpgid := 0; Pgid := "ConvergedSignIn"; APICanary := ""; Canary := "";
     CorrelationID := ""; SessionID := "" |}.

Definition error_conv : ConvergedResponse :=
  {| URLGetCredentialType := ""; ArrUserProofs := []; URLSkipMfaRegistration := "";
     OPerAuthPollingInterval := ∅; URLBeginAuth := ""; URLEndAuth := ""; URLPost := "";
     SErrorCode := "50126"; SErrTxt := "Invalid username or password";
     SPOSTUsername := ""; SFT := ""; SFTName := ""; SCtx := ""; Hpgact := 0; Hpgid := 0;
     Pgid := ""; APICanary := ""; Canary := ""; CorrelationID := ""; SessionID := "" |}.

(** An MFA page that lists no proof and no way around the registration. *)
Definition bare_tfa_config : string := "{" +:+ member "pgid" "ConvergedTFA" +:+ "}".
Definition bare_tfa_page : string := script_page bare_tfa_config.
Definition bare_tfa_conv : ConvergedResponse :=
  {| URLGetCredentialType := ""; ArrUserProofs := []; URLSkipMfaRegistration := "";
     OPerAuthPollingInterval := ∅; URLBeginAuth := ""; URLEndAuth := ""; URLPost := "";
     SErrorCode := ""; SErrTxt := ""; SPOSTUsername := ""; SFT := ""; SFTName := "";
     SCtx := ""; Hpgact := 0; Hpgid := 0; Pgid := "ConvergedTFA"; APICanary := "";
     Canary := ""; CorrelationID := ""; SessionID := "" |}.

(** The MFA page of the examples, as decoded: two proofs, the second the
    default, and a polling interval of a second and a half for it. *)
Definition sms : UserProof :=
  {| up_AuthMethodID := MFAOneWaySMS; up_Data := ""; up_Display := "+XX XXXXXXX12";
     up_IsDefault := false |}.
Definition push : UserProof :=
  {| up_AuthMethodID := MFAPhoneAppNotification; up_Data := ""; up_Display := "";
     up_IsDefault := true |}.
Definition tfa_conv : ConvergedResponse :=
  {| URLGetCredentialType := ""; ArrUserProofs := [sms; push]; URLSkipMfaRegistration := "";
     OPerAuthPollingInterval := {[ MFAPhoneAppNotification := (3 # 2)%Q ]};
     URLBeginAuth := login +:+ "/BeginAuth"; URLEndAuth := login +:+ "/EndAuth";
     URLPost := login +:+ "/ProcessAuth"; SErrorCode := ""; SErrTxt := "";
     SPOSTUsername := "user@example.com"; SFT := "ft2"; SFTName := "flowToken";
     SCtx := "ctx2"; Hpgact := 0; Hpgid := 0; Pgid := "ConvergedTFA"; APICanary := "";
     Canary := "canary2"; CorrelationID := ""; SessionID := "" |}.

Definition config_table : list (string * ConvergedResponse) :=
  [(signin_config, signin_conv); (error_config, error_conv);
   (bare_tfa_config, bare_tfa_conv)].

(** The answers of the credential-type endpoint. *)
Definition credential_body (federationRedirectURL : string) : string :=
  "{" +:+ js "Credentials" +:+ ":{" +:+
          member "FederationRedirectUrl" federationRedirectURL +:+ "}}".

Definition credential_table : list (string * GetCredentialTypeResponse) :=
  [(credential_body "", credentials_of ""); (credential_body adfs, credentials_of adfs)].

(** The answers of the MFA endpoints. *)
Definition mfa_of (success retry : bool) (errCode : Z) (message : any_json)
    (ctx flowToken : string) (entropy : Z) : MFAResponse :=
  {| Success := success; ResultValue := ""; Message := message;
     AuthMethodID := MFAPhoneAppNotification; ErrCode := errCode; Retry := retry;
     FlowToken := flowToken; Ctx := ctx; mr_SessionID := "s0"; mr_CorrelationID := "";
     Timestamp := ""; Entropy := entropy |}.

Definition mfa_common (ctx flowToken : string) : string :=
  member "AuthMethodId" MFAPhoneAppNotification +:+ "," +:+ member "Ctx" ctx +:+ "," +:+
  member "FlowToken" flowToken +:+ "," +:+ member "SessionId" "s0".

Definition begin_body : string :=
  "{" +:+ js "Success" +:+ ":true," +:+ mfa_common "c0" "f0" +:+ "," +:+
          js "Entropy" +:+ ":42}".
Definition begin_resp : MFAResponse := mfa_of true false 0 JNull "c0" "f0" 42.

Definition retry_body : string :=
  "{" +:+ js "Success" +:+ ":false," +:+ js "Retry" +:+ ":true," +:+
          mfa_common "c1" "f1" +:+ "}".
Definition retry_resp : MFAResponse := mfa_of false true 0 JNull "c1" "f1" 0.

Definition success_body : string :=
  "{" +:+ js "Success" +:+ ":true," +:+ mfa_common "c2" "f2" +:+ "}".
Definition success_resp : MFAResponse := mfa_of true false 0 JNull "c2" "f2" 0.

Definition denied_body : string :=
  "{" +:+ js "Success" +:+ ":false," +:+ js "Retry" +:+ ":true," +:+
          js "ErrCode" +:+ ":500121," +:+ member "Message" "Authentication failed" +:+ "," +:+
          mfa_common "c3" "f3" +:+ "}".
Definition denied_resp : MFAResponse :=
  mfa_of false true 500121 (JString "Authentication failed") "c3" "f3" 0.

Definition mfa_table : list (string * MFAResponse) :=
  [(begin_body, begin_resp); (retry_body, retry_resp); (success_body, success_resp);
   (denied_body, denied_resp)].

Definition decode {A} (t : list (string * A)) (s : string) : result A :=
  match table_lookup t s with
  | Some a => ok a
  | None => fail (LibError "invalid character")
  end.

(** Addresses: text, with references that start with [/] resolved against
    the scheme and host of the base. *)
Fixpoint until_slash (s : string) : string :=
  match s with
  | EmptyString => EmptyString
  | String c s' => if Ascii.eqb c "/"%char then EmptyString else String c (until_slash s')
  end.

Definition origin (s : string) : string :=
  match String.index 0 "://" s with
  | Some n => String.substring 0 (n + 3) s +:+ until_slash (skip (n + 3) s)
  | None => EmptyString
  end.

Fixpoint drop_spaces (s : string) : string :=
  match s with
  | String c s' => if Ascii.is_space c then drop_spaces s' else s
  | EmptyString => EmptyString
  end.

Definition trim (s : string) : string :=
  String.rev (drop_spaces (String.rev (drop_spaces s))).

Definition platform : Platform :=
  {| NewDocumentFromReader html :=
       ok (default (document [] []) (table_lookup html_table html));
     Unmarshal_ConvergedResponse := decode config_table;
     Decode_GetCredentialTypeResponse := decode credential_table;
     Decode_MFAResponse := decode mfa_table;
     URL := string;
     url_Parse s :=
       if HasPrefix s ":" then fail (LibError "missing protocol scheme") else ok s;
     ResolveReference base ref := if HasPrefix ref "/" then origin base +:+ ref else ref;
     URL_String u := u;
     TrimSpace := trim;
     GOOS := "linux";
     GOARCH := "amd64";
     Jar := list string;
     float64_out_of_range _ := - 2 ^ 63 |}.

#[local] Existing Instance platform.

(** A response fetched from [url], a server that answers and leaves no
    cookie, and a fresh session. *)
Definition response (url body : string) : Response :=
  {| Request_URL := url; Body := ok body |}.

Definition answer (url body : string) : Exchange :=
  {| reply := ok (response url body); set_cookies := fun j => j |}.

Definition session (answers : list Exchange) (lines : list (result string)) : World :=
  {| trace := []; server := answers; stdin := lines; followRedirect := true; jar := [] |}.

Definition creds : LoginCredentials :=
  {| Username := "user@example.com"; Password := "hunter2"; MFAToken := "" |}.

(** The values of the relay page and of the form with a repeated name, as
    the form parser extracts them. *)
Definition relay_values : Values :=
  Values_Set (Values_Set ∅ "RelayState" "") "wresult" "token".
Definition repeated_values : Values := Values_Set ∅ "scope" "write".

(** A page that bears the markers of two states. *)
Definition mixed_page : string :=
  "<html><body>ConvergedTFA SAMLRequest ConvergedSignIn</body></html>".

(** The sign-in page answered, after the password form, by the sign-in
    page; the sign-in page of a federated account; three polls. *)
Definition start : string := "https://login.example.com/start".
Definition signin_again : World :=
  session [answer (login +:+ "/GetCredentialType") (credential_body "");
           answer (login +:+ "/login") signin_page] [].
Definition federated : World :=
  session [answer (login +:+ "/GetCredentialType") (credential_body adfs);
           answer adfs adfs_page; answer aws assertion_page] [].
Definition approving : World :=
  session [answer (login +:+ "/EndAuth") retry_body;
           answer (login +:+ "/EndAuth") success_body] [].
Definition denying : World := session [answer (login +:+ "/EndAuth") denied_body] [].

Definition client : Client :=
  {| baseURL := "https://account.activedirectory.windowsazure.com";
     appID := "12345678-1234-1234-1234-123456789abc" |}.

End Ref.

(** ** What a whole run leaves in the trace *)

Section Discipline.
Context {P : Platform}.

(** The client identity string of [stamp]. *)
Definition identity : string :=
  UserAgent +:+ " (" +:+ GOOS +:+ " " +:+ GOARCH +:+ ")".

(** The form of the "keep me signed in" page: it declines. *)
Definition declines (req : Request) : Prop :=
  exists v, req_Body req = FormBody v /\ v !! "LoginOptions" = Some ["1"].

(** What holds of an event of a run that started with the redirect policy
    [follow]: a request bears the identity, and goes out with redirects
    off only if it declines to stay signed in or the policy was off from
    the start; the terminal is read only when no code was supplied. *)
Definition event_ok (creds : LoginCredentials) (follow : bool) (e : Event) : Prop :=
  match e with
  | EvDo req f =>
      req_Header req !! "User-Agent" = Some identity /\
      (f = false -> declines req \/ follow = false)
  | EvReadLine => MFAToken creds = ""
  | _ => True
  end.

(** The world [w'] comes from [w] by a run of the client: the redirect
    policy is not left off, the terminal is untouched when a code was
    supplied, the answers of the server are taken in order, and the trace
    has grown by events that are in order. *)
Definition run_of (creds : LoginCredentials) (w w' : World) : Prop :=
  (followRedirect w = true -> followRedirect w' = true) /\
  (MFAToken creds <> "" -> stdin w' = stdin w) /\
  (exists used, server w = used ++ server w') /\
  exists new,
    trace w' = trace w ++ new /\ Forall (event_ok creds (followRedirect w)) new.

Definition safe {A} (creds : LoginCredentials) (m : M A) : Prop :=
  forall w r w', m w = (r, w') -> run_of creds w w'.

Definition safe_loop {A} (creds : LoginCredentials) (m : Mo A) : Prop :=
  forall w r w', m w = Some (r, w') -> run_of creds w w'.

End Discipline.

Section Progress.
Context {P : Platform}.

(** The response [res] is one of the answers that the run from [w] to
    [w'] took from the server. *)
Definition answered (w : World) (res : Response) (w' : World) : Prop :=
  exists used x, server w = used ++ x :: server w' /\ reply x = ok res.

(** A page that [processConvergedTFA] hands back as it came: an MFA page
    with no way around the registration and no proof. *)
Definition hands_back (body : string) : Prop :=
  Contains body "ConvergedSignIn" = false /\
  Contains body "ConvergedTFA" = true /\
  exists conv, unmarshalEmbeddedJSON body = ok conv /\
               URLSkipMfaRegistration conv = "" /\ ArrUserProofs conv = [].

(** No answer of the server is a page that is handed back. *)
Definition never_handed_back (answers : list Exchange) : Prop :=
  Forall (fun x => forall res body,
              reply x = ok res -> Body res = ok body -> ~ hands_back body) answers.

Definition answers_it (m : M Response) : Prop :=
  forall w res w', m w = (ok res, w') -> answered w res w'.

End Progress.

Section Calls.
Context {P : Platform}.

(** The form of [processKmsiInterrupt] and the request that carries it. *)
Definition kmsi_form (conv : ConvergedResponse) : Values :=
  Values_Set (Values_Set (Values_Set ∅ (SFTName conv) (SFT conv)) "ctx" (SCtx conv))
             "LoginOptions" "1".

Definition kmsi_call (res : Response) (conv : ConvergedResponse) : Request :=
  stamp (with_header {| Method := "POST"; req_URL := fullURL res (URLPost conv);
                        req_Header := ∅; req_Body := FormBody (kmsi_form conv) |}
                     "Content-Type" form_urlencoded).

(** The request of [processAuthentication]. *)
Definition password_call (loginURL refererURL : string) (creds : LoginCredentials)
    (conv : ConvergedResponse) : Request :=
  stamp (with_header
           (with_header {| Method := "POST"; req_URL := loginURL; req_Header := ∅;
                           req_Body := FormBody (password_form creds conv) |}
                        "Content-Type" form_urlencoded)
           "Referer" refererURL).

(** The form of [processMFAAuth] and the request that carries it. *)
Definition completion_form (m : MFAResponse) (conv : ConvergedResponse) : Values :=
  Values_Set
    (Values_Set
       (Values_Set
          (Values_Set (Values_Set ∅ "request" (Ctx m)) "mfaAuthMethod" (AuthMethodID m))
          "canary" (Canary conv))
       "login" (SPOSTUsername conv))
    (SFTName conv) (FlowToken m).

Definition completion_call (m : MFAResponse) (conv : ConvergedResponse) : Request :=
  stamp (with_header {| Method := "POST"; req_URL := URLPost conv; req_Header := ∅;
                        req_Body := FormBody (completion_form m conv) |}
                     "Content-Type" form_urlencoded).

(** The end-challenge request that carries [rq]. *)
Definition EndAuth_call (rq : MFARequest) (conv : ConvergedResponse) : Request :=
  stamp (with_header {| Method := "POST"; req_URL := URLEndAuth conv; req_Header := ∅;
                        req_Body := MFABody rq |}
                     "Content-Type" "application/json").

(** A one-time-code method. *)
Definition is_OTP (method : string) : bool :=
  String.eqb method MFAPhoneAppOTP || String.eqb method MFAOneWaySMS.

(** The fetch of an address. *)
Definition Get_call (url : string) : Request :=
  stamp {| Method := "GET"; req_URL := url; req_Header := ∅; req_Body := NoBody |}.

End Calls.

Section Calls_more.
Context {P : Platform}.

(** The completion request before the transport stamps it. *)
Definition completion_call_request (m : MFAResponse) (conv : ConvergedResponse) : Request :=
  with_header {| Method := "POST"; req_URL := URLPost conv; req_Header := ∅;
                 req_Body := FormBody (completion_form m conv) |}
              "Content-Type" form_urlencoded.

End Calls_more.

Section Text.

(** The character [c] occurs in [s]. *)
Fixpoint mentions (c : ascii) (s : string) : bool :=
  match s with
  | EmptyString => false
  | String d s' => Ascii.eqb c d || mentions c s'
  end.

End Text.

(** ** Making a client (client.go, the transport's constructor) *)

Section Construction.
Context {P : Platform}.

Record HTTPClientOptions := {
  ho_SkipVerify : bool;
  ho_Timeout : Z }.

Definition DefaultHTTPClientOptions : HTTPClientOptions :=
  {| ho_SkipVerify := false; ho_Timeout := 60 * Second |}.

(** The state of a [provider.HTTPClient] that the flow reads or changes:
    whether [CheckRedirect] is nil (redirects are followed), the jar, the
    timeout and the TLS switch. *)
Record HTTPClient := {
  hc_follow : bool;
  hc_Jar : Jar;
  hc_Timeout : Z;
  hc_skipVerify : bool }.

(** [NewHTTPClient]; [new_jar] is what [cookiejar.New] returns. *)
Definition NewHTTPClient (new_jar : result Jar) (opts : option HTTPClientOptions)
    : result HTTPClient :=
  let opts := match opts with
              | None => DefaultHTTPClientOptions
              | Some o => o
              end in
  match new_jar with
  | fail e => fail (Wrapf "failed to create cookie jar: %w" e)
  | ok jar =>
      ok {| hc_follow := true; hc_Jar := jar; hc_Timeout := ho_Timeout opts;
            hc_skipVerify := ho_SkipVerify opts |}
  end.

Record ClientOptions := {
  co_URL : string;
  co_AppID : string;
  co_SkipVerify : bool }.

(** [NewClient]: the client and the transport it holds. *)
Definition NewClient (new_jar : result Jar) (opts : option ClientOptions)
    : result (Client * HTTPClient) :=
  match opts with
  | None => fail (Errorf "options cannot be nil" [])
  | Some opts =>
      if String.eqb (co_URL opts) "" then fail (Errorf "URL is required" [])
      else if String.eqb (co_AppID opts) "" then fail (Errorf "AppID is required" [])
      else
        let httpOpts := {| ho_SkipVerify := co_SkipVerify opts;
                           ho_Timeout := ho_Timeout DefaultHTTPClientOptions |} in
        match NewHTTPClient new_jar (Some httpOpts) with
        | fail e => fail (Wrapf "failed to create HTTP client: %w" e)
        | ok httpClient =>
            ok ({| baseURL := co_URL opts; appID := co_AppID opts |}, httpClient)
        end
  end.

(** The world of a transport that has sent nothing yet, facing a server
    and a terminal. *)
Definition world_of (h : HTTPClient) (answers : list Exchange)
    (lines : list (result string)) : World :=
  {| trace := []; server := answers; stdin := lines;
     followRedirect := hc_follow h; jar := hc_Jar h |}.

End Construction.

(** ** Roles of an assertion (saml/roles.go) *)

(** [strings.Split(s, sep)] for a separator of one character, which is
    how the repository calls it: the pieces of [s] between the
    separators, at least one piece. *)
Fixpoint Split (s : string) (sep : ascii) : list string :=
  match s with
  | EmptyString => [EmptyString]
  | String c s' =>
      if Ascii.eqb c sep then EmptyString :: Split s' sep
      else match Split s' sep with
           | piece :: pieces => String c piece :: pieces
           | [] => [String c EmptyString]
           end
  end.

(** The pieces put together again with the separator between them. *)
Fixpoint Join (pieces : list string) (sep : ascii) : string :=
  match pieces with
  | [] => EmptyString
  | [piece] => piece
  | piece :: pieces' => piece +:+ String sep (Join pieces' sep)
  end.

Record AWSRole := {
  RoleARN : string;
  PrincipalARN : string;
  Name : string }.

(** [extractRoleName] *)
Definition extractRoleName (roleARN : string) : string :=
  let parts := Split roleARN "/" in
  if (1 <? length parts)%nat then List.last parts EmptyString else roleARN.

(** [AWSRole.AccountID] *)
Definition AccountID (r : AWSRole) : string :=
  let parts := Split (RoleARN r) ":" in
  if (5 <=? length parts)%nat then nth 4 parts EmptyString else EmptyString.

(** [AWSRole.String] *)
Definition AWSRole_String (r : AWSRole) : string :=
  Name r +:+ " (" +:+ RoleARN r +:+ ")".

(** What [ParseAWSRoles] returns: the roles, or the error
    [fmt.Errorf("failed to parse role %q: %w", roleStr, err)]. *)
Inductive roles_result :=
| Roles (roles : list AWSRole)
| FailedRole (roleStr : string) (err : error).

Section Roles.
Context {P : Platform}.

(** [parseRoleString] *)
Definition parseRoleString (roleStr : string) : result AWSRole :=
  let parts := Split roleStr "," in
  if negb (length parts =? 2)%nat
  then fail (Errorf "invalid role format: expected 2 parts, got %d"
               [ArgD (Z.of_nat (length parts))])
  else
    let part1 := TrimSpace (nth 0 parts EmptyString) in
    let part2 := TrimSpace (nth 1 parts EmptyString) in
    if Contains part1 ":role/" && Contains part2 ":saml-provider/"
    then ok {| RoleARN := part1; PrincipalARN := part2; Name := extractRoleName part1 |}
    else if Contains part2 ":role/" && Contains part1 ":saml-provider/"
    then ok {| RoleARN := part2; PrincipalARN := part1; Name := extractRoleName part2 |}
    else fail (Errorf "invalid role/principal ARNs in: %s" [ArgS roleStr]).

(** [ParseAWSRoles]: the loop, with the roles parsed so far. *)
Fixpoint ParseAWSRoles_from (roles : list AWSRole) (roleStrings : list string)
    : roles_result :=
  match roleStrings with
  | [] => Roles roles
  | roleStr :: rest =>
      match parseRoleString roleStr with
      | fail err => FailedRole roleStr err
      | ok role => ParseAWSRoles_from (roles ++ [role]) rest
      end
  end.

Definition ParseAWSRoles (roleStrings : list string) : roles_result :=
  ParseAWSRoles_from [] roleStrings.

End Roles.

(** ** The session length (aws) *)

(** Go's conversion to [int32] keeps the low 32 bits. *)
Definition int32 (z : Z) : Z := (z + 2 ^ 31) mod 2 ^ 32 - 2 ^ 31.

(** [GetSessionDuration] *)
Definition GetSessionDuration (configuredDuration samlDuration : Z) : Z :=
  if 0 <? configuredDuration then int32 configuredDuration
  else if 0 <? samlDuration then int32 samlDuration
  else 3600.

(** ** Profiles (config) *)

Record Defaults := {
  d_Region : string;
  d_SessionDuration : Z }.

Record Profile := {
  p_URL : string;
  p_AppID : string;
  p_Username : string;
  p_RoleARN : string;
  p_Region : string;
  p_Output : string;
  p_SessionDuration : Z }.

Record MergedProfile := {
  m_Name : string;
  m_URL : string;
  m_AppID : string;
  m_Username : string;
  m_RoleARN : string;
  m_Region : string;
  m_Output : string;
  m_SessionDuration : Z }.

(** A nil map of profiles reads as the empty map. *)
Record Config := {
  cfg_Defaults : Defaults;
  cfg_Profiles : gmap string Profile }.

(** The error [fmt.Errorf("%w: %s", ErrProfileNotFound, name)]. *)
Inductive config_error := ProfileNotFound (name : string).

(** [NewConfig] *)
Definition NewConfig : Config :=
  {| cfg_Defaults := {| d_Region := "us-east-1"; d_SessionDuration := 3600 |};
     cfg_Profiles := ∅ |}.

(** [Config.GetProfile] *)
Definition GetProfile (c : Config) (name : string) : config_error + MergedProfile :=
  match cfg_Profiles c !! name with
  | None => inl (ProfileNotFound name)
  | Some profile =>
      inr {| m_Name := name;
             m_URL := p_URL profile;
             m_AppID := p_AppID profile;
             m_Username := p_Username profile;
             m_RoleARN := p_RoleARN profile;
             m_Region := if negb (String.eqb (p_Region profile) "")
                         then p_Region profile else d_Region (cfg_Defaults c);
             m_Output := p_Output profile;
             m_SessionDuration := if 0 <? p_SessionDuration profile
                                  then p_SessionDuration profile
                                  else d_SessionDuration (cfg_Defaults c) |}
  end.

(** [Config.SetProfile] *)
Definition SetProfile (c : Config) (name : string) (profile : Profile) : Config :=
  {| cfg_Defaults := cfg_Defaults c; cfg_Profiles := <[name := profile]> (cfg_Profiles c) |}.

(** [Config.DeleteProfile]: the error, or the configuration left. *)
Definition DeleteProfile (c : Config) (name : string) : config_error + Config :=
  match cfg_Profiles c !! name with
  | None => inl (ProfileNotFound name)
  | Some _ =>
      inr {| cfg_Defaults := cfg_Defaults c; cfg_Profiles := delete name (cfg_Profiles c) |}
  end.

(** [Config.HasProfile] *)
Definition HasProfile (c : Config) (name : string) : bool :=
  match cfg_Profiles c !! name with
  | Some _ => true
  | None => false
  end.

(** ** Choosing among options (prompter, cmd/login.go) *)

(** [strconv.Atoi] and [strings.ToLower]. *)
Class Strconv := {
  Atoi : string -> result Z;
  ToLower : string -> string
}.

Section Selection.
Context {P : Platform} {St : Strconv}.

(** The lines that [PromptSelect] prints for the options, numbered from
    [i + 1]. *)
Fixpoint print_options (i : Z) (options : list string) : M unit :=
  match options with
  | [] => ret tt
  | opt :: rest =>
      bind (Printf "  [%d] %s\n" [ArgD (i + 1); ArgS opt])
           (fun _ => print_options (i + 1) rest)
  end.

(** [prompter.Select], that is [PromptSelect] of the default prompter:
    the index of the option chosen, counted from 0. *)
Definition PromptSelect (prompt : string) (options : list string) : M Z :=
  bind (Printf "%s\n" [ArgS prompt]) (fun _ =>
  bind (print_options 0 options) (fun _ =>
  bind (Printf "%s" [ArgS "Selection: "]) (fun _ =>
  bind (wrap "failed to read input: %w" ReadString) (fun input =>
  let input := TrimSpace input in
  match Atoi input with
  | fail _ => throw (Errorf "invalid selection: %s" [ArgS input])
  | ok selection =>
      if (selection <? 1) || (Z.of_nat (length options) <? selection)
      then throw (Errorf "selection out of range: %d (must be 1-%d)"
                    [ArgD selection; ArgD (Z.of_nat (length options))])
      else ret (selection - 1)
  end)))).

(** [prompter.Confirm], that is [PromptConfirm] of the default prompter. *)
Definition PromptConfirm (prompt : string) (defaultYes : bool) : M bool :=
  let hint := if defaultYes then "[Y/n]" else "[y/N]" in
  bind (Printf "%s %s: " [ArgS prompt; ArgS hint]) (fun _ =>
  bind (wrap "failed to read input: %w" ReadString) (fun input =>
  let input := TrimSpace (ToLower input) in
  if String.eqb input "" then ret defaultYes
  else if String.eqb input "y" || String.eqb input "yes" then ret true
  else if String.eqb input "n" || String.eqb input "no" then ret false
  else throw (Errorf "invalid input: %s (expected y/n)" [ArgS input]))).

(** The line that [selectRole] shows for a role. *)
Definition role_option (role : AWSRole) : string :=
  Name role +:+ " (Account: " +:+ AccountID role +:+ ")".

(** [roles[idx]]: a panic when the index is out of range. *)
Definition index_role (roles : list AWSRole) (idx : Z) : M AWSRole :=
  if idx <? 0 then throw (LibError "panic: index out of range")
  else match roles !! Z.to_nat idx with
       | Some role => ret role
       | None => throw (LibError "panic: index out of range")
       end.

(** [selectRole] *)
Definition selectRole (roles : list AWSRole) : M AWSRole :=
  if (length roles =? 0)%nat then throw (Errorf "no roles to select from" [])
  else
    let options := map role_option roles in
    bind (PromptSelect "Select an AWS role:" options) (fun idx =>
    index_role roles idx).

(** The choice of the role in [runLogin] ("Select role"), given the roles
    of the assertion and the role of the profile. *)
Definition runLogin_select_role (roles : list AWSRole) (profile_RoleARN : string)
    : M AWSRole :=
  if (length roles =? 0)%nat
  then throw (Errorf "no AWS roles found in SAML assertion" [])
  else
    match roles with
    | [role] =>
        bind (Printf "Using role: %s\n" [ArgS (Name role)]) (fun _ => ret role)
    | _ =>
        if negb (String.eqb profile_RoleARN "") then
          match List.find (fun role => String.eqb (RoleARN role) profile_RoleARN) roles with
          | Some role => ret role
          | None => throw (Errorf "configured role %s not found in SAML assertion"
                             [ArgS profile_RoleARN])
          end
        else wrap "failed to select role: %w" (selectRole roles)
    end.

End Selection.

(** ** More sample data

    A second reference platform: the first one with three more pages and
    one more answer of the MFA endpoints, and reference versions of
    [strconv.Atoi] and [strings.ToLower]. *)

Module Sample.

(** An end-challenge answer that refuses for good. *)
Definition refused_body : string :=
  "{" +:+ Ref.js "Success" +:+ ":false," +:+ Ref.mfa_common "c4" "f4" +:+ "}".
Definition refused_resp : MFAResponse := Ref.mfa_of false false 0 JNull "c4" "f4" 0.

(** A begin-challenge answer for a one-time-code method. *)
Definition otp_resp : MFAResponse :=
  {| Success := true; ResultValue := ""; Message := JNull; AuthMethodID := MFAOneWaySMS;
     ErrCode := 0; Retry := false; FlowToken := "f6"; Ctx := "c6"; mr_SessionID := "s0";
     mr_CorrelationID := ""; Timestamp := ""; Entropy := 0 |}.

(** A begin-challenge answer that is not a success. *)
Definition unavailable_body : string :=
  "{" +:+ Ref.js "Success" +:+ ":false," +:+ Ref.member "Message" "Method unavailable" +:+ "," +:+
          Ref.mfa_common "c5" "f5" +:+ "}".
Definition unavailable_resp : MFAResponse :=
  Ref.mfa_of false false 0 (JString "Method unavailable") "c5" "f5" 0.

(** A page with an input of the name of the assertion field and no form. *)
Definition loose_page : string := Ref.input_text "hidden" "SAMLResponse" Ref.assertion.
Definition loose_doc : Node :=
  Ref.document [] [Ref.input_ "hidden" "SAMLResponse" Ref.assertion].

(** A "keep me signed in" page, its post-back address relative. *)
Definition kmsi_config : string :=
  "{" +:+ Ref.member "pgid" "KmsiInterrupt" +:+ "," +:+
          Ref.member "urlPost" "/kmsi" +:+ "," +:+
          Ref.member "sFTName" "flowToken" +:+ "," +:+
          Ref.member "sFT" "ft3" +:+ "," +:+ Ref.member "sCtx" "ctx3" +:+ "}".
Definition kmsi_page : string := Ref.script_page kmsi_config.
Definition kmsi_conv : ConvergedResponse :=
  {| URLGetCredentialType := ""; ArrUserProofs := []; URLSkipMfaRegistration := "";
     OPerAuthPollingInterval := ∅; URLBeginAuth := ""; URLEndAuth := ""; URLPost := "/kmsi";
     SErrorCode := ""; SErrTxt := ""; SPOSTUsername := ""; SFT := "ft3";
     SFTName := "flowToken"; SCtx := "ctx3"; Hpgact := 0; Hpgid := 0;
     Pgid := "KmsiInterrupt"; APICanary := ""; Canary := ""; CorrelationID := "";
     SessionID := "" |}.

(** A page with two forms, the first without an action. *)
Definition actionless_page : string :=
  "<form method='post'></form>" +:+ Ref.form_text Ref.acs "".
Definition actionless_doc : Node :=
  Ref.document [] [Ref.element "form" [Ref.at_ "method" "post"] []; Ref.form_ Ref.acs []].

Definition html_table : list (string * Node) :=
  (loose_page, loose_doc) :: (kmsi_page, Ref.script_doc kmsi_config) ::
  (actionless_page, actionless_doc) :: Ref.html_table.

Definition config_table : list (string * ConvergedResponse) :=
  (kmsi_config, kmsi_conv) :: Ref.config_table.

Definition mfa_table : list (string * MFAResponse) :=
  (refused_body, refused_resp) :: (unavailable_body, unavailable_resp) :: Ref.mfa_table.

Definition platform : Platform :=
  {| NewDocumentFromReader html :=
       ok (default (Ref.document [] []) (Ref.table_lookup html_table html));
     Unmarshal_ConvergedResponse := Ref.decode config_table;
     Decode_GetCredentialTypeResponse := Ref.decode Ref.credential_table;
     Decode_MFAResponse := Ref.decode mfa_table;
     URL := string;
     url_Parse s :=
       if HasPrefix s ":" then fail (LibError "missing protocol scheme") else ok s;
     ResolveReference base ref :=
       if HasPrefix ref "/" then Ref.origin base +:+ ref else ref;
     URL_String u := u;
     TrimSpace := Ref.trim;
     GOOS := "linux";
     GOARCH := "amd64";
     Jar := list string;
     float64_out_of_range _ := - 2 ^ 63 |}.

#[local] Existing Instance platform.

Definition response (url body : string) : Response :=
  {| Request_URL := url; Body := ok body |}.

Definition answer (url body : string) : Exchange :=
  {| reply := ok (response url body); set_cookies := fun j => j |}.

Definition session (answers : list Exchange) (lines : list (result string)) : World :=
  {| trace := []; server := answers; stdin := lines; followRedirect := true; jar := [] |}.

(** Credentials with a one-time code. *)
Definition creds_with_code : LoginCredentials :=
  {| Username := "user@example.com"; Password := "hunter2"; MFAToken := "123456" |}.

(** Decimal numerals, with a sign or without, that fit 64 bits. *)
Fixpoint digits (acc : Z) (s : string) : option Z :=
  match s with
  | EmptyString => Some acc
  | String c s' =>
      let n := Z.of_nat (nat_of_ascii c) in
      if (48 <=? n) && (n <=? 57) then digits (10 * acc + (n - 48)) s' else None
  end.

Definition number (s : string) : option Z :=
  match s with
  | EmptyString => None
  | _ => digits 0 s
  end.

Definition atoi (s : string) : result Z :=
  let value :=
    match s with
    | String c s' =>
        if Ascii.eqb c "-" then option_map Z.opp (number s')
        else if Ascii.eqb c "+" then number s'
        else number s
    | EmptyString => None
    end in
  match value with
  | Some z => if (- 2 ^ 63 <=? z) && (z <? 2 ^ 63) then ok z
              else fail (LibError "value out of range")
  | None => fail (LibError "invalid syntax")
  end.

Definition lower (c : ascii) : ascii :=
  let n := nat_of_ascii c in
  if (65 <=? n)%nat && (n <=? 90)%nat then ascii_of_nat (n + 32) else c.

Fixpoint to_lower (s : string) : string :=
  match s with
  | EmptyString => EmptyString
  | String c s' => String (lower c) (to_lower s')
  end.

Definition strconv : Strconv := {| Atoi := atoi; ToLower := to_lower |}.

(** Two roles of one account, as an assertion lists them. *)
Definition provider_arn : string := "arn:aws:iam::123456789012:saml-provider/Azure".
Definition admin_arn : string := "arn:aws:iam::123456789012:role/Admin".
Definition reader_arn : string := "arn:aws:iam::123456789012:role/team/Reader".
Definition admin : AWSRole :=
  {| RoleARN := admin_arn; PrincipalARN := provider_arn; Name := "Admin" |}.
Definition reader : AWSRole :=
  {| RoleARN := reader_arn; PrincipalARN := provider_arn; Name := "Reader" |}.

(** A profile that names neither a region nor a session length. *)
Definition dev : Profile :=
  {| p_URL := "https://account.activedirectory.windowsazure.com";
     p_AppID := "12345678-1234-1234-1234-123456789abc";
     p_Username := "user@example.com"; p_RoleARN := ""; p_Region := ""; p_Output := "";
     p_SessionDuration := 0 |}.

End Sample.

(** ** A page whose error text has a semicolon

    The first reference platform with one more page: a page of no known
    kind whose configuration object reports a server error, the text of
    the error with a semicolon in it. *)

Module Semi.

Definition config : string :=
  "{" +:+ Ref.member "sErrorCode" "50126" +:+ "," +:+
          Ref.member "sErrTxt" "Invalid username or password; try again" +:+ "}".
Definition page : string := Ref.script_page config.
Definition conv : ConvergedResponse :=
  {| URLGetCredentialType := ""; ArrUserProofs := []; URLSkipMfaRegistration := "";
     OPerAuthPollingInterval := ∅; URLBeginAuth := ""; URLEndAuth := ""; URLPost := "";
     SErrorCode := "50126"; SErrTxt := "Invalid username or password; try again";
     SPOSTUsername := ""; SFT := ""; SFTName := ""; SCtx := ""; Hpgact := 0; Hpgid := 0;
     Pgid := ""; APICanary := ""; Canary := ""; CorrelationID := ""; SessionID := "" |}.

Definition html_table : list (string * Node) :=
  (page, Ref.script_doc config) :: Ref.html_table.

Definition config_table : list (string * ConvergedResponse) :=
  (config, conv) :: Ref.config_table.

Definition platform : Platform :=
  {| NewDocumentFromReader html :=
       ok (default (Ref.document [] []) (Ref.table_lookup html_table html));
     Unmarshal_ConvergedResponse := Ref.decode config_table;
     Decode_GetCredentialTypeResponse := Ref.decode Ref.credential_table;
     Decode_MFAResponse := Ref.decode Ref.mfa_table;
     URL := string;
     url_Parse s :=
       if HasPrefix s ":" then fail (LibError "missing protocol scheme") else ok s;
     ResolveReference base ref :=
       if HasPrefix ref "/" then Ref.origin base +:+ ref else ref;
     URL_String u := u;
     TrimSpace := Ref.trim;
     GOOS := "linux";
     GOARCH := "amd64";
     Jar := list string;
     float64_out_of_range _ := - 2 ^ 63 |}.

#[local] Existing Instance platform.

Definition response (url body : string) : Response :=
  {| Request_URL := url; Body := ok body |}.

Definition session (answers : list Exchange) (lines : list (result string)) : World :=
  {| trace := []; server := answers; stdin := lines; followRedirect := true; jar := [] |}.

End Semi.

(** * Properties *)

Section Properties.
Context {P : Platform}.

(** ** The classifier *)

Lemma marker_classify (body : string) : marker (classify body) body = true.
Proof.
  unfold classify, priority; simpl.
  repeat match goal with
         | |- context [if ?b then _ else _] => destruct b eqn:?; simpl; auto
         end.
Qed.

Lemma classify_first (body : string) (s : PageState) :
  marker s body = true -> (rank (classify body) <= rank s)%nat.
Proof.
  unfold classify, priority; simpl.
  intros Hs.
  repeat match goal with
         | |- context [if ?b then _ else _] => destruct b eqn:?; simpl
         end;
    destruct s; simpl in *; try lia; congruence.
Qed.

Lemma switch_handler (fuel : nat) (res : Response) (body : string)
    (creds : LoginCredentials) :
  switch fuel res body creds = handler (classify body) fuel res body creds.
Proof.
  unfold switch, classify, priority; simpl.
  repeat match goal with
         | |- context [if Contains ?b ?m then _ else _] =>
             destruct (Contains b m) eqn:?; simpl; auto
         end.
  destruct (isHiddenForm body) eqn:?; simpl; auto.
  destruct (String.eqb (getSAMLAssertion body) ""); reflexivity.
Qed.

(** C1.  The switch of the main loop runs the handler of the state that
    the body classifies to; that state's marker is present in the body, and
    no state of higher precedence has its marker present: whatever other
    markers the body contains, the first one in the order ConvergedSignIn,
    ConvergedTFA, KmsiInterrupt, SAMLRequest, hidden form, fallback wins. *)
Theorem classifier_priority_order (fuel : nat) (res : Response) (body : string)
    (creds : LoginCredentials) :
  switch fuel res body creds = handler (classify body) fuel res body creds /\
  marker (classify body) body = true /\
  (forall s, marker s body = true -> (rank (classify body) <= rank s)%nat) /\
  (forall s, (rank s < rank (classify body))%nat -> marker s body = false).
Proof.
  split; [apply switch_handler|].
  split; [apply marker_classify|].
  split; [apply classify_first|].
  intros s Hlt. destruct (marker s body) eqn:Hm; [|reflexivity].
  apply classify_first in Hm. lia.
Qed.

(** ** Entering the flow *)

(** C10.  Called with a nil credentials pointer, an empty user name or an
    empty password, [Authenticate] returns an error and leaves the world
    as it found it: no request is in the trace and the redirect policy and
    the cookie jar are those of before. *)
Theorem Authenticate_rejects_missing_credentials (fuel : nat) (c : Client)
    (creds : option LoginCredentials) (w : World) :
  creds = None \/
  (exists cr, creds = Some cr /\ (Username cr = "" \/ Password cr = "")) ->
  exists msg, Authenticate fuel c creds w = Some (fail (Errorf msg []), w).
Proof.
  intros [-> | (cr & -> & H)]; unfold Authenticate, run, throw.
  - eauto.
  - destruct (String.eqb (Username cr) "") eqn:Hu; [eauto|].
    destruct H as [H | H].
    + rewrite H in Hu. discriminate.
    + rewrite H. simpl. eauto.
Qed.

(** With the three checks passed [Authenticate] is [authenticate], which
    fetches the start page and enters the main loop with it. *)
Lemma Authenticate_enters_loop (fuel : nat) (c : Client) (cr : LoginCredentials)
    (w w' : World) (res : Response) :
  Username cr <> "" -> Password cr <> "" ->
  Get (startURL c) w = (ok res, w') ->
  Authenticate fuel c (Some cr) w = authenticate_loop fuel cr res w'.
Proof.
  intros Hu Hp Hget. unfold Authenticate.
  apply String.eqb_neq in Hu, Hp. rewrite Hu, Hp.
  unfold authenticate, wrap. rewrite Hget. reflexivity.
Qed.

(** ** The fallback and the terminal page *)

(** Use the absence of the marker of [s], given by [H], in the goal. *)
Ltac absent H s :=
  let Hs := fresh "Hs" in
  pose proof (H s) as Hs; simpl in Hs;
  rewrite Hs by (first [discriminate | lia]); clear Hs.

Lemma switch_fallback (fuel : nat) (res : Response) (body : string)
    (creds : LoginCredentials) :
  (forall s, s <> Fallback -> marker s body = false) ->
  switch fuel res body creds = run (default_case body).
Proof.
  intros H. unfold switch.
  absent H ConvergedSignIn. absent H ConvergedTFA. absent H KmsiInterrupt.
  absent H SAMLRequestRelay. absent H HiddenFormOrAssertion. reflexivity.
Qed.

(** C7, as the code has it.  On a body with none of the five markers the
    loop ends at once and the world is untouched (no request is sent):
    with the authentication error that carries the error code and its
    text when the body names [sErrorCode] and the configuration object
    that the client extracts from it decodes with a code that is neither
    empty nor 50058; with the "unknown authentication state" error in
    every other case, also when the client cannot extract or decode the
    object. *)
Theorem fallback_reports_server_error_or_unknown_state (fuel : nat)
    (creds : LoginCredentials) (res : Response) (body : string) (w : World) :
  Body res = ok body ->
  (forall s, s <> Fallback -> marker s body = false) ->
  (forall conv,
      Contains body "sErrorCode" = true ->
      unmarshalEmbeddedJSON body = ok conv ->
      SErrorCode conv <> "" -> SErrorCode conv <> "50058" ->
      authenticate_loop (S fuel) creds res w =
        Some (fail (Errorf "authentication error: %s - %s"
                      [ArgS (SErrorCode conv); ArgS (SErrTxt conv)]), w)) /\
  (Contains body "sErrorCode" = false \/
   (exists e, unmarshalEmbeddedJSON body = fail e) \/
   (exists conv, unmarshalEmbeddedJSON body = ok conv /\
                 (SErrorCode conv = "" \/ SErrorCode conv = "50058")) ->
   authenticate_loop (S fuel) creds res w = Some (fail unknown_state, w)).
Proof.
  intros Hbody Hnone.
  assert (Hloop : authenticate_loop (S fuel) creds res w =
                  match default_case body w with
                  | (fail e, w') => Some (fail e, w')
                  | (ok (Return a), w') => Some (ok a, w')
                  | (ok (Continue res'), w') => authenticate_loop fuel creds res' w'
                  end).
  { simpl. rewrite Hbody. rewrite switch_fallback by assumption. reflexivity. }
  rewrite Hloop. unfold default_case, throw. split.
  - intros conv Hc Hu Hne Hnb. rewrite Hc, Hu.
    apply String.eqb_neq in Hne, Hnb. rewrite Hne, Hnb. reflexivity.
  - intros [Hc | [(e & He) | (conv & Hu & Hcode)]].
    + rewrite Hc. reflexivity.
    + destruct (Contains body "sErrorCode"); [rewrite He|]; reflexivity.
    + destruct (Contains body "sErrorCode"); [rewrite Hu|]; [|reflexivity].
      destruct Hcode as [-> | ->]; reflexivity.
Qed.

Lemma isHiddenForm_SAMLResponse (body : string) (doc : Node) :
  NewDocumentFromReader body = ok doc ->
  Find sel_form [doc] <> [] ->
  Find sel_SAMLResponse [doc] <> [] ->
  isHiddenForm body = true.
Proof.
  intros Hdoc Hform Hsaml. unfold isHiddenForm, Length. rewrite Hdoc.
  destruct (Find sel_form [doc]); [congruence|].
  destruct (Find sel_SAMLResponse [doc]); [congruence|].
  simpl. apply orb_true_r.
Qed.

(** C2, as the code has it.  On a body without the four textual markers
    whose document has a form, when the first input named SAMLResponse of
    the document (in document order) has the non-empty value [V], the loop
    returns [V] with no error and the world is untouched: no further
    request is sent. *)
Theorem first_SAMLResponse_is_returned (fuel : nat) (creds : LoginCredentials)
    (res : Response) (body : string) (w : World) (doc n : Node) (others : list Node)
    (V : string) :
  Body res = ok body ->
  (forall s, (rank s < rank HiddenFormOrAssertion)%nat -> marker s body = false) ->
  NewDocumentFromReader body = ok doc ->
  Find sel_form [doc] <> [] ->
  Find sel_SAMLResponse [doc] = n :: others ->
  node_attr "value" n = (V, true) ->
  V <> "" ->
  isHiddenForm body = true /\
  authenticate_loop (S fuel) creds res w = Some (ok V, w).
Proof.
  intros Hbody Hnone Hdoc Hform Hsaml Hval HV.
  assert (Hh : isHiddenForm body = true).
  { eapply isHiddenForm_SAMLResponse; eauto. rewrite Hsaml. discriminate. }
  split; [exact Hh|].
  simpl. rewrite Hbody. unfold switch.
  absent Hnone ConvergedSignIn. absent Hnone ConvergedTFA. absent Hnone KmsiInterrupt.
  absent Hnone SAMLRequestRelay.
  rewrite Hh.
  assert (Ha : getSAMLAssertion body = V).
  { unfold getSAMLAssertion. rewrite Hdoc, Hsaml. simpl. rewrite Hval. reflexivity. }
  rewrite Ha. apply String.eqb_neq in HV. rewrite HV. reflexivity.
Qed.

(** ** What a request does to the world *)

Lemma Client_Do_world (req : Request) (w w' : World) (r : result Response) :
  Client_Do req w = (r, w') ->
  trace w' = trace w ++ [EvDo req (followRedirect w)] /\
  stdin w' = stdin w /\ followRedirect w' = followRedirect w /\
  ((server w = [] /\ server w' = [] /\ exists e, r = fail e) \/
   (exists x, server w = x :: server w' /\ r = reply x)).
Proof.
  unfold Client_Do. destruct (server w) as [|x rest] eqn:Hs; intros [= <- <-]; simpl.
  - repeat split; auto. left. eauto.
  - repeat split; auto. right. eauto.
Qed.

Lemma steps_snoc (conv : ConvergedResponse) (tr : list Event) (e : Event) :
  steps conv (tr ++ [e]) = steps conv tr ++ option_list (step_of conv e).
Proof.
  unfold steps. rewrite omap_app. simpl. destruct (step_of conv e); reflexivity.
Qed.

Lemma requests_snoc (tr : list Event) (req : Request) (b : bool) :
  requests (tr ++ [EvDo req b]) = requests tr ++ [req].
Proof. unfold requests. rewrite omap_app. reflexivity. Qed.

(** ** The choice of the MFA method *)

Lemma select_default_found (d v : UserProof) (before after : list UserProof) :
  up_IsDefault v = true ->
  Forall (fun p => up_IsDefault p = false) before ->
  select_default d (before ++ v :: after) = v.
Proof.
  intros Hv Hb. induction Hb as [|b before Hb0 _ IH]; simpl.
  - rewrite Hv. reflexivity.
  - rewrite Hb0. exact IH.
Qed.

Lemma select_default_none (d : UserProof) (mfas : list UserProof) :
  Forall (fun p => up_IsDefault p = false) mfas ->
  select_default d mfas = d.
Proof.
  intros H. induction H as [|b l Hb _ IH]; simpl; [reflexivity|].
  rewrite Hb. exact IH.
Qed.

Lemma processMFABeginAuth_trace (first : UserProof) (rest : list UserProof)
    (conv : ConvergedResponse) (w : World) (u : URL) :
  url_Parse (URLBeginAuth conv) = ok u ->
  trace (snd (processMFABeginAuth (first :: rest) conv w)) =
    trace w ++ [EvDo (BeginAuth_call (select_default first (first :: rest)) conv)
                     (followRedirect w)].
Proof.
  intros Hu. unfold processMFABeginAuth, bind, wrap, lift, NewRequest, Do.
  rewrite Hu.
  match goal with
  | |- context [Client_Do ?r w] =>
      destruct (Client_Do r w) as [res w'] eqn:Hdo
  end.
  apply Client_Do_world in Hdo as (Htr & _).
  destruct res as [res|e]; simpl; [|exact Htr].
  destruct (decode_body Decode_MFAResponse res) as [m|e]; simpl; [|exact Htr].
  unfold throw, ret. destruct (negb (Success m)); exact Htr.
Qed.

(** C5.  The begin-challenge request names the method of the one proof
    that is flagged as default, wherever it stands in the list, and the
    method of the first proof when none is flagged. *)
Theorem BeginAuth_names_default_or_first (convergedResp : ConvergedResponse)
    (w : World) (u : URL) :
  url_Parse (URLBeginAuth convergedResp) = ok u ->
  (forall before v after,
      up_IsDefault v = true ->
      Forall (fun p => up_IsDefault p = false) (before ++ after) ->
      trace (snd (processMFABeginAuth (before ++ v :: after) convergedResp w)) =
        trace w ++ [EvDo (BeginAuth_call v convergedResp) (followRedirect w)]) /\
  (forall first rest,
      Forall (fun p => up_IsDefault p = false) (first :: rest) ->
      trace (snd (processMFABeginAuth (first :: rest) convergedResp w)) =
        trace w ++ [EvDo (BeginAuth_call first convergedResp) (followRedirect w)]).
Proof.
  intros Hu. split.
  - intros before v after Hv Hothers.
    apply Forall_app in Hothers as [Hb _].
    assert (Hsel : forall d, select_default d (before ++ v :: after) = v)
      by (intros d; apply select_default_found; assumption).
    destruct before as [|b before]; cbn [app] in *.
    + rewrite (processMFABeginAuth_trace _ _ _ _ u Hu). rewrite Hsel. reflexivity.
    + rewrite (processMFABeginAuth_trace _ _ _ _ u Hu). rewrite Hsel. reflexivity.
  - intros first rest Hnone.
    rewrite (processMFABeginAuth_trace _ _ _ _ u Hu).
    rewrite select_default_none by assumption. reflexivity.
Qed.

(** ** One end-challenge attempt *)

Lemma otp_data_world (conv : ConvergedResponse) (rq : MFARequest)
    (creds : LoginCredentials) (w w' : World) (r : result MFARequest) :
  otp_data rq creds w = (r, w') ->
  steps conv (trace w') = steps conv (trace w) /\ server w' = server w /\
  (forall rq', r = ok rq' -> rq_Method rq' = rq_Method rq).
Proof.
  unfold otp_data.
  destruct (_ || _).
  2: { intros [= <- <-]. repeat split; auto. intros ? [= <-]. reflexivity. }
  destruct (negb _).
  { intros [= <- <-]. repeat split; auto. intros ? [= <-]. reflexivity. }
  unfold PromptString, bind, wrap, Printf, ReadString, ret, log. simpl.
  destruct (stdin w) as [|[l|e] rest]; simpl.
  - intros [= <- <-]; simpl. rewrite !steps_snoc; simpl. rewrite !app_nil_r.
    repeat split; auto. discriminate.
  - destruct (String.eqb (TrimSpace l) ""); intros [= <- <-]; simpl;
      rewrite !steps_snoc; simpl; rewrite !app_nil_r;
      (repeat split; auto; intros ? [= <-]; reflexivity).
  - intros [= <- <-]; simpl. rewrite !steps_snoc; simpl. rewrite !app_nil_r.
    repeat split; auto. discriminate.
Qed.

Lemma push_hint_world (conv : ConvergedResponse) (rq : MFARequest) (i : Z)
    (m : MFAResponse) (w w' : World) (r : result unit) :
  push_hint rq i m w = (r, w') ->
  steps conv (trace w') = steps conv (trace w) /\ server w' = server w /\
  stdin w' = stdin w /\ exists u, r = ok u.
Proof.
  unfold push_hint, Printf, ret, log.
  destruct (_ && _); [destruct (Entropy m =? 0)|]; intros [= <- <-]; simpl;
    rewrite ?steps_snoc; simpl; rewrite ?app_nil_r; eauto.
Qed.

Lemma is_EndAuth_call (conv : ConvergedResponse) (rq : MFARequest) :
  rq_Method rq = "EndAuth" ->
  is_EndAuth conv
    (stamp (with_header {| Method := "POST"; req_URL := URLEndAuth conv;
                           req_Header := ∅; req_Body := MFABody rq |}
                        "Content-Type" "application/json")) = true.
Proof.
  intros H. unfold is_EndAuth; simpl. rewrite H, String.eqb_refl. reflexivity.
Qed.

Lemma processMFAEndAuth_ok (conv : ConvergedResponse) (rq : MFARequest)
    (w w' : World) (r : MFAResponse) :
  rq_Method rq = "EndAuth" ->
  processMFAEndAuth rq conv w = (ok r, w') ->
  steps conv (trace w') = steps conv (trace w) ++ [EndAuthCall] /\
  stdin w' = stdin w /\
  exists x, server w = x :: server w' /\ answers_with x r.
Proof.
  intros Hm. unfold processMFAEndAuth, bind, wrap, lift, NewRequest, Do.
  destruct (url_Parse (URLEndAuth conv)); [|discriminate].
  match goal with
  | |- context [Client_Do ?q w] => destruct (Client_Do q w) as [res w1] eqn:Hdo
  end.
  apply Client_Do_world in Hdo as (Htr & Hin & _ & Hsrv).
  destruct res as [res|e]; [|discriminate].
  destruct (decode_body Decode_MFAResponse res) as [m|e] eqn:Hdec; intros [= <- <-].
  split; [|split; [exact Hin|]].
  - rewrite Htr, steps_snoc. simpl. rewrite is_EndAuth_call by assumption. reflexivity.
  - destruct Hsrv as [(_ & _ & e & He) | (x & Hx & Hr)]; [discriminate|].
    exists x. split; [exact Hx|]. exists res. auto.
Qed.

(** An attempt that returns has made one end-challenge call and has not
    waited. *)
Lemma end_challenge_effects (i : Z) (m : MFAResponse) (conv : ConvergedResponse)
    (creds : LoginCredentials) (w w' : World) (r : MFAResponse) :
  end_challenge i m conv creds w = (ok r, w') ->
  steps conv (trace w') = steps conv (trace w) ++ [EndAuthCall] /\
  exists x, server w = x :: server w' /\ answers_with x r.
Proof.
  unfold end_challenge, bind.
  destruct (otp_data _ creds w) as [[rq|e] w1] eqn:Hotp; [|discriminate].
  apply (otp_data_world conv) in Hotp as (Hs1 & Hsrv1 & Hrq).
  specialize (Hrq rq eq_refl). simpl in Hrq.
  destruct (push_hint rq i m w1) as [[u|e] w2] eqn:Hpush; [|discriminate].
  apply (push_hint_world conv) in Hpush as (Hs2 & Hsrv2 & _).
  unfold wrap.
  destruct (processMFAEndAuth rq conv w2) as [[r'|e] w3] eqn:Hend; intros [= <- <-].
  apply processMFAEndAuth_ok in Hend as (Hs3 & _ & x & Hx & Hans); [|assumption].
  split.
  - rewrite Hs3, Hs2, Hs1. reflexivity.
  - exists x. split; [congruence|assumption].
Qed.

(** C6.  When an end-challenge call comes back with a non-zero error code
    the loop returns the error made of that code and message, whatever the
    flags of the answer say; the world is the one the call left: since the
    loop was entered there has been that one call and no wait.  When the
    call is the first of the loop, [processMFA] returns the same error. *)
Theorem MFA_error_code_stops_polling (fuel : nat) (i : Z) (m : MFAResponse)
    (conv : ConvergedResponse) (creds : LoginCredentials) (w w' : World)
    (r : MFAResponse) :
  end_challenge i m conv creds w = (ok r, w') ->
  ErrCode r <> 0 ->
  poll (S fuel) i m conv creds w =
    Some (fail (Errorf "MFA error %d: %v" [ArgD (ErrCode r); ArgV (Message r)]), w') /\
  steps conv (trace w') = steps conv (trace w) ++ [EndAuthCall] /\
  (forall mfas w0,
      i = 0 -> mfas <> [] ->
      processMFABeginAuth mfas conv w0 = (ok m, w) ->
      processMFA (S fuel) mfas conv creds w0 =
        Some (fail (Errorf "MFA error %d: %v" [ArgD (ErrCode r); ArgV (Message r)]), w')).
Proof.
  intros Hend Herr.
  assert (Hpoll : poll (S fuel) i m conv creds w =
    Some (fail (Errorf "MFA error %d: %v" [ArgD (ErrCode r); ArgV (Message r)]), w')).
  { simpl. rewrite Hend. apply Z.eqb_neq in Herr. rewrite Herr. reflexivity. }
  split; [exact Hpoll|]. split; [apply (end_challenge_effects _ _ _ _ _ _ _ Hend)|].
  intros mfas w0 -> Hne Hbegin. unfold processMFA.
  destruct mfas as [|m0 rest]; [congruence|].
  cbn [length Nat.eqb]. unfold wrap. rewrite Hbegin, Hpoll. reflexivity.
Qed.

(** ** The poll loop on retries followed by a success *)

Lemma otp_data_ok (creds : LoginCredentials) (m : MFAResponse) (w : World)
    (lines : list string) (rest_in : list (result string)) :
  stdin w = map ok lines ++ rest_in ->
  length lines = (if prompts creds m then 1 else 0)%nat ->
  exists rq w1, otp_data (EndAuth_request m) creds w = (ok rq, w1) /\
                rq_Method rq = "EndAuth" /\ server w1 = server w /\ stdin w1 = rest_in.
Proof.
  intros Hin Hlen. unfold otp_data, prompts in *. simpl.
  destruct (_ || _); simpl in Hlen.
  2: { destruct lines; [|discriminate]. exists (EndAuth_request m), w. auto. }
  destruct (String.eqb (MFAToken creds) ""); simpl in *.
  - destruct lines as [|l [|? ?]]; try discriminate. simpl in Hin.
    unfold PromptString, bind, wrap, Printf, ReadString, ret, log. simpl.
    rewrite Hin.
    destruct (String.eqb (TrimSpace l) ""); eexists _, _; simpl; eauto.
  - destruct lines; [|discriminate]. eexists _, w. unfold ret. simpl. eauto.
Qed.

Lemma processMFAEndAuth_answer (conv : ConvergedResponse) (rq : MFARequest)
    (w : World) (u : URL) (x : Exchange) (srv : list Exchange) (r : MFAResponse) :
  url_Parse (URLEndAuth conv) = ok u ->
  server w = x :: srv ->
  answers_with x r ->
  exists w', processMFAEndAuth rq conv w = (ok r, w') /\ server w' = srv /\
             stdin w' = stdin w.
Proof.
  intros Hu Hsrv (res & Hres & Hdec).
  unfold processMFAEndAuth, bind, wrap, lift, NewRequest, Do, Client_Do.
  rewrite Hu, Hsrv, Hres, Hdec. eexists. simpl. eauto.
Qed.

Lemma end_challenge_answer (i : Z) (m : MFAResponse) (conv : ConvergedResponse)
    (creds : LoginCredentials) (w : World) (u : URL) (x : Exchange)
    (srv : list Exchange) (r : MFAResponse) (lines : list string)
    (rest_in : list (result string)) :
  url_Parse (URLEndAuth conv) = ok u ->
  server w = x :: srv ->
  answers_with x r ->
  stdin w = map ok lines ++ rest_in ->
  length lines = (if prompts creds m then 1 else 0)%nat ->
  exists w', end_challenge i m conv creds w = (ok r, w') /\ server w' = srv /\
             stdin w' = rest_in.
Proof.
  intros Hu Hsrv Hans Hin Hlen.
  destruct (otp_data_ok creds m w lines rest_in Hin Hlen) as (rq & w1 & Hotp & _ & Hs1 & Hi1).
  unfold end_challenge, bind. rewrite Hotp.
  destruct (push_hint rq i m w1) as [r2 w2] eqn:Hpush.
  apply (push_hint_world conv) in Hpush as (_ & Hs2 & Hi2 & tt & ->).
  destruct (processMFAEndAuth_answer conv rq w2 u x srv r Hu) as (w3 & Hend & Hs3 & Hi3);
    [congruence|assumption|].
  unfold wrap. rewrite Hend. exists w3. repeat split; congruence.
Qed.

Lemma codes_needed_cons (creds : LoginCredentials) (m : MFAResponse)
    (ms : list MFAResponse) :
  codes_needed creds (m :: ms) =
    ((if prompts creds m then 1 else 0) + codes_needed creds ms)%nat.
Proof. unfold codes_needed. simpl. destruct (prompts creds m); reflexivity. Qed.

(** The poll loop on [n] retryable answers followed by a successful one:
    it returns the successful answer after [n + 1] end-challenge calls with
    a wait after each of the first [n], the wait that [polling_wait] gives
    for the answer just received.  The server's answers and the codes typed
    by the user are consumed exactly. *)
Lemma poll_retries_then_success (conv : ConvergedResponse) (creds : LoginCredentials)
    (u : URL) (final : MFAResponse) (x : Exchange) (srv : list Exchange)
    (rest_in : list (result string)) :
  url_Parse (URLEndAuth conv) = ok u ->
  successful final ->
  answers_with x final ->
  forall (rs : list MFAResponse) (xs : list Exchange) (fuel : nat) (i : Z)
         (m : MFAResponse) (w : World) (lines : list string),
    Forall retryable rs ->
    Forall2 answers_with xs rs ->
    server w = xs ++ x :: srv ->
    stdin w = map ok lines ++ rest_in ->
    length lines = codes_needed creds (m :: rs) ->
    (length rs < fuel)%nat ->
    exists w',
      poll fuel i m conv creds w = Some (ok final, w') /\
      steps conv (trace w') =
        steps conv (trace w) ++
        flat_map (fun r => [EndAuthCall; Wait (polling_wait conv r)]) rs ++ [EndAuthCall] /\
      server w' = srv /\ stdin w' = rest_in.
Proof.
  intros Hu (Hsucc & Herr) Hx.
  induction rs as [|r rs IH]; intros xs fuel i m w lines Hrs Hxs Hsrv Hin Hlen Hfuel.
  - apply Forall2_nil_inv_r in Hxs as ->. simpl in Hsrv.
    rewrite codes_needed_cons in Hlen. unfold codes_needed in Hlen. simpl in Hlen.
    rewrite Nat.add_0_r in Hlen.
    destruct (end_challenge_answer i m conv creds w u x srv final lines rest_in)
      as (w' & Hend & Hs & Hi); auto.
    destruct fuel as [|fuel]; [simpl in Hfuel; lia|].
    exists w'. simpl. rewrite Hend, Herr, Hsucc. simpl.
    apply end_challenge_effects in Hend as (Hst & _). auto.
  - apply Forall2_cons_inv_r in Hxs as (x0 & xs' & Hx0 & Hxs' & ->).
    apply Forall_cons in Hrs as ((Hretry & Hnosucc & Hnoerr) & Hrs).
    rewrite codes_needed_cons in Hlen.
    set (k := (if prompts creds m then 1 else 0)%nat) in *.
    assert (Hsplit : lines = take k lines ++ drop k lines) by (symmetry; apply take_drop).
    assert (Hk : length (take k lines) = k) by (rewrite length_take; lia).
    rewrite Hsplit, map_app, <- app_assoc in Hin.
    simpl in Hsrv.
    destruct (end_challenge_answer i m conv creds w u x0 (xs' ++ x :: srv) r
                (take k lines) (map ok (drop k lines) ++ rest_in))
      as (w1 & Hend & Hs1 & Hi1); auto.
    destruct fuel as [|fuel]; [simpl in Hfuel; lia|].
    simpl in Hfuel.
    destruct (IH xs' fuel (int64 (i + 1)) r (log (EvSleep (polling_wait conv r)) w1)
                (drop k lines)) as (w' & Hpoll & Hst & Hs & Hi); auto.
    { rewrite length_drop. lia. }
    { lia. }
    exists w'. simpl. rewrite Hend, Hnoerr, Hnosucc, Hretry. simpl.
    unfold Sleep in *. rewrite Hpoll.
    apply end_challenge_effects in Hend as (Hst1 & _).
    repeat split; auto.
    rewrite Hst. unfold log; simpl. rewrite steps_snoc, Hst1. simpl.
    rewrite <- !app_assoc. reflexivity.
Qed.

(** A successful end of the loop is handed to the completion step. *)
Lemma processMFA_completes (fuel : nat) (mfas : list UserProof)
    (conv : ConvergedResponse) (creds : LoginCredentials) (w0 w w' : World)
    (m final : MFAResponse) :
  mfas <> [] ->
  processMFABeginAuth mfas conv w0 = (ok m, w) ->
  poll fuel 0 m conv creds w = Some (ok final, w') ->
  Success final = true ->
  processMFA fuel mfas conv creds w0 = Some (processMFAAuth final conv w').
Proof.
  intros Hne Hbegin Hpoll Hsucc. unfold processMFA.
  destruct mfas; [congruence|]. cbn [length Nat.eqb].
  unfold wrap. rewrite Hbegin, Hpoll, Hsucc. reflexivity.
Qed.

(** ** Forms: extraction and relay *)

Lemma add_input_named_pair (values : Values) (s : Node) :
  add_input values s =
    match named_pair s with
    | Some (n, v) => Values_Set values n v
    | None => values
    end.
Proof.
  unfold add_input, named_pair, Attr.
  destruct (node_attr "name" s) as [name nameExists].
  destruct (node_attr "value" s) as [value valueExists]. simpl.
  destruct (nameExists && negb (String.eqb name "")); reflexivity.
Qed.

Lemma fold_add_input_lookup (inputs : list Node) (values : Values) (n : string) :
  fold_left add_input inputs values !! n =
    match assoc_last n (omap named_pair inputs) with
    | Some v => Some [v]
    | None => values !! n
    end.
Proof.
  revert values. induction inputs as [|s inputs IH]; intros values; [reflexivity|].
  cbn [fold_left]. rewrite IH, add_input_named_pair.
  change (omap named_pair (s :: inputs))
    with (match named_pair s with
          | Some p => p :: omap named_pair inputs
          | None => omap named_pair inputs
          end).
  destruct (named_pair s) as [[k v]|]; [|reflexivity].
  cbn [assoc_last].
  destruct (assoc_last n (omap named_pair inputs)); [reflexivity|].
  unfold Values_Set. rewrite lookup_insert.
  destruct (String.eqb_spec k n) as [->|Hne].
  - rewrite decide_True by reflexivity. reflexivity.
  - rewrite decide_False by assumption. reflexivity.
Qed.

Lemma assoc_last_elem (n v : string) (ps : list (string * string)) :
  assoc_last n ps = Some v -> (n, v) ∈ ps.
Proof.
  induction ps as [|[k x] ps IH]; simpl; [discriminate|].
  destruct (assoc_last n ps) as [v'|].
  - intros [= ->]. right. auto.
  - destruct (String.eqb_spec k n) as [->|]; [|discriminate].
    intros [= ->]. left.
Qed.

Lemma assoc_last_is_Some (n v : string) (ps : list (string * string)) :
  (n, v) ∈ ps -> is_Some (assoc_last n ps).
Proof.
  induction ps as [|[k x] ps IH]; simpl; intros H.
  - inversion H.
  - destruct (assoc_last n ps) as [v'|]; [eauto|].
    apply elem_of_cons in H as [[= <- <-] | H].
    + rewrite String.eqb_refl. eauto.
    + apply IH in H. destruct H; discriminate.
Qed.

Lemma assoc_last_NoDup (n v : string) (ps : list (string * string)) :
  NoDup ps.*1 -> (n, v) ∈ ps -> assoc_last n ps = Some v.
Proof.
  induction ps as [|[k x] ps IH]; simpl; intros Hnd H.
  - inversion H.
  - apply NoDup_cons in Hnd as [Hk Hnd].
    apply elem_of_cons in H as [[= <- <-] | H].
    + destruct (assoc_last n ps) as [v'|] eqn:E.
      * apply assoc_last_elem in E. exfalso. apply Hk.
        apply list_elem_of_fmap. exists (n, v'). auto.
      * rewrite String.eqb_refl. reflexivity.
    + rewrite (IH Hnd H). reflexivity.
Qed.

Lemma elem_of_pairs (values : Values) (n v : string) :
  (n, v) ∈ pairs values <-> exists vs, values !! n = Some vs /\ v ∈ vs.
Proof.
  unfold pairs. rewrite list_elem_of_bind. split.
  - intros ([k vs] & Hin & Hkv). simpl in Hin.
    apply list_elem_of_fmap in Hin as (x & [= -> ->] & Hx).
    apply elem_of_map_to_list in Hkv. eauto.
  - intros (vs & Hl & Hv). exists (n, vs). split.
    + simpl. apply list_elem_of_fmap. eauto.
    + apply elem_of_map_to_list. exact Hl.
Qed.

Lemma parseFormData_ok (body : string) (values : Values) (action : string) :
  parseFormData body = ok (values, action) ->
  exists doc form others,
    NewDocumentFromReader body = ok doc /\
    Find sel_form [doc] = form :: others /\
    values = fold_left add_input (Find sel_input [form]) ∅ /\
    action = fst (node_attr "action" form).
Proof.
  unfold parseFormData.
  destruct (NewDocumentFromReader body) as [doc|e]; [|discriminate].
  destruct (Find sel_form [doc]) as [|form others] eqn:Hf; simpl; [discriminate|].
  destruct (node_attr "action" form) as [a b] eqn:Ha.
  intros [= <- <-]. exists doc, form, others. rewrite Ha. auto.
Qed.

(** C9, as the code has it.  The relay handler posts the values that the
    form parser extracted, unchanged.  Those are, for every name borne by
    an input of the first form, the value of the last input of that name,
    the empty value included; every pair posted is a pair of the form, and
    every name of the form is posted.  When no two inputs share a name the
    pairs posted are exactly the pairs of the form. *)
Theorem relay_posts_last_value_of_each_name (body : string) (values : Values)
    (action : string) :
  parseFormData body = ok (values, action) ->
  exists doc form others,
    NewDocumentFromReader body = ok doc /\
    Find sel_form [doc] = form :: others /\
    (forall n v, (n, v) ∈ pairs values <-> assoc_last n (fields form) = Some v) /\
    (forall p, p ∈ pairs values -> p ∈ fields form) /\
    (forall n v, (n, v) ∈ fields form -> exists v', (n, v') ∈ pairs values) /\
    (NoDup (fields form).*1 -> forall p, p ∈ pairs values <-> p ∈ fields form) /\
    (forall w u, action <> "" -> url_Parse action = ok u ->
       requests (trace (snd (reProcessForm body w))) =
         requests (trace w) ++ [relay_call action values]).
Proof.
  intros Hparse.
  destruct (parseFormData_ok _ _ _ Hparse) as (doc & form & others & Hdoc & Hform & Hv & Ha).
  exists doc, form, others. split; [exact Hdoc|]. split; [exact Hform|].
  assert (Hlast : forall n v, (n, v) ∈ pairs values <-> assoc_last n (fields form) = Some v).
  { intros n v. rewrite elem_of_pairs. subst values. unfold fields.
    setoid_rewrite fold_add_input_lookup. rewrite lookup_empty.
    destruct (assoc_last n (omap named_pair (Find sel_input [form]))) as [v'|]; split.
    - intros (vs & [= <-] & Hin). apply list_elem_of_singleton in Hin. congruence.
    - intros [= ->]. exists [v]. split; [reflexivity|]. apply list_elem_of_singleton. reflexivity.
    - intros (vs & Hn & _). discriminate.
    - discriminate. }
  split; [exact Hlast|]. split; [|split; [|split]].
  - intros [n v] Hp. apply Hlast in Hp. apply assoc_last_elem. exact Hp.
  - intros n v Hin. apply assoc_last_is_Some in Hin as [v' Hv'].
    exists v'. apply Hlast. exact Hv'.
  - intros Hnd [n v]. rewrite Hlast. split.
    + apply assoc_last_elem.
    + apply assoc_last_NoDup. exact Hnd.
  - intros w u Hne Hu. unfold reProcessForm, bind, wrap, lift. rewrite Hparse.
    apply String.eqb_neq in Hne. rewrite Hne.
    unfold NewRequest. rewrite Hu. unfold Do.
    match goal with
    | |- context [Client_Do ?q w] => destruct (Client_Do q w) as [r w1] eqn:Hdo
    end.
    apply Client_Do_world in Hdo as (Htr & _). simpl.
    rewrite Htr, requests_snoc. reflexivity.
Qed.

(** ** The federated path *)

Lemma federation_form_not_password_form (formValues : Values)
    (creds creds' : LoginCredentials) (conv : ConvergedResponse) :
  federation_form formValues creds <> password_form creds' conv.
Proof.
  intros H.
  assert (Hu : federation_form formValues creds !! "UserName" = Some [Username creds]).
  { unfold federation_form, Values_Set.
    rewrite !lookup_insert_ne by discriminate. apply lookup_insert_eq. }
  assert (Hp : federation_form formValues creds !! "Password" = Some [Password creds]).
  { unfold federation_form, Values_Set.
    rewrite lookup_insert_ne by discriminate. apply lookup_insert_eq. }
  rewrite H in Hu, Hp. unfold password_form, Values_Set in Hu, Hp.
  rewrite !(lookup_insert_ne _ "passwd"), !(lookup_insert_ne _ "loginfmt"),
    !(lookup_insert_ne _ "login"), !(lookup_insert_ne _ "ctx") in Hu, Hp by discriminate.
  rewrite lookup_insert in Hu, Hp.
  destruct (decide (SFTName conv = "UserName")) as [Heq|_].
  - rewrite Heq in Hp. rewrite decide_False in Hp by discriminate.
    rewrite !lookup_insert_ne in Hp by discriminate. discriminate.
  - rewrite !lookup_insert_ne in Hu by discriminate. discriminate.
Qed.

Lemma processFederatedAuth_requests (federationURL : string) (creds : LoginCredentials)
    (w w' : World) (r : result Response) :
  processFederatedAuth federationURL creds w = (r, w') ->
  exists new, requests (trace w') = requests (trace w) ++ new /\
              Forall (is_federation_request federationURL creds) new.
Proof.
  unfold processFederatedAuth, Get, bind, wrap, lift, NewRequest, Do, throw.
  destruct (url_Parse federationURL).
  2: { intros [= <- <-]. exists []. rewrite app_nil_r. auto. }
  match goal with
  | |- context [Client_Do ?q w] =>
      set (get := q); destruct (Client_Do get w) as [res w1] eqn:Hget
  end.
  apply Client_Do_world in Hget as (Htr1 & _).
  assert (Hget : is_federation_request federationURL creds get) by (left; auto).
  assert (H1 : requests (trace w1) = requests (trace w) ++ [get])
    by (rewrite Htr1; apply requests_snoc).
  assert (Hstop : forall r0, (r0, w1) = (r, w') ->
            exists new, requests (trace w') = requests (trace w) ++ new /\
                        Forall (is_federation_request federationURL creds) new).
  { intros r0 [= <- <-]. exists [get]. auto. }
  destruct res as [res|e]; [|apply Hstop].
  destruct (Body res) as [resBodyStr|e]; [|apply Hstop].
  destruct (parseFormData resBodyStr) as [[formValues formSubmitURL]|e]; [|apply Hstop].
  destruct (String.eqb formSubmitURL ""); [apply Hstop|].
  destruct (url_Parse (fullURL res formSubmitURL)); [|apply Hstop].
  match goal with
  | |- context [Client_Do ?q w1] =>
      set (post := q); destruct (Client_Do post w1) as [res2 w2] eqn:Hpost
  end.
  apply Client_Do_world in Hpost as (Htr2 & _).
  intros [= <- <-]. exists [get; post]. split.
  - rewrite Htr2, requests_snoc, H1, <- app_assoc. reflexivity.
  - apply Forall_cons. split; [exact Hget|].
    apply Forall_cons. split; [|apply Forall_nil_2].
    right. split; [reflexivity|]. exists formValues. reflexivity.
Qed.

Lemma requestGetCredentialType_requests (refererURL : string) (creds : LoginCredentials)
    (conv : ConvergedResponse) (w w' : World) (ct : GetCredentialTypeResponse) :
  requestGetCredentialType refererURL creds conv w = (ok ct, w') ->
  exists req b, requests (trace w') = requests (trace w) ++ [req] /\
                req_URL req = URLGetCredentialType conv /\
                req_Body req = CredentialTypeBody b.
Proof.
  unfold requestGetCredentialType, bind, wrap, lift, NewRequest, Do.
  destruct (url_Parse (URLGetCredentialType conv)); [|discriminate].
  match goal with
  | |- context [Client_Do ?q w] => destruct (Client_Do q w) as [res w1] eqn:Hdo
  end.
  apply Client_Do_world in Hdo as (Htr & _).
  destruct res as [res|e]; [|discriminate].
  destruct (decode_body Decode_GetCredentialTypeResponse res); intros [= <- <-].
  eexists _, _. rewrite Htr, requests_snoc. split; [reflexivity|]. split; reflexivity.
Qed.

(** C8.  When the credential-type query of a ConvergedSignIn page comes
    back with a non-empty federation redirect address, the handler is the
    Federated-Auth handler run on that address.  After the credential-type
    query the handler sends only the requests of that path (the fetch of
    the address, the post of the federation form), and none of the
    requests of the handler carries the direct password-entry form. *)
Theorem federation_redirect_takes_federated_path (res : Response) (body : string)
    (creds : LoginCredentials) (w w1 : World) (conv : ConvergedResponse)
    (ct : GetCredentialTypeResponse) :
  unmarshalEmbeddedJSON body = ok conv ->
  requestGetCredentialType (URL_String (Request_URL res)) creds conv w = (ok ct, w1) ->
  FederationRedirectURL (gc_Credentials ct) <> "" ->
  processConvergedSignIn res body creds w =
    processFederatedAuth (FederationRedirectURL (gc_Credentials ct)) creds w1 /\
  exists query new,
    requests (trace (snd (processConvergedSignIn res body creds w))) =
      requests (trace w) ++ query :: new /\
    req_URL query = URLGetCredentialType conv /\
    Forall (is_federation_request (FederationRedirectURL (gc_Credentials ct)) creds) new /\
    Forall (fun req => ~ is_password_post creds conv req) (query :: new).
Proof.
  intros Hconv Hquery Hfed.
  assert (Heq : processConvergedSignIn res body creds w =
                processFederatedAuth (FederationRedirectURL (gc_Credentials ct)) creds w1).
  { unfold processConvergedSignIn, bind, wrap, lift. rewrite Hconv.
    fold (@wrap P GetCredentialTypeResponse). unfold wrap. rewrite Hquery.
    apply String.eqb_neq in Hfed. rewrite Hfed. reflexivity. }
  split; [exact Heq|]. rewrite Heq.
  destruct (processFederatedAuth _ creds w1) as [r w'] eqn:Hrun.
  apply processFederatedAuth_requests in Hrun as (new & Hnew & Hall).
  apply requestGetCredentialType_requests in Hquery as (query & b & Hq & Hurl & Hb).
  exists query, new. simpl. split; [|split; [exact Hurl|split; [exact Hall|]]].
  - rewrite Hnew, Hq, <- app_assoc. reflexivity.
  - constructor.
    + unfold is_password_post. rewrite Hb. discriminate.
    + eapply Forall_impl; [exact Hall|]. intros req [(_ & _ & Hn) | (_ & fv & Hf)];
        unfold is_password_post.
      * rewrite Hn. discriminate.
      * rewrite Hf. intros [= Habs]. eapply federation_form_not_password_form; eauto.
Qed.

(** ** The ends of the main loop *)

Lemma handle_outcome (format : string) (m : Mo Response) (w w' : World)
    (o : result outcome) :
  handle format m w = Some (o, w') ->
  (exists e, o = fail (Wrapf format e)) \/ (exists res, o = ok (Continue res)).
Proof.
  unfold handle. destruct (m w) as [[[res|e] w1]|]; intros [= <- <-]; eauto.
Qed.

Lemma default_case_outcome (body : string) (w w' : World) (o : result outcome) :
  default_case body w = (o, w') ->
  exists e, o = fail e /\ explicit_exit (fail e).
Proof.
  unfold default_case, throw.
  destruct (Contains body "sErrorCode").
  2: { intros [= <- <-]. eexists. split; [reflexivity|constructor]. }
  destruct (unmarshalEmbeddedJSON body) as [conv|e].
  2: { intros [= <- <-]. eexists. split; [reflexivity|constructor]. }
  destruct (_ && _); intros [= <- <-]; eexists; (split; [reflexivity|constructor]).
Qed.

(** What a turn of the switch can end with. *)
Lemma switch_outcome (fuel : nat) (res : Response) (body : string)
    (creds : LoginCredentials) (w w' : World) (o : result outcome) :
  switch fuel res body creds w = Some (o, w') ->
  match o with
  | fail e => explicit_exit (fail e)
  | ok (Return a) =>
      a <> "" /\ classify body = HiddenFormOrAssertion /\ getSAMLAssertion body = a
  | ok (Continue _) => True
  end.
Proof.
  rewrite switch_handler.
  destruct (classify body) eqn:Hc; simpl;
    try (intros H; apply handle_outcome in H as [(e & ->) | (r & ->)];
         [constructor|exact I]).
  - destruct (String.eqb_spec (getSAMLAssertion body) "") as [Heq|Hne].
    + intros H; apply handle_outcome in H as [(e & ->) | (r & ->)]; [constructor|exact I].
    + unfold run, ret. intros [= <- <-]. auto.
  - unfold run. intros [= H]. apply default_case_outcome in H as (e & -> & He). exact He.
Qed.

End Properties.

(** * The properties on the sample pages *)

Section Examples.
#[local] Existing Instance Ref.platform.

(** A body with the markers of three states goes to the handler of the
    first of them in the order of precedence. *)
Example classify_mixed_page : classify Ref.mixed_page = ConvergedSignIn.
Proof. vm_compute. reflexivity. Qed.

Lemma Authenticate_rejects_missing_credentials_witness :
  exists msg,
    Authenticate 0 Ref.client None (Ref.session [Ref.answer Ref.start Ref.signin_page] []) =
      Some (fail (Errorf msg []), Ref.session [Ref.answer Ref.start Ref.signin_page] []).
Proof.
  apply (Authenticate_rejects_missing_credentials 0 Ref.client None).
  left. reflexivity.
Defined.

Lemma fallback_reports_server_error_or_unknown_state_witness :
  authenticate_loop 1 Ref.creds (Ref.response Ref.start Ref.error_page) (Ref.session [] []) =
    Some (fail (Errorf "authentication error: %s - %s"
                  [ArgS "50126"; ArgS "Invalid username or password"]),
          Ref.session [] []) /\
  authenticate_loop 1 Ref.creds (Ref.response Ref.start Ref.unknown_page) (Ref.session [] []) =
    Some (fail unknown_state, Ref.session [] []).
Proof.
  split.
  - apply (proj1 (fallback_reports_server_error_or_unknown_state 0 Ref.creds
                    (Ref.response Ref.start Ref.error_page) Ref.error_page
                    (Ref.session [] []) eq_refl
                    ltac:(intros s Hs; destruct s; try congruence; vm_compute; reflexivity))
             Ref.error_conv);
      vm_compute; congruence.
  - apply (proj2 (fallback_reports_server_error_or_unknown_state 0 Ref.creds
                    (Ref.response Ref.start Ref.unknown_page) Ref.unknown_page
                    (Ref.session [] []) eq_refl
                    ltac:(intros s Hs; destruct s; try congruence; vm_compute; reflexivity))).
    left. vm_compute. reflexivity.
Defined.

Lemma first_SAMLResponse_is_returned_witness :
  isHiddenForm Ref.assertion_page = true /\
  authenticate_loop 1 Ref.creds (Ref.response Ref.aws Ref.assertion_page) (Ref.session [] []) =
    Some (ok Ref.assertion, Ref.session [] []).
Proof.
  apply (first_SAMLResponse_is_returned 0 Ref.creds
           (Ref.response Ref.aws Ref.assertion_page) Ref.assertion_page (Ref.session [] [])
           Ref.assertion_doc (Ref.input_ "hidden" "SAMLResponse" Ref.assertion) []
           Ref.assertion).
  - reflexivity.
  - intros s Hs; destruct s; simpl in Hs; try lia; vm_compute; reflexivity.
  - vm_compute. reflexivity.
  - vm_compute. discriminate.
  - vm_compute. reflexivity.
  - vm_compute. reflexivity.
  - vm_compute. discriminate.
Defined.

(** C2 as stated fails.  This page has none of the four textual markers
    and is a hidden form; its form has one input named SAMLResponse, with
    a non-empty value.  An empty input of that name stands before the
    form, and it is the one the client reads: the loop does not return the
    value, it posts the form and goes on with the answer. *)
Lemma shadowed_SAMLResponse_is_not_returned :
  isHiddenForm Ref.shadowed_page = true /\
  classify Ref.shadowed_page = HiddenFormOrAssertion /\
  NewDocumentFromReader Ref.shadowed_page = ok Ref.shadowed_doc /\
  (exists form inp,
      Find sel_form [Ref.shadowed_doc] = [form] /\
      Find sel_SAMLResponse [form] = [inp] /\
      node_attr "value" inp = (Ref.assertion, true) /\ Ref.assertion <> "") /\
  getSAMLAssertion Ref.shadowed_page = "" /\
  exists w',
    authenticate_loop 2 Ref.creds (Ref.response Ref.aws Ref.shadowed_page)
      (Ref.session [Ref.answer Ref.aws Ref.unknown_page] []) =
      Some (fail unknown_state, w') /\
    map req_URL (requests (trace w')) = [Ref.aws].
Proof.
  split; [vm_compute; reflexivity|].
  split; [vm_compute; reflexivity|].
  split; [vm_compute; reflexivity|].
  split.
  - eexists _, _.
    split; [vm_compute; reflexivity|].
    split; [vm_compute; reflexivity|].
    split; [vm_compute; reflexivity|vm_compute; discriminate].
  - split; [vm_compute; reflexivity|].
    eexists. split; [vm_compute; reflexivity|]. vm_compute. reflexivity.
Qed.

(** C3 as stated fails.  The handler of the sign-in page sends the
    password form and returns the server's answer; here the server answers
    with the sign-in page, which classifies to the state just handled. *)
Lemma state_is_revisited_when_server_repeats_page :
  classify Ref.signin_page = ConvergedSignIn /\
  exists res' w',
    switch 0 (Ref.response Ref.start Ref.signin_page) Ref.signin_page Ref.creds
      Ref.signin_again = Some (ok (Continue res'), w') /\
    length (requests (trace w')) = 2%nat /\
    Body res' = ok Ref.signin_page /\
    authenticate_loop 1 Ref.creds (Ref.response Ref.start Ref.signin_page)
      Ref.signin_again = authenticate_loop 0 Ref.creds res' w'.
Proof.
  split; [vm_compute; reflexivity|].
  eexists _, _. split; [vm_compute; reflexivity|].
  split; [vm_compute; reflexivity|].
  split; [reflexivity|]. vm_compute. reflexivity.
Qed.

(** The MFA page that lists no proof and no skip address is handed back
    as it came; the loop classifies it again and never ends. *)
Lemma bare_tfa_page_is_handed_back (fuel : nat) (w : World) :
  processConvergedTFA fuel (Ref.response Ref.start Ref.bare_tfa_page) Ref.bare_tfa_page
    Ref.creds w = Some (ok (Ref.response Ref.start Ref.bare_tfa_page), w) /\
  authenticate_loop fuel Ref.creds (Ref.response Ref.start Ref.bare_tfa_page) w = None.
Proof.
  assert (Hturn : forall f, processConvergedTFA f (Ref.response Ref.start Ref.bare_tfa_page)
                    Ref.bare_tfa_page Ref.creds w =
                  Some (ok (Ref.response Ref.start Ref.bare_tfa_page), w)).
  { intros f. unfold processConvergedTFA.
    replace (unmarshalEmbeddedJSON Ref.bare_tfa_page) with (ok Ref.bare_tfa_conv)
      by (vm_compute; reflexivity).
    reflexivity. }
  split; [apply Hturn|].
  induction fuel as [|fuel IH]; [reflexivity|].
  cbn [authenticate_loop]. cbn [Body Ref.response].
  unfold switch.
  replace (Contains Ref.bare_tfa_page "ConvergedSignIn") with false by (vm_compute; reflexivity).
  replace (Contains Ref.bare_tfa_page "ConvergedTFA") with true by (vm_compute; reflexivity).
  change (buffered (Ref.response Ref.start Ref.bare_tfa_page) Ref.bare_tfa_page)
    with (Ref.response Ref.start Ref.bare_tfa_page).
  unfold handle. rewrite Hturn. exact IH.
Qed.

(** C4 on an advertised interval with a fraction.  The page advertises a
    polling interval of a second and a half for the method; the server
    answers the first poll with a retry and the second with a success.  The
    loop makes the two calls and returns the success, and between them it
    waits one second: [time.Duration(interval)] drops the fraction before
    the multiplication by [time.Second]. *)
Theorem polling_interval_loses_its_fraction :
  OPerAuthPollingInterval Ref.tfa_conv !! AuthMethodID Ref.retry_resp = Some (3 # 2)%Q /\
  exists w',
    poll 2 0 Ref.begin_resp Ref.tfa_conv Ref.creds Ref.approving =
      Some (ok Ref.success_resp, w') /\
    steps Ref.tfa_conv (trace w') = [EndAuthCall; Wait (1 * Second); EndAuthCall] /\
    sleeps (trace w') = [1000000000].
Proof.
  split; [vm_compute; reflexivity|].
  eexists. split; [vm_compute; reflexivity|].
  split; vm_compute; reflexivity.
Qed.

(** The general statement on the same run. *)
Example poll_retries_then_success_example :
  exists w',
    poll 2 0 Ref.begin_resp Ref.tfa_conv Ref.creds Ref.approving =
      Some (ok Ref.success_resp, w') /\
    steps Ref.tfa_conv (trace w') =
      [EndAuthCall; Wait (polling_wait Ref.tfa_conv Ref.retry_resp); EndAuthCall].
Proof.
  destruct (poll_retries_then_success (P := Ref.platform) Ref.tfa_conv Ref.creds (Ref.login +:+ "/EndAuth")
              Ref.success_resp (Ref.answer (Ref.login +:+ "/EndAuth") Ref.success_body)
              [] [] eq_refl (conj eq_refl eq_refl)
              ltac:(eexists; split; [reflexivity|vm_compute; reflexivity])
              [Ref.retry_resp] [Ref.answer (Ref.login +:+ "/EndAuth") Ref.retry_body]
              2%nat 0 Ref.begin_resp Ref.approving [])
    as (w' & Hpoll & Hsteps & _).
  - repeat constructor.
  - repeat constructor. eexists; split; [reflexivity|vm_compute; reflexivity].
  - reflexivity.
  - reflexivity.
  - vm_compute. reflexivity.
  - simpl. lia.
  - exists w'. split; [exact Hpoll|]. rewrite Hsteps. reflexivity.
Qed.

Lemma BeginAuth_names_default_or_first_witness :
  trace (snd (processMFABeginAuth [Ref.sms; Ref.push] Ref.tfa_conv
                (Ref.session [Ref.answer (Ref.login +:+ "/BeginAuth") Ref.begin_body] []))) =
    [EvDo (BeginAuth_call Ref.push Ref.tfa_conv) true].
Proof.
  apply (proj1 (BeginAuth_names_default_or_first (P := Ref.platform) Ref.tfa_conv
                  (Ref.session [Ref.answer (Ref.login +:+ "/BeginAuth") Ref.begin_body] [])
                  (Ref.login +:+ "/BeginAuth") eq_refl)
           [Ref.sms] Ref.push []).
  - reflexivity.
  - repeat constructor.
Defined.

Lemma MFA_error_code_stops_polling_witness :
  poll 1 0 Ref.begin_resp Ref.tfa_conv Ref.creds Ref.denying =
    Some (fail (Errorf "MFA error %d: %v"
                  [ArgD 500121; ArgV (JString "Authentication failed")]),
          snd (end_challenge 0 Ref.begin_resp Ref.tfa_conv Ref.creds Ref.denying)) /\
  steps Ref.tfa_conv
    (trace (snd (end_challenge 0 Ref.begin_resp Ref.tfa_conv Ref.creds Ref.denying))) =
    [EndAuthCall].
Proof.
  destruct (MFA_error_code_stops_polling 0 0 Ref.begin_resp Ref.tfa_conv Ref.creds
              Ref.denying
              (snd (end_challenge 0 Ref.begin_resp Ref.tfa_conv Ref.creds Ref.denying))
              Ref.denied_resp)
    as (Hpoll & Hsteps & _).
  - vm_compute. reflexivity.
  - vm_compute. discriminate.
  - split; [exact Hpoll|exact Hsteps].
Defined.

Lemma federation_redirect_takes_federated_path_witness :
  processConvergedSignIn (Ref.response Ref.start Ref.signin_page) Ref.signin_page
    Ref.creds Ref.federated =
    processFederatedAuth Ref.adfs Ref.creds
      (snd (requestGetCredentialType Ref.start Ref.creds Ref.signin_conv Ref.federated)) /\
  map req_URL (requests (trace (snd (processConvergedSignIn
                                       (Ref.response Ref.start Ref.signin_page)
                                       Ref.signin_page Ref.creds Ref.federated)))) =
    [Ref.login +:+ "/GetCredentialType"; Ref.adfs; Ref.adfs].
Proof.
  split.
  - apply (proj1 (federation_redirect_takes_federated_path
                    (Ref.response Ref.start Ref.signin_page) Ref.signin_page Ref.creds
                    Ref.federated
                    (snd (requestGetCredentialType Ref.start Ref.creds Ref.signin_conv
                            Ref.federated))
                    Ref.signin_conv (Ref.credentials_of Ref.adfs)
                    ltac:(vm_compute; reflexivity) ltac:(vm_compute; reflexivity)
                    ltac:(vm_compute; discriminate))).
  - vm_compute. reflexivity.
Defined.

Lemma relay_posts_last_value_of_each_name_witness :
  parseFormData Ref.relay_page = ok (Ref.relay_values, Ref.acs) /\
  ("RelayState", "") ∈ pairs Ref.relay_values /\
  requests (trace (snd (reProcessForm Ref.relay_page (Ref.session [] [])))) =
    [relay_call Ref.acs Ref.relay_values].
Proof.
  assert (Hparse : parseFormData Ref.relay_page = ok (Ref.relay_values, Ref.acs))
    by (vm_compute; reflexivity).
  split; [exact Hparse|].
  destruct (relay_posts_last_value_of_each_name Ref.relay_page Ref.relay_values Ref.acs
              Hparse)
    as (doc & form & others & Hdoc & Hform & Hlast & _ & _ & _ & Hrelay).
  injection Hdoc as <-.
  injection Hform as <- _.
  split.
  - apply Hlast. vm_compute. reflexivity.
  - apply (Hrelay (Ref.session [] []) Ref.acs).
    + vm_compute. discriminate.
    + vm_compute. reflexivity.
Defined.

(** C9 as stated fails.  The form of this page has two inputs named
    scope; the pair of the first is a pair of the form and is not among
    the pairs that the relay handler posts. *)
Lemma repeated_name_keeps_last_value_only :
  parseFormData Ref.repeated_page = ok (Ref.repeated_values, Ref.acs) /\
  NewDocumentFromReader Ref.repeated_page = ok Ref.repeated_doc /\
  Find sel_form [Ref.repeated_doc] = [Ref.repeated_form] /\
  fields Ref.repeated_form = [("scope", "read"); ("scope", "write")] /\
  pairs Ref.repeated_values = [("scope", "write")] /\
  requests (trace (snd (reProcessForm Ref.repeated_page (Ref.session [] [])))) =
    [relay_call Ref.acs Ref.repeated_values] /\
  ("scope", "read") ∈ fields Ref.repeated_form /\
  ("scope", "read") ∉ pairs Ref.repeated_values.
Proof.
  assert (Hp : pairs Ref.repeated_values = [("scope", "write")]) by (vm_compute; reflexivity).
  repeat (split; [vm_compute; reflexivity|]).
  split; [vm_compute; left|].
  rewrite Hp. intros H. apply list_elem_of_singleton in H. discriminate.
Qed.

End Examples.

(** * Further properties of the flow *)

Section Discipline_facts.
Context {P : Platform}.
Variable creds : LoginCredentials.

Lemma run_of_refl (w : World) : run_of creds w w.
Proof.
  split; [auto|]. split; [auto|]. split; [exists []; reflexivity|].
  exists []. rewrite app_nil_r. auto.
Qed.

Lemma event_ok_weaken (b b' : bool) (e : Event) :
  (b = true -> b' = true) -> event_ok creds b' e -> event_ok creds b e.
Proof.
  intros Hb. destruct e; simpl; auto.
  intros [Hid Hf]. split; [exact Hid|]. intros Hfalse.
  destruct (Hf Hfalse) as [Hd | Hb']; [left; exact Hd|right].
  destruct b; [|reflexivity]. rewrite Hb in Hb' by reflexivity. discriminate.
Qed.

Lemma run_of_trans (w1 w2 w3 : World) :
  run_of creds w1 w2 -> run_of creds w2 w3 -> run_of creds w1 w3.
Proof.
  intros (Hf1 & Hi1 & (u1 & Hu1) & new1 & Ht1 & Hn1)
         (Hf2 & Hi2 & (u2 & Hu2) & new2 & Ht2 & Hn2).
  split; [auto|]. split; [intros H; rewrite Hi2, Hi1; auto|].
  split; [exists (u1 ++ u2); rewrite Hu1, Hu2, app_assoc; reflexivity|].
  exists (new1 ++ new2). split; [rewrite Ht2, Ht1, app_assoc; reflexivity|].
  apply Forall_app. split; [exact Hn1|].
  eapply Forall_impl; [exact Hn2|]. intros e. apply event_ok_weaken. exact Hf1.
Qed.

Lemma safe_ret {A} (a : A) : safe creds (ret a).
Proof. intros w r w' [= <- <-]. apply run_of_refl. Qed.

Lemma safe_throw {A} (e : error) : safe creds (throw (A := A) e).
Proof. intros w r w' [= <- <-]. apply run_of_refl. Qed.

Lemma safe_lift {A} (x : result A) : safe creds (lift x).
Proof. intros w r w' [= <- <-]. apply run_of_refl. Qed.

Lemma safe_bind {A B} (m : M A) (k : A -> M B) :
  safe creds m -> (forall a, safe creds (k a)) -> safe creds (bind m k).
Proof.
  intros Hm Hk w r w'. unfold bind.
  destruct (m w) as [[a|e] w1] eqn:E.
  - intros H. eapply run_of_trans; [eapply Hm; eauto|eapply Hk; eauto].
  - intros [= <- <-]. eapply Hm; eauto.
Qed.

Lemma safe_wrap {A} (format : string) (m : M A) : safe creds m -> safe creds (wrap format m).
Proof.
  intros Hm w r w'. unfold wrap.
  destruct (m w) as [[a|e] w1] eqn:E; intros [= <- <-]; eapply Hm; eauto.
Qed.

Lemma safe_attempt {A} (m : M A) : safe creds m -> safe creds (attempt m).
Proof.
  intros Hm w r w'. unfold attempt.
  destruct (m w) as [x w1] eqn:E. intros [= <- <-]. eapply Hm; eauto.
Qed.

Lemma stamp_identity (req : Request) :
  req_Header (stamp req) !! "User-Agent" = Some identity.
Proof. unfold stamp, with_header, Header_Set; simpl. apply lookup_insert_eq. Qed.

Lemma safe_Do (req : Request) : safe creds (Do req).
Proof.
  intros w r w' H. unfold Do in H.
  apply Client_Do_world in H as (Htr & Hin & Hf & Hsrv).
  split; [congruence|]. split; [auto|]. split.
  { destruct Hsrv as [(-> & -> & _) | (x & -> & _)]; [exists []|exists [x]]; reflexivity. }
  eexists. split; [exact Htr|].
  apply Forall_singleton. simpl. split; [apply stamp_identity|]. auto.
Qed.

Lemma safe_Get (url : string) : safe creds (Get url).
Proof. unfold Get. apply safe_bind; [apply safe_lift|intros; apply safe_Do]. Qed.

Lemma safe_log (e : Event) (w : World) :
  event_ok creds (followRedirect w) e ->
  (MFAToken creds <> "" -> stdin (log e w) = stdin w) ->
  run_of creds w (log e w).
Proof.
  intros He Hin. split; [auto|]. split; [exact Hin|]. split; [exists []; reflexivity|].
  exists [e]. split; [reflexivity|]. apply Forall_singleton. exact He.
Qed.

Lemma safe_Printf (format : string) (args : list fmt_arg) : safe creds (Printf format args).
Proof. intros w r w' [= <- <-]. apply safe_log; simpl; auto. Qed.

Lemma safe_Sleep (d : Z) : safe creds (Sleep d).
Proof. intros w r w' [= <- <-]. apply safe_log; simpl; auto. Qed.

Lemma safe_ReadString : MFAToken creds = "" -> safe creds ReadString.
Proof.
  intros Htok w r w'. unfold ReadString.
  destruct (stdin w) as [|l rest] eqn:Hin; intros [= <- <-].
  - apply safe_log; simpl; auto.
  - split; [auto|]. split; [congruence|]. split; [exists []; reflexivity|].
    exists [EvReadLine]. split; [reflexivity|]. apply Forall_singleton. exact Htok.
Qed.

Lemma safe_PromptString (prompt defaultValue : string) :
  MFAToken creds = "" -> safe creds (PromptString prompt defaultValue).
Proof.
  intros Htok. unfold PromptString.
  apply safe_bind; [destruct (negb _); apply safe_Printf|intros _].
  apply safe_bind; [apply safe_wrap, safe_ReadString, Htok|intros input].
  destruct (String.eqb _ _); apply safe_ret.
Qed.

End Discipline_facts.

Section Discipline_handlers.
Context {P : Platform}.
Variable creds : LoginCredentials.

(** Take a computation apart along its binds and branches. *)
Ltac safe_steps :=
  repeat first
    [ apply safe_ret | apply safe_throw | apply safe_lift | apply safe_Do
    | apply safe_Get | apply safe_Printf | apply safe_Sleep
    | apply safe_wrap
    | apply safe_bind; [|intros ?]
    | match goal with
      | |- safe _ (if ?b then _ else _) => destruct b
      | |- safe _ (let (_, _) := ?p in _) => destruct p
      end ].

Lemma safe_requestGetCredentialType (refererURL : string) (conv : ConvergedResponse) :
  safe creds (requestGetCredentialType refererURL creds conv).
Proof. unfold requestGetCredentialType. safe_steps. Qed.

Lemma safe_processAuthentication (loginURL refererURL : string) (conv : ConvergedResponse) :
  safe creds (processAuthentication loginURL refererURL creds conv).
Proof. unfold processAuthentication. safe_steps. Qed.

Lemma safe_processFederatedAuth (federationURL : string) :
  safe creds (processFederatedAuth federationURL creds).
Proof. unfold processFederatedAuth. safe_steps. Qed.

Lemma safe_processConvergedSignIn (res : Response) (body : string) :
  safe creds (processConvergedSignIn res body creds).
Proof.
  unfold processConvergedSignIn. safe_steps;
    first [ apply safe_requestGetCredentialType | apply safe_processFederatedAuth
          | apply safe_processAuthentication ].
Qed.

Lemma safe_processSAMLRequest (res : Response) (body : string) :
  safe creds (processSAMLRequest res body).
Proof. unfold processSAMLRequest. safe_steps. Qed.

Lemma safe_reProcessForm (body : string) : safe creds (reProcessForm body).
Proof. unfold reProcessForm. safe_steps. Qed.

(** The request with redirects off, between the two switches of the policy. *)
Lemma safe_unfollowed (req : Request) (format : string) :
  declines req ->
  safe creds (bind DisableFollowRedirect (fun _ =>
              bind (attempt (Do req)) (fun newRes =>
              bind EnableFollowRedirect (fun _ => wrap format (lift newRes))))).
Proof.
  intros (v & Hbody & Hv) w r w'.
  unfold bind, DisableFollowRedirect, EnableFollowRedirect, set_followRedirect, attempt,
    Do, wrap, lift. simpl.
  match goal with
  | |- context [Client_Do ?q ?w0] => destruct (Client_Do q w0) as [x w1] eqn:Hdo
  end.
  apply Client_Do_world in Hdo as (Htr & Hin & _ & Hsrv). simpl in *.
  intros H.
  assert (Hw : w' = {| trace := trace w1; server := server w1; stdin := stdin w1;
                       followRedirect := true; jar := jar w1 |})
    by (destruct x; injection H as _ <-; reflexivity).
  subst w'. simpl.
  split; [auto|]. split; [auto|]. split.
  { destruct Hsrv as [(-> & -> & _) | (y & -> & _)]; [exists []|exists [y]]; reflexivity. }
  eexists. split; [exact Htr|]. apply Forall_singleton. simpl.
  split; [apply stamp_identity|]. intros _. left. exists v. auto.
Qed.

Lemma safe_bind_pure {A B} (x : result A) (format : string) (k : A -> M B) :
  (forall a, x = ok a -> safe creds (k a)) ->
  safe creds (bind (wrap format (lift x)) k).
Proof.
  intros Hk w r w'. unfold bind, wrap, lift. destruct x as [a|e].
  - apply Hk. reflexivity.
  - intros [= <- <-]. apply run_of_refl.
Qed.

Lemma safe_processKmsiInterrupt (res : Response) (body : string) :
  safe creds (processKmsiInterrupt res body).
Proof.
  unfold processKmsiInterrupt.
  apply safe_bind; [safe_steps|intros conv].
  apply safe_bind_pure. intros req Hreq.
  apply safe_unfollowed.
  unfold NewRequest in Hreq. destruct (url_Parse _); [|discriminate].
  injection Hreq as <-. eexists. split; [reflexivity|].
  unfold Values_Set. apply lookup_insert_eq.
Qed.

End Discipline_handlers.

Section Discipline_flow.
Context {P : Platform}.
Variable creds : LoginCredentials.

Ltac safe_steps :=
  repeat first
    [ apply safe_ret | apply safe_throw | apply safe_lift | apply safe_Do
    | apply safe_Get | apply safe_Printf | apply safe_Sleep
    | apply safe_wrap
    | apply safe_bind; [|intros ?]
    | match goal with
      | |- safe _ (if ?b then _ else _) => destruct b
      | |- safe _ (let (_, _) := ?p in _) => destruct p
      end ].

Lemma safe_processMFABeginAuth (mfas : list UserProof) (conv : ConvergedResponse) :
  safe creds (processMFABeginAuth mfas conv).
Proof. unfold processMFABeginAuth. destruct mfas; safe_steps. Qed.

Lemma safe_processMFAEndAuth (rq : MFARequest) (conv : ConvergedResponse) :
  safe creds (processMFAEndAuth rq conv).
Proof. unfold processMFAEndAuth. safe_steps. Qed.

Lemma safe_processMFAAuth (m : MFAResponse) (conv : ConvergedResponse) :
  safe creds (processMFAAuth m conv).
Proof. unfold processMFAAuth. safe_steps. Qed.

Lemma safe_otp_data (rq : MFARequest) : safe creds (otp_data rq creds).
Proof.
  unfold otp_data. destruct (_ || _); [|apply safe_ret].
  destruct (String.eqb_spec (MFAToken creds) "") as [Htok|_]; simpl; [|apply safe_ret].
  apply safe_bind; [|intros; apply safe_ret].
  apply safe_wrap, safe_PromptString, Htok.
Qed.

Lemma safe_push_hint (rq : MFARequest) (i : Z) (m : MFAResponse) :
  safe creds (push_hint rq i m).
Proof. unfold push_hint. safe_steps. Qed.

Lemma safe_end_challenge (i : Z) (m : MFAResponse) (conv : ConvergedResponse) :
  safe creds (end_challenge i m conv creds).
Proof.
  unfold end_challenge.
  apply safe_bind; [apply safe_otp_data|intros rq].
  apply safe_bind; [apply safe_push_hint|intros _].
  apply safe_wrap, safe_processMFAEndAuth.
Qed.

Lemma safe_poll (conv : ConvergedResponse) (fuel : nat) :
  forall i m, safe_loop creds (poll fuel i m conv creds).
Proof.
  induction fuel as [|fuel IH]; intros i m w r w'; simpl; [discriminate|].
  destruct (end_challenge i m conv creds w) as [[m1|e] w1] eqn:Hend;
    apply safe_end_challenge in Hend.
  2: { intros [= <- <-]. exact Hend. }
  destruct (negb (ErrCode m1 =? 0)); [intros [= <- <-]; exact Hend|].
  destruct (Success m1); [intros [= <- <-]; exact Hend|].
  destruct (negb (Retry m1)); [intros [= <- <-]; exact Hend|].
  intros H. apply IH in H.
  eapply run_of_trans; [exact Hend|].
  eapply run_of_trans; [|exact H].
  eapply safe_Sleep. reflexivity.
Qed.

Lemma safe_processMFA (fuel : nat) (mfas : list UserProof) (conv : ConvergedResponse) :
  safe_loop creds (processMFA fuel mfas conv creds).
Proof.
  intros w r w'. unfold processMFA.
  destruct (length mfas =? 0)%nat; [intros [= <- <-]; apply run_of_refl|].
  destruct (wrap _ (processMFABeginAuth mfas conv) w) as [[m|e] w1] eqn:Hbegin;
    apply (safe_wrap creds _ _ (safe_processMFABeginAuth mfas conv)) in Hbegin.
  2: { intros [= <- <-]. exact Hbegin. }
  destruct (poll fuel 0 m conv creds w1) as [[[m2|e] w2]|] eqn:Hpoll; [| |discriminate];
    apply safe_poll in Hpoll.
  - destruct (negb (Success m2)).
    + intros [= <- <-]. eapply run_of_trans; eauto.
    + intros [= H]. apply safe_processMFAAuth in H.
      eapply run_of_trans; [exact Hbegin|]. eapply run_of_trans; eauto.
  - intros [= <- <-]. eapply run_of_trans; eauto.
Qed.

Lemma safe_processConvergedTFA (fuel : nat) (res : Response) (body : string) :
  safe_loop creds (processConvergedTFA fuel res body creds).
Proof.
  intros w r w'. unfold processConvergedTFA.
  destruct (unmarshalEmbeddedJSON body) as [conv|e]; [|intros [= <- <-]; apply run_of_refl].
  destruct (negb _).
  { intros [= H]. eapply safe_Get; eauto. }
  destruct (0 <? _)%nat.
  - apply safe_processMFA.
  - intros [= <- <-]. apply run_of_refl.
Qed.

Lemma safe_handle (format : string) (m : Mo Response) :
  safe_loop creds m -> safe_loop creds (handle format m).
Proof.
  intros Hm w r w'. unfold handle.
  destruct (m w) as [[[res|e] w1]|] eqn:E; [| |discriminate];
    intros [= <- <-]; eapply Hm; eauto.
Qed.

Lemma safe_run {A} (m : M A) : safe creds m -> safe_loop creds (run m).
Proof. intros Hm w r w' [= H]. eapply Hm; eauto. Qed.

Lemma safe_default_case (body : string) : safe creds (default_case body).
Proof.
  unfold default_case. destruct (Contains _ _); [|apply safe_throw].
  destruct (unmarshalEmbeddedJSON body); [|apply safe_throw].
  destruct (_ && _); apply safe_throw.
Qed.

Lemma safe_switch (fuel : nat) (res : Response) (body : string) :
  safe_loop creds (switch fuel res body creds).
Proof.
  unfold switch.
  repeat match goal with
         | |- safe_loop _ (if ?b then _ else _) => destruct b
         end;
    first [ apply safe_handle | idtac ];
    first [ apply safe_processConvergedTFA
          | apply safe_run;
            first [ apply safe_processConvergedSignIn | apply safe_processKmsiInterrupt
                  | apply safe_processSAMLRequest | apply safe_reProcessForm
                  | apply safe_ret | apply safe_default_case ] ].
Qed.

Lemma safe_authenticate_loop (fuel : nat) :
  forall res, safe_loop creds (authenticate_loop fuel creds res).
Proof.
  induction fuel as [|fuel IH]; intros res w r w'; simpl; [discriminate|].
  destruct (Body res) as [body|e]; [|intros [= <- <-]; apply run_of_refl].
  destruct (switch fuel (buffered res body) body creds w) as [[[o|e] w1]|] eqn:Hsw;
    [| |discriminate]; apply safe_switch in Hsw.
  - destruct o as [a|res1]; [intros [= <- <-]; exact Hsw|].
    intros H. apply IH in H. eapply run_of_trans; eauto.
  - intros [= <- <-]. exact Hsw.
Qed.

(** Every run of [Authenticate] keeps the discipline. *)
Lemma Authenticate_run_of (fuel : nat) (c : Client) (w w' : World) (r : result string) :
  Authenticate fuel c (Some creds) w = Some (r, w') -> run_of creds w w'.
Proof.
  unfold Authenticate, run, throw.
  destruct (String.eqb (Username creds) ""); [intros [= <- <-]; apply run_of_refl|].
  destruct (String.eqb (Password creds) ""); [intros [= <- <-]; apply run_of_refl|].
  unfold authenticate.
  destruct (wrap _ (Get (startURL c)) w) as [[res|e] w1] eqn:Hget;
    apply (safe_wrap creds _ _ (safe_Get creds _)) in Hget.
  - intros H. apply safe_authenticate_loop in H. eapply run_of_trans; eauto.
  - intros [= <- <-]. exact Hget.
Qed.

End Discipline_flow.

Section Progress_facts.
Context {P : Platform}.
Variable creds : LoginCredentials.

Lemma answers_Do (req : Request) : answers_it (Do req).
Proof.
  intros w res w' H. unfold Do in H.
  apply Client_Do_world in H as (_ & _ & _ & [(_ & _ & e & He) | (x & Hx & Hr)]);
    [discriminate|].
  exists [], x. auto.
Qed.

Lemma answers_throw (e : error) : answers_it (throw e).
Proof. intros w res w'. discriminate. Qed.

Lemma answers_wrap (format : string) (m : M Response) :
  answers_it m -> answers_it (wrap format m).
Proof.
  intros Hm w res w'. unfold wrap.
  destruct (m w) as [[a|e] w1] eqn:E; intros [= <- <-]. eapply Hm; eauto.
Qed.

Lemma answers_bind {A} (m : M A) (k : A -> M Response) :
  safe creds m -> (forall a, answers_it (k a)) -> answers_it (bind m k).
Proof.
  intros Hm Hk w res w'. unfold bind.
  destruct (m w) as [[a|e] w1] eqn:E; [|discriminate].
  intros H. apply Hm in E as (_ & _ & (u1 & Hu1) & _).
  apply Hk in H as (u2 & x & Hu2 & Hx).
  exists (u1 ++ u2), x. rewrite Hu1, Hu2, <- app_assoc. auto.
Qed.

Lemma answers_Get (url : string) : answers_it (Get url).
Proof.
  unfold Get. apply answers_bind; [apply safe_lift|intros; apply answers_Do].
Qed.

(** Take a handler apart down to the request that gives its result. *)
Ltac answers_steps :=
  repeat first
    [ apply answers_Do | apply answers_Get | apply answers_throw | apply answers_wrap
    | apply answers_bind;
      [ repeat first [ apply safe_lift | apply safe_wrap | apply safe_ret ] | intros ? ]
    | match goal with
      | |- answers_it (if ?b then _ else _) => destruct b
      | |- answers_it (let (_, _) := ?p in _) => destruct p
      end ].

Lemma answers_processAuthentication (loginURL refererURL : string)
    (conv : ConvergedResponse) :
  answers_it (processAuthentication loginURL refererURL creds conv).
Proof. unfold processAuthentication. answers_steps. Qed.

Lemma answers_processFederatedAuth (federationURL : string) :
  answers_it (processFederatedAuth federationURL creds).
Proof.
  unfold processFederatedAuth.
  apply answers_bind; [apply safe_wrap, safe_Get|intros res].
  answers_steps.
Qed.

Lemma answers_processConvergedSignIn (res : Response) (body : string) :
  answers_it (processConvergedSignIn res body creds).
Proof.
  unfold processConvergedSignIn.
  apply answers_bind; [apply safe_wrap, safe_lift|intros conv].
  apply answers_bind; [apply safe_wrap, safe_requestGetCredentialType|intros ct].
  destruct (negb _);
    [apply answers_processFederatedAuth|apply answers_processAuthentication].
Qed.

Lemma answers_processSAMLRequest (res : Response) (body : string) :
  answers_it (processSAMLRequest res body).
Proof. unfold processSAMLRequest. answers_steps. Qed.

Lemma answers_reProcessForm (body : string) : answers_it (reProcessForm body).
Proof. unfold reProcessForm. answers_steps. Qed.

Lemma answers_processMFAAuth (m : MFAResponse) (conv : ConvergedResponse) :
  answers_it (processMFAAuth m conv).
Proof. unfold processMFAAuth. answers_steps. Qed.

Lemma answers_processKmsiInterrupt (res : Response) (body : string) :
  answers_it (processKmsiInterrupt res body).
Proof.
  unfold processKmsiInterrupt.
  apply answers_bind; [apply safe_wrap, safe_lift|intros conv].
  apply answers_bind; [apply safe_wrap, safe_lift|intros req].
  intros w res' w'.
  unfold bind, DisableFollowRedirect, EnableFollowRedirect, set_followRedirect, attempt,
    Do, wrap, lift. simpl.
  match goal with
  | |- context [Client_Do ?q ?w0] => destruct (Client_Do q w0) as [x w1] eqn:Hdo
  end.
  apply Client_Do_world in Hdo as (_ & _ & _ & Hsrv). simpl in *.
  destruct x as [r|e]; intros [= <- <-]. simpl.
  destruct Hsrv as [(_ & _ & e & He) | (x & Hx & Hr)]; [discriminate|].
  exists [], x. auto.
Qed.

End Progress_facts.

Section Termination.
Context {P : Platform}.
Variable creds : LoginCredentials.

Lemma processMFABeginAuth_consumes (mfas : list UserProof) (conv : ConvergedResponse)
    (w w' : World) (m : MFAResponse) :
  processMFABeginAuth mfas conv w = (ok m, w') ->
  (length (server w') < length (server w))%nat.
Proof.
  unfold processMFABeginAuth. destruct mfas as [|m0 rest]; [discriminate|].
  unfold bind, wrap, lift, NewRequest, Do.
  destruct (url_Parse _); [|discriminate].
  match goal with
  | |- context [Client_Do ?q w] => destruct (Client_Do q w) as [res w1] eqn:Hdo
  end.
  apply Client_Do_world in Hdo as (_ & _ & _ & Hsrv).
  destruct res as [res|e]; [|discriminate].
  destruct (decode_body _ res); [|discriminate].
  unfold throw, ret. destruct (negb _); intros [= <- <-].
  destruct Hsrv as [(_ & _ & e & He) | (x & -> & _)]; [discriminate|]. simpl. lia.
Qed.

(** The poll loop ends when the server has fewer answers left than the
    loop has fuel: every iteration that goes on has taken one. *)
Lemma poll_terminates (conv : ConvergedResponse) (fuel : nat) :
  forall i m w,
    (length (server w) < fuel)%nat ->
    exists r w', poll fuel i m conv creds w = Some (r, w').
Proof.
  induction fuel as [|fuel IH]; intros i m w Hlen; [lia|]. simpl.
  destruct (end_challenge i m conv creds w) as [[m1|e] w1] eqn:Hend; [|eauto].
  destruct (negb (ErrCode m1 =? 0)); [eauto|].
  destruct (Success m1); [eauto|].
  destruct (negb (Retry m1)); [eauto|].
  apply end_challenge_effects in Hend as (_ & x & Hx & _).
  apply IH. simpl. rewrite Hx in Hlen. simpl in Hlen. lia.
Qed.

Lemma processMFA_terminates (fuel : nat) (mfas : list UserProof)
    (conv : ConvergedResponse) (w : World) :
  (length (server w) <= fuel)%nat ->
  exists r w', processMFA fuel mfas conv creds w = Some (r, w').
Proof.
  intros Hlen. unfold processMFA.
  destruct (length mfas =? 0)%nat; [eauto|].
  unfold wrap.
  destruct (processMFABeginAuth mfas conv w) as [[m|e] w1] eqn:Hbegin; [|eauto].
  apply processMFABeginAuth_consumes in Hbegin.
  destruct (poll_terminates conv fuel 0 m w1) as ([m2|e] & w2 & ->); [lia| |eauto].
  destruct (negb (Success m2)); [eauto|].
  destruct (processMFAAuth m2 conv w2); eauto.
Qed.

Lemma processMFA_answered (fuel : nat) (mfas : list UserProof)
    (conv : ConvergedResponse) (w w' : World) (res : Response) :
  processMFA fuel mfas conv creds w = Some (ok res, w') -> answered w res w'.
Proof.
  unfold processMFA.
  destruct (length mfas =? 0)%nat; [discriminate|].
  destruct (wrap _ (processMFABeginAuth mfas conv) w) as [[m|e] w1] eqn:Hbegin;
    [|discriminate].
  apply (safe_wrap creds _ _ (safe_processMFABeginAuth creds mfas conv)) in Hbegin
    as (_ & _ & (u1 & Hu1) & _).
  destruct (poll fuel 0 m conv creds w1) as [[[m2|e] w2]|] eqn:Hpoll; try discriminate.
  apply safe_poll in Hpoll as (_ & _ & (u2 & Hu2) & _).
  destruct (negb (Success m2)); [discriminate|].
  intros [= H]. apply answers_processMFAAuth in H as (u3 & x & Hu3 & Hx); [|exact creds].
  exists (u1 ++ u2 ++ u3), x. rewrite Hu1, Hu2, Hu3, <- !app_assoc. auto.
Qed.

Lemma Get_always_returns (url : string) (w : World) : exists r w', Get url w = (r, w').
Proof. destruct (Get url w); eauto. Qed.

(** A turn of the main loop that goes on goes on with an answer of
    the server that it has just taken, so it has sent at least one
    request; the one turn that goes on without is the MFA page with no
    skip address and no proof, which is handed back as it came, the world
    untouched. *)
Theorem turn_goes_on_with_an_answer (fuel : nat) (res res' : Response) (body : string)
    (w w' : World) :
  switch fuel res body creds w = Some (ok (Continue res'), w') ->
  answered w res' w' \/ (hands_back body /\ res' = res /\ w' = w).
Proof.
  unfold switch.
  assert (Hh : forall format (m : M Response),
             answers_it m ->
             handle format (run m) w = Some (ok (Continue res'), w') ->
             answered w res' w' \/ (hands_back body /\ res' = res /\ w' = w)).
  { intros format m Hm. unfold handle, run.
    destruct (m w) as [[r|e] w1] eqn:E; intros [= <- <-]. left. eapply Hm; eauto. }
  destruct (Contains body "ConvergedSignIn") eqn:H1;
    [apply Hh, answers_processConvergedSignIn|].
  destruct (Contains body "ConvergedTFA") eqn:H2.
  { unfold handle, processConvergedTFA.
    destruct (unmarshalEmbeddedJSON body) as [conv|e] eqn:Hconv; [|discriminate].
    destruct (String.eqb_spec (URLSkipMfaRegistration conv) "") as [Hskip|_]; simpl.
    2: { destruct (Get _ w) as [[r|e] w1] eqn:E; intros [= <- <-].
         left. eapply answers_Get; eauto. }
    destruct (ArrUserProofs conv) as [|m0 rest] eqn:Hproofs; simpl.
    - intros [= <- <-]. right. split; [|auto]. split; [exact H1|]. split; [exact H2|].
      exists conv. auto.
    - destruct (processMFA _ _ _ _ _) as [[[r|e] w1]|] eqn:E; intros [= <- <-].
      left. eapply processMFA_answered; eauto. }
  destruct (Contains body "KmsiInterrupt"); [apply Hh, answers_processKmsiInterrupt; exact creds|].
  destruct (Contains body "SAMLRequest"); [apply Hh, answers_processSAMLRequest; exact creds|].
  destruct (isHiddenForm body).
  - destruct (negb _); [discriminate|]. apply Hh, answers_reProcessForm. exact creds.
  - unfold run. intros [= H]. apply default_case_outcome in H as (e & He & _). discriminate.
Qed.

Lemma switch_terminates (fuel : nat) (res : Response) (body : string) (w : World) :
  (length (server w) <= fuel)%nat ->
  exists r w', switch fuel res body creds w = Some (r, w').
Proof.
  intros Hlen. unfold switch.
  assert (Hh : forall format (m : M Response),
             exists r w', handle format (run m) w = Some (r, w')).
  { intros format m. unfold handle, run. destruct (m w) as [[r|e] w1]; eauto. }
  destruct (Contains body "ConvergedSignIn"); [apply Hh|].
  destruct (Contains body "ConvergedTFA").
  { unfold handle, processConvergedTFA.
    destruct (unmarshalEmbeddedJSON body) as [conv|e]; [|eauto].
    destruct (negb _); [destruct (Get _ w) as [[r|e] w1]; eauto|].
    destruct (0 <? _)%nat; [|eauto].
    destruct (processMFA_terminates fuel (ArrUserProofs conv) conv w Hlen)
      as ([r|e] & w1 & ->); eauto. }
  destruct (Contains body "KmsiInterrupt"); [apply Hh|].
  destruct (Contains body "SAMLRequest"); [apply Hh|].
  destruct (isHiddenForm body); [|unfold run; destruct (default_case body w); eauto].
  destruct (negb _); [unfold run, ret; eauto|apply Hh].
Qed.

Lemma never_handed_back_answered (w w' : World) (res : Response) :
  never_handed_back (server w) -> answered w res w' ->
  never_handed_back (server w') /\
  (forall body, Body res = ok body -> ~ hands_back body) /\
  (length (server w') < length (server w))%nat.
Proof.
  intros Hall (used & x & Hsrv & Hx). unfold never_handed_back in *.
  rewrite Hsrv in Hall. apply Forall_app in Hall as (_ & Hall).
  apply Forall_cons in Hall as (Hhere & Hrest).
  split; [exact Hrest|]. split; [intros body; apply Hhere; exact Hx|].
  rewrite Hsrv, length_app. simpl. lia.
Qed.

(** X4.  The main loop ends whenever the server stops answering, unless
    it meets a page that is handed back: with more fuel than the server
    has answers left, and no such page among the response it starts from
    and the answers to come, the loop returns a result. *)
Theorem loop_ends_when_answers_run_out (fuel : nat) :
  forall (res : Response) (w : World),
    (length (server w) < fuel)%nat ->
    (forall body, Body res = ok body -> ~ hands_back body) ->
    never_handed_back (server w) ->
    exists r w', authenticate_loop fuel creds res w = Some (r, w').
Proof.
  induction fuel as [|fuel IH]; intros res w Hlen Hres Hall; [lia|]. simpl.
  destruct (Body res) as [body|e] eqn:Hbody; [|eauto].
  destruct (switch_terminates fuel (buffered res body) body w) as ([o|e] & w1 & Hsw);
    [lia| |rewrite Hsw; eauto].
  rewrite Hsw. destruct o as [a|res1]; [eauto|].
  apply turn_goes_on_with_an_answer in Hsw as [Hans | (Hback & _)].
  - destruct (never_handed_back_answered w w1 res1 Hall Hans) as (Hall1 & Hres1 & Hlt).
    apply IH; [lia|exact Hres1|exact Hall1].
  - exfalso. eapply Hres; eauto.
Qed.

(** X5.  On a page that is handed back the main loop never ends, whatever
    the fuel, and sends nothing. *)
Theorem handed_back_page_is_looped_on (fuel : nat) (res : Response) (body : string)
    (w : World) :
  Body res = ok body ->
  hands_back body ->
  switch fuel res body creds w = Some (ok (Continue res), w) /\
  authenticate_loop fuel creds res w = None.
Proof.
  intros Hbody (H1 & H2 & conv & Hconv & Hskip & Hproofs).
  assert (Hturn : forall f r, switch f r body creds w = Some (ok (Continue r), w)).
  { intros f r. unfold switch. rewrite H1, H2.
    unfold handle, processConvergedTFA. rewrite Hconv, Hskip, Hproofs. reflexivity. }
  split; [apply Hturn|].
  assert (Hres : buffered res body = res).
  { destruct res as [u b]. simpl in Hbody. subst b. reflexivity. }
  induction fuel as [|fuel IH]; [reflexivity|].
  simpl. rewrite Hbody, Hturn, Hres. exact IH.
Qed.

End Termination.

Section Whole_run.
Context {P : Platform}.

(** X1.  Every request that a run of [Authenticate] sends bears the
    client identity in its User-Agent header. *)
Theorem every_request_bears_the_identity (fuel : nat) (c : Client)
    (creds : LoginCredentials) (w w' : World) (r : result string) :
  Authenticate fuel c (Some creds) w = Some (r, w') ->
  exists new,
    trace w' = trace w ++ new /\
    forall req f, EvDo req f ∈ new -> req_Header req !! "User-Agent" = Some identity.
Proof.
  intros H. apply Authenticate_run_of in H as (_ & _ & _ & new & Htr & Hall).
  exists new. split; [exact Htr|]. intros req f Hin.
  rewrite Forall_forall in Hall. apply Hall in Hin. apply Hin.
Qed.

(** X2.  A run of [Authenticate] that starts with redirects followed ends
    with redirects followed, whatever its result, and the only requests it
    sends with redirects off are posts of the form that declines to stay
    signed in ([LoginOptions] is [1]). *)
Theorem redirects_are_off_only_to_decline (fuel : nat) (c : Client)
    (creds : LoginCredentials) (w w' : World) (r : result string) :
  followRedirect w = true ->
  Authenticate fuel c (Some creds) w = Some (r, w') ->
  followRedirect w' = true /\
  exists new,
    trace w' = trace w ++ new /\
    forall req, EvDo req false ∈ new -> declines req.
Proof.
  intros Hf H. apply Authenticate_run_of in H as (Hf' & _ & _ & new & Htr & Hall).
  split; [auto|]. exists new. split; [exact Htr|]. intros req Hin.
  rewrite Forall_forall in Hall. apply Hall in Hin as (_ & Hoff).
  destruct (Hoff eq_refl) as [Hd|Hstart]; [exact Hd|congruence].
Qed.

(** X3.  When the caller supplied a one-time code, a run of
    [Authenticate] never reads the terminal: the lines waiting there are
    all still there and no read is in the trace. *)
Theorem supplied_code_is_never_prompted_for (fuel : nat) (c : Client)
    (creds : LoginCredentials) (w w' : World) (r : result string) :
  MFAToken creds <> "" ->
  Authenticate fuel c (Some creds) w = Some (r, w') ->
  stdin w' = stdin w /\
  exists new, trace w' = trace w ++ new /\ EvReadLine ∉ new.
Proof.
  intros Htok H. apply Authenticate_run_of in H as (_ & Hin & _ & new & Htr & Hall).
  split; [auto|]. exists new. split; [exact Htr|]. intros Hread.
  rewrite Forall_forall in Hall. apply Hall in Hread. simpl in Hread. contradiction.
Qed.

(** X6.  A client made by [NewClient] and its first request.  The
    constructor succeeds only on options with a non-empty address and a
    non-empty application id.  With valid credentials the first thing
    [Authenticate] then does is to fetch, redirects followed, the
    LinkedSignIn address made of that address and that id; when nothing
    answers, the result is the start error and that request is the only
    one sent.  Redirects are followed when [Authenticate] returns. *)
Theorem new_client_starts_at_its_application (new_jar : result Jar)
    (opts : option ClientOptions) (c : Client) (h : HTTPClient) (fuel : nat)
    (creds : LoginCredentials) (answers : list Exchange)
    (lines : list (result string)) (w' : World) (r : result string) (u : URL) :
  NewClient new_jar opts = ok (c, h) ->
  Username creds <> "" -> Password creds <> "" ->
  url_Parse (startURL c) = ok u ->
  Authenticate fuel c (Some creds) (world_of h answers lines) = Some (r, w') ->
  exists o,
    opts = Some o /\ co_URL o <> "" /\ co_AppID o <> "" /\
    startURL c =
      co_URL o +:+
      "/applications/redirecttofederatedapplication.aspx?Operation=LinkedSignIn&applicationId="
      +:+ co_AppID o /\
    (exists rest, trace w' = EvDo (Get_call (startURL c)) true :: rest) /\
    (answers = [] ->
     exists e, r = fail (Wrapf "failed to start authentication: %w" e) /\
               trace w' = [EvDo (Get_call (startURL c)) true]) /\
    followRedirect w' = true.
Proof.
  intros Hnew Hu Hp Hurl Hauth.
  unfold NewClient in Hnew. destruct opts as [o|]; [|discriminate].
  destruct (String.eqb_spec (co_URL o) "") as [|Hurl0]; [discriminate|].
  destruct (String.eqb_spec (co_AppID o) "") as [|Happ0]; [discriminate|].
  unfold NewHTTPClient in Hnew. destruct new_jar as [j|e]; [|discriminate].
  injection Hnew as <- <-. exists o.
  split; [reflexivity|]. split; [exact Hurl0|]. split; [exact Happ0|].
  split; [reflexivity|].
  pose proof (Authenticate_run_of creds fuel _ _ _ _ Hauth) as (Hf & _).
  split; [|split; [|apply Hf; reflexivity]].
  - revert Hauth. unfold Authenticate.
    apply String.eqb_neq in Hu, Hp. rewrite Hu, Hp.
    unfold authenticate, wrap, Get, bind, lift, NewRequest, Do. rewrite Hurl.
    match goal with
    | |- context [Client_Do ?q ?w0] =>
        destruct (Client_Do q w0) as [[res|e] w1] eqn:Hdo;
        apply Client_Do_world in Hdo as (Htr & _)
    end.
    + intros H. apply safe_authenticate_loop in H as (_ & _ & _ & new & Htr' & _).
      exists new. rewrite Htr', Htr. reflexivity.
    + intros [= <- <-]. exists []. exact Htr.
  - intros ->. revert Hauth. unfold Authenticate.
    apply String.eqb_neq in Hu, Hp. rewrite Hu, Hp.
    unfold authenticate, wrap, Get, bind, lift, NewRequest, Do, Client_Do. rewrite Hurl.
    simpl. intros [= <- <-]. eauto.
Qed.

End Whole_run.

Section Handlers.
Context {P : Platform}.

Lemma Do_trace (req : Request) (w : World) :
  trace (snd (Do req w)) = trace w ++ [EvDo (stamp req) (followRedirect w)] /\
  followRedirect (snd (Do req w)) = followRedirect w /\
  stdin (snd (Do req w)) = stdin w /\
  fst (Do req w) = match server w with
                   | [] => fail (LibError "no answer from the server")
                   | x :: _ => reply x
                   end.
Proof. unfold Do, Client_Do. destruct (server w); simpl; auto. Qed.

(** X7.  The handler of the "keep me signed in" page.  On a page whose
    configuration decodes and whose post-back address parses it sends one
    request, with redirects off: the post of the flow token, the context
    and [LoginOptions] set to [1], whatever name the flow token goes by;
    redirects are followed again when it returns, also when the request
    failed.  A page whose configuration does not decode is an error and
    nothing is sent, the redirect policy left as it was. *)
Theorem KmsiInterrupt_declines_with_redirects_off (res : Response) (body : string)
    (w : World) :
  (forall conv u,
      unmarshalEmbeddedJSON body = ok conv ->
      url_Parse (fullURL res (URLPost conv)) = ok u ->
      trace (snd (processKmsiInterrupt res body w)) =
        trace w ++ [EvDo (kmsi_call res conv) false] /\
      followRedirect (snd (processKmsiInterrupt res body w)) = true /\
      kmsi_form conv !! "LoginOptions" = Some ["1"] /\
      fst (processKmsiInterrupt res body w) =
        match server w with
        | [] => fail (Wrapf "KMSI request failed: %w" (LibError "no answer from the server"))
        | x :: _ => match reply x with
                    | ok newRes => ok newRes
                    | fail e => fail (Wrapf "KMSI request failed: %w" e)
                    end
        end) /\
  (forall e,
      unmarshalEmbeddedJSON body = fail e ->
      processKmsiInterrupt res body w =
        (fail (Wrapf "failed to parse KMSI response: %w" e), w)).
Proof.
  split.
  - intros conv u Hconv Hu.
    unfold processKmsiInterrupt, bind, wrap, lift, NewRequest. rewrite Hconv, Hu.
    unfold DisableFollowRedirect, EnableFollowRedirect, set_followRedirect, attempt,
      Do, Client_Do. simpl.
    split; [destruct (server w) as [|x rest]; [|destruct (reply x)]; reflexivity|].
    split; [destruct (server w) as [|x rest]; [|destruct (reply x)]; reflexivity|].
    split; [apply lookup_insert_eq|].
    destruct (server w) as [|x rest]; [|destruct (reply x)]; reflexivity.
  - intros e He. unfold processKmsiInterrupt, bind, wrap, lift. rewrite He. reflexivity.
Qed.

Lemma password_form_fields (creds : LoginCredentials) (conv : ConvergedResponse) :
  password_form creds conv !! "passwd" = Some [Password creds] /\
  password_form creds conv !! "loginfmt" = Some [Username creds] /\
  password_form creds conv !! "login" = Some [Username creds] /\
  password_form creds conv !! "ctx" = Some [SCtx conv].
Proof.
  unfold password_form, Values_Set.
  repeat split;
    rewrite ?(lookup_insert_ne _ "passwd"), ?(lookup_insert_ne _ "loginfmt"),
      ?(lookup_insert_ne _ "login") by discriminate;
    apply lookup_insert_eq.
Qed.

(** X8.  The password step.  A page that carries an error code other
    than 50058 is refused before anything is sent: the result is the
    login error with the code and its text.  Otherwise one request goes
    out, the post of the password form to the login address with the page
    as referer; whatever name the flow token goes by, the form has the
    user name under [login] and [loginfmt], the password under [passwd]
    and the context under [ctx]. *)
Theorem processAuthentication_refuses_error_page_or_posts_password
    (loginURL refererURL : string) (creds : LoginCredentials)
    (conv : ConvergedResponse) (w : World) :
  (SErrorCode conv <> "" -> SErrorCode conv <> "50058" ->
   processAuthentication loginURL refererURL creds conv w =
     (fail (Errorf "login error: %s - %s"
              [ArgS (SErrorCode conv); ArgS (SErrTxt conv)]), w)) /\
  (forall u,
      SErrorCode conv = "" \/ SErrorCode conv = "50058" ->
      url_Parse loginURL = ok u ->
      trace (snd (processAuthentication loginURL refererURL creds conv w)) =
        trace w ++ [EvDo (password_call loginURL refererURL creds conv)
                         (followRedirect w)] /\
      password_form creds conv !! "passwd" = Some [Password creds] /\
      password_form creds conv !! "loginfmt" = Some [Username creds] /\
      password_form creds conv !! "login" = Some [Username creds] /\
      password_form creds conv !! "ctx" = Some [SCtx conv]).
Proof.
  split.
  - intros Hne Hnb. unfold processAuthentication.
    apply String.eqb_neq in Hne, Hnb. rewrite Hne, Hnb. reflexivity.
  - intros u Hcode Hu. split; [|apply password_form_fields].
    unfold processAuthentication.
    replace (negb (String.eqb (SErrorCode conv) "") &&
             negb (String.eqb (SErrorCode conv) "50058")) with false
      by (destruct Hcode as [-> | ->]; reflexivity).
    unfold bind, wrap, lift, NewRequest. rewrite Hu.
    match goal with
    | |- context [Do ?q w] =>
        destruct (Do q w) as [r w1] eqn:Hdo; pose proof (Do_trace q w) as (Htr & _)
    end.
    rewrite Hdo in Htr. simpl in Htr. destruct r; exact Htr.
Qed.

Lemma federation_form_fields (formValues : Values) (creds : LoginCredentials) :
  federation_form formValues creds !! "UserName" = Some [Username creds] /\
  federation_form formValues creds !! "Password" = Some [Password creds] /\
  federation_form formValues creds !! "AuthMethod" = Some ["FormsAuthentication"] /\
  (forall k, k <> "UserName" -> k <> "Password" -> k <> "AuthMethod" ->
             federation_form formValues creds !! k = formValues !! k).
Proof.
  unfold federation_form, Values_Set. repeat split.
  - rewrite !lookup_insert_ne by discriminate. apply lookup_insert_eq.
  - rewrite lookup_insert_ne by discriminate. apply lookup_insert_eq.
  - apply lookup_insert_eq.
  - intros k H1 H2 H3. rewrite !lookup_insert_ne by congruence. reflexivity.
Qed.

(** X9.  The federated sign-in.  When the fetch of the federation
    address is answered with a page whose first form has a non-empty
    action, the handler sends two requests: the fetch, and the post, to
    the action made absolute against the fetched page, of the fields of
    that form with the user name, the password and the authentication
    method laid over them.  Every other field of the form goes out with
    the value the form gave it. *)
Theorem processFederatedAuth_overlays_credentials (federationURL : string)
    (creds : LoginCredentials) (w : World) (u u' : URL) (x : Exchange)
    (rest : list Exchange) (res : Response) (body action : string)
    (formValues : Values) :
  url_Parse federationURL = ok u ->
  server w = x :: rest ->
  reply x = ok res ->
  Body res = ok body ->
  parseFormData body = ok (formValues, action) ->
  action <> "" ->
  url_Parse (fullURL res action) = ok u' ->
  requests (trace (snd (processFederatedAuth federationURL creds w))) =
    requests (trace w) ++
    [Get_call federationURL;
     relay_call (fullURL res action) (federation_form formValues creds)] /\
  federation_form formValues creds !! "UserName" = Some [Username creds] /\
  federation_form formValues creds !! "Password" = Some [Password creds] /\
  federation_form formValues creds !! "AuthMethod" = Some ["FormsAuthentication"] /\
  (forall k, k <> "UserName" -> k <> "Password" -> k <> "AuthMethod" ->
             federation_form formValues creds !! k = formValues !! k).
Proof.
  intros Hu Hsrv Hx Hbody Hparse Hact Hu'. split; [|apply federation_form_fields].
  unfold processFederatedAuth, Get, bind, wrap, lift, NewRequest. rewrite Hu.
  unfold Do at 1, Client_Do. rewrite Hsrv, Hx, Hbody, Hparse.
  apply String.eqb_neq in Hact. rewrite Hact, Hu'.
  match goal with
  | |- context [Do ?q ?w0] => pose proof (Do_trace q w0) as (Htr & _)
  end.
  rewrite Htr. simpl. rewrite !requests_snoc, <- app_assoc. reflexivity.
Qed.

End Handlers.

Section Relays_and_MFA.
Context {P : Platform}.

(** X10.  The relay of a SAML request page posts the values of the first
    form, unchanged, to the action of the form made absolute against the
    address of the page.  A page whose form cannot be extracted, or whose
    form has no action, is an error and nothing is sent. *)
Theorem processSAMLRequest_relays_to_resolved_action (res : Response) (body : string)
    (w : World) :
  (forall e,
      parseFormData body = fail e ->
      processSAMLRequest res body w =
        (fail (Wrapf "failed to parse SAML request form: %w" e), w)) /\
  (forall values,
      parseFormData body = ok (values, "") ->
      processSAMLRequest res body w =
        (fail (Errorf "SAML request form URL not found" []), w)) /\
  (forall values action u,
      parseFormData body = ok (values, action) ->
      action <> "" ->
      url_Parse (fullURL res action) = ok u ->
      trace (snd (processSAMLRequest res body w)) =
        trace w ++ [EvDo (relay_call (fullURL res action) values) (followRedirect w)]).
Proof.
  unfold processSAMLRequest, bind, wrap, lift, throw.
  split; [intros e ->; reflexivity|].
  split; [intros values ->; reflexivity|].
  intros values action u -> Hact Hu.
  apply String.eqb_neq in Hact. rewrite Hact. unfold NewRequest. rewrite Hu.
  match goal with
  | |- context [Do ?q ?w0] => pose proof (Do_trace q w0) as (Htr & _)
  end.
  exact Htr.
Qed.

Lemma parseFormData_no_form (body : string) (doc : Node) :
  NewDocumentFromReader body = ok doc ->
  Find sel_form [doc] = [] ->
  parseFormData body = fail (Errorf "form not found" []).
Proof. intros Hdoc Hf. unfold parseFormData. rewrite Hdoc, Hf. reflexivity. Qed.

Lemma parseFormData_action (body : string) (doc form : Node) (others : list Node) :
  NewDocumentFromReader body = ok doc ->
  Find sel_form [doc] = form :: others ->
  parseFormData body =
    ok (fold_left add_input (Find sel_input [form]) ∅, fst (node_attr "action" form)).
Proof.
  intros Hdoc Hf. unfold parseFormData. rewrite Hdoc, Hf. simpl.
  destruct (node_attr "action" form). reflexivity.
Qed.

(** X11.  The generic relay refuses what it cannot post.  A page with no
    form is the error "form not found"; a page whose first form has no
    [action] attribute, or an empty one, is the error "form URL not
    found", whatever forms come after it.  In both cases nothing is sent.
    Otherwise the form goes to its action as written: the relay does not
    make the address absolute. *)
Theorem reProcessForm_refuses_missing_form_or_action (body : string) (doc : Node)
    (w : World) :
  NewDocumentFromReader body = ok doc ->
  (Find sel_form [doc] = [] ->
   reProcessForm body w =
     (fail (Wrapf "failed to parse form: %w" (Errorf "form not found" [])), w)) /\
  (forall form others,
      Find sel_form [doc] = form :: others ->
      fst (node_attr "action" form) = "" ->
      reProcessForm body w = (fail (Errorf "form URL not found" []), w)) /\
  (forall form others u,
      Find sel_form [doc] = form :: others ->
      fst (node_attr "action" form) <> "" ->
      url_Parse (fst (node_attr "action" form)) = ok u ->
      exists values,
        trace (snd (reProcessForm body w)) =
          trace w ++ [EvDo (relay_call (fst (node_attr "action" form)) values)
                           (followRedirect w)]).
Proof.
  intros Hdoc. unfold reProcessForm, bind, wrap, lift, throw. split; [|split].
  - intros Hf. rewrite (parseFormData_no_form _ _ Hdoc Hf). reflexivity.
  - intros form others Hf Hact. rewrite (parseFormData_action _ _ _ _ Hdoc Hf), Hact.
    reflexivity.
  - intros form others u Hf Hact Hu. rewrite (parseFormData_action _ _ _ _ Hdoc Hf).
    apply String.eqb_neq in Hact. rewrite Hact. unfold NewRequest. rewrite Hu.
    eexists.
    match goal with
    | |- context [Do ?q ?w0] => pose proof (Do_trace q w0) as (Htr & _)
    end.
    exact Htr.
Qed.

(** X12.  A begin-challenge answer that is not a success ends the MFA
    step at once: [processMFA] returns the begin error with the server's
    message, whatever the fuel, and the begin-challenge request is the
    only one sent. *)
Theorem begin_failure_ends_the_challenge (fuel : nat) (first : UserProof)
    (others : list UserProof) (conv : ConvergedResponse) (creds : LoginCredentials)
    (w : World) (u : URL) (x : Exchange) (rest : list Exchange) (res : Response)
    (m : MFAResponse) :
  url_Parse (URLBeginAuth conv) = ok u ->
  server w = x :: rest ->
  reply x = ok res ->
  decode_body Decode_MFAResponse res = ok m ->
  Success m = false ->
  exists w',
    processMFA fuel (first :: others) conv creds w =
      Some (fail (Wrapf "MFA BeginAuth failed: %w"
                    (Errorf "MFA BeginAuth failed: %v" [ArgV (Message m)])), w') /\
    trace w' =
      trace w ++ [EvDo (BeginAuth_call (select_default first (first :: others)) conv)
                       (followRedirect w)] /\
    server w' = rest.
Proof.
  intros Hu Hsrv Hx Hdec Hfail.
  unfold processMFA. cbn [length Nat.eqb].
  unfold wrap, processMFABeginAuth, bind, wrap, lift, NewRequest, Do, Client_Do.
  rewrite Hu, Hsrv, Hx, Hdec, Hfail. simpl. eexists. split; [reflexivity|].
  split; reflexivity.
Qed.

(** X13.  An end-challenge answer that is neither a success nor
    retryable, with no error code, ends the poll loop without a wait, and
    [processMFA] then fails with "MFA authentication failed": the
    completion form is not posted. *)
Theorem final_refusal_fails_the_challenge (fuel : nat) (i : Z) (m r : MFAResponse)
    (conv : ConvergedResponse) (creds : LoginCredentials) (w w' : World) :
  end_challenge i m conv creds w = (ok r, w') ->
  ErrCode r = 0 -> Success r = false -> Retry r = false ->
  poll (S fuel) i m conv creds w = Some (ok r, w') /\
  steps conv (trace w') = steps conv (trace w) ++ [EndAuthCall] /\
  (forall mfas w0,
      i = 0 -> mfas <> [] ->
      processMFABeginAuth mfas conv w0 = (ok m, w) ->
      processMFA (S fuel) mfas conv creds w0 =
        Some (fail (Errorf "MFA authentication failed" []), w')).
Proof.
  intros Hend Herr Hsucc Hretry.
  assert (Hpoll : poll (S fuel) i m conv creds w = Some (ok r, w')).
  { simpl. rewrite Hend, Herr, Hsucc, Hretry. reflexivity. }
  split; [exact Hpoll|]. split; [apply (end_challenge_effects _ _ _ _ _ _ _ Hend)|].
  intros mfas w0 -> Hne Hbegin. unfold processMFA.
  destruct mfas; [congruence|]. cbn [length Nat.eqb].
  unfold wrap. rewrite Hbegin, Hpoll, Hsucc. reflexivity.
Qed.

Lemma completion_form_fields (m : MFAResponse) (conv : ConvergedResponse) :
  completion_form m conv !! SFTName conv = Some [FlowToken m] /\
  (SFTName conv <> "request" -> completion_form m conv !! "request" = Some [Ctx m]) /\
  (SFTName conv <> "mfaAuthMethod" ->
   completion_form m conv !! "mfaAuthMethod" = Some [AuthMethodID m]) /\
  (SFTName conv <> "canary" -> completion_form m conv !! "canary" = Some [Canary conv]) /\
  (SFTName conv <> "login" ->
   completion_form m conv !! "login" = Some [SPOSTUsername conv]).
Proof.
  unfold completion_form, Values_Set.
  split; [apply lookup_insert_eq|].
  repeat split; intros Hne; rewrite (lookup_insert_ne _ (SFTName conv)) by exact Hne.
  - rewrite !lookup_insert_ne by discriminate. apply lookup_insert_eq.
  - rewrite !lookup_insert_ne by discriminate. apply lookup_insert_eq.
  - rewrite lookup_insert_ne by discriminate. apply lookup_insert_eq.
  - apply lookup_insert_eq.
Qed.

(** X14.  After a successful poll [processMFA] posts the completion form
    to the post-back address of the MFA page, as the page wrote it, and
    returns what the server answers.  The form is made from the last
    answer of the poll: its flow token under the page's name for it, and,
    unless that name is theirs, its context under [request], its method
    under [mfaAuthMethod], the page's canary and user name under [canary]
    and [login]. *)
Theorem successful_challenge_posts_completion_form (fuel : nat)
    (mfas : list UserProof) (conv : ConvergedResponse) (creds : LoginCredentials)
    (w0 w w' : World) (m final : MFAResponse) (u : URL) :
  mfas <> [] ->
  processMFABeginAuth mfas conv w0 = (ok m, w) ->
  poll fuel 0 m conv creds w = Some (ok final, w') ->
  Success final = true ->
  url_Parse (URLPost conv) = ok u ->
  processMFA fuel mfas conv creds w0 = Some (Do (completion_call_request final conv) w')
  /\ trace (snd (Do (completion_call_request final conv) w')) =
       trace w' ++ [EvDo (completion_call final conv) (followRedirect w')]
  /\ completion_form final conv !! SFTName conv = Some [FlowToken final]
  /\ (SFTName conv <> "request" ->
      completion_form final conv !! "request" = Some [Ctx final])
  /\ (SFTName conv <> "mfaAuthMethod" ->
      completion_form final conv !! "mfaAuthMethod" = Some [AuthMethodID final]).
Proof.
  intros Hne Hbegin Hpoll Hsucc Hu.
  split.
  - rewrite (processMFA_completes fuel mfas conv creds w0 w w' m final) by assumption.
    unfold processMFAAuth, bind, wrap, lift, NewRequest. rewrite Hu. reflexivity.
  - split; [apply Do_trace|].
    destruct (completion_form_fields final conv) as (H1 & H2 & H3 & _). auto.
Qed.

End Relays_and_MFA.

Section Code_and_config.
Context {P : Platform}.

Lemma requests_app (a b : list Event) : requests (a ++ b) = requests a ++ requests b.
Proof. unfold requests. apply omap_app. Qed.

Lemma push_hint_requests (rq : MFARequest) (i : Z) (m : MFAResponse) (w : World) :
  exists w', push_hint rq i m w = (ok tt, w') /\
             requests (trace w') = requests (trace w) /\
             stdin w' = stdin w /\ server w' = server w /\
             followRedirect w' = followRedirect w.
Proof.
  unfold push_hint, Printf, ret, log.
  destruct (_ && _); [destruct (Entropy m =? 0)|]; eexists; (split; [reflexivity|]);
    simpl; rewrite ?requests_app; simpl; rewrite ?app_nil_r; auto.
Qed.

Lemma processMFAEndAuth_requests (rq : MFARequest) (conv : ConvergedResponse)
    (w : World) (u : URL) :
  url_Parse (URLEndAuth conv) = ok u ->
  requests (trace (snd (processMFAEndAuth rq conv w))) =
    requests (trace w) ++ [EndAuth_call rq conv] /\
  stdin (snd (processMFAEndAuth rq conv w)) = stdin w.
Proof.
  intros Hu. unfold processMFAEndAuth, bind, wrap, lift, NewRequest. rewrite Hu.
  match goal with
  | |- context [Do ?q w] =>
      destruct (Do q w) as [r w1] eqn:Hdo; pose proof (Do_trace q w) as (Htr & _ & Hin & _)
  end.
  rewrite Hdo in Htr, Hin. simpl in Htr, Hin.
  destruct r as [res|e]; [destruct (decode_body _ res)|]; simpl;
    rewrite Htr, requests_snoc; auto.
Qed.

Lemma end_challenge_after_otp (i : Z) (m : MFAResponse) (conv : ConvergedResponse)
    (creds : LoginCredentials) (w w1 : World) (rq : MFARequest) (u : URL) :
  url_Parse (URLEndAuth conv) = ok u ->
  otp_data (EndAuth_request m) creds w = (ok rq, w1) ->
  requests (trace (snd (end_challenge i m conv creds w))) =
    requests (trace w1) ++ [EndAuth_call rq conv] /\
  stdin (snd (end_challenge i m conv creds w)) = stdin w1.
Proof.
  intros Hu Hotp. unfold end_challenge, bind. rewrite Hotp.
  destruct (push_hint_requests rq i m w1) as (w2 & -> & Hreq & Hin & _).
  unfold wrap.
  pose proof (processMFAEndAuth_requests rq conv w2 u Hu) as (Hr & Hi).
  destruct (processMFAEndAuth rq conv w2) as [[r|e] w3]; simpl in *;
    rewrite Hr, Hi, Hreq, Hin; auto.
Qed.

(** X15.  The code that an end-challenge call carries.  For a method
    that is not a one-time-code method the request carries no code and the
    terminal is not read.  For a one-time-code method the request carries
    the code the caller supplied, without a read; with none supplied, the
    line read from the terminal, trimmed; and when that read fails the
    attempt is an error and no request is sent. *)
Theorem end_challenge_carries_the_code (i : Z) (m : MFAResponse)
    (conv : ConvergedResponse) (creds : LoginCredentials) (w : World) (u : URL) :
  url_Parse (URLEndAuth conv) = ok u ->
  (is_OTP (AuthMethodID m) = false ->
   requests (trace (snd (end_challenge i m conv creds w))) =
     requests (trace w) ++ [EndAuth_call (EndAuth_request m) conv] /\
   stdin (snd (end_challenge i m conv creds w)) = stdin w) /\
  (is_OTP (AuthMethodID m) = true -> MFAToken creds <> "" ->
   requests (trace (snd (end_challenge i m conv creds w))) =
     requests (trace w) ++
     [EndAuth_call (with_AdditionalAuthData (EndAuth_request m) (MFAToken creds)) conv] /\
   stdin (snd (end_challenge i m conv creds w)) = stdin w) /\
  (forall line rest,
      is_OTP (AuthMethodID m) = true -> MFAToken creds = "" ->
      stdin w = ok line :: rest ->
      requests (trace (snd (end_challenge i m conv creds w))) =
        requests (trace w) ++
        [EndAuth_call (with_AdditionalAuthData (EndAuth_request m) (TrimSpace line)) conv] /\
      stdin (snd (end_challenge i m conv creds w)) = rest) /\
  (is_OTP (AuthMethodID m) = true -> MFAToken creds = "" ->
   stdin w = [] \/ (exists e rest, stdin w = fail e :: rest) ->
   (exists e, fst (end_challenge i m conv creds w) =
                fail (Wrapf "failed to read verification code: %w"
                        (Wrapf "failed to read input: %w" e))) /\
   requests (trace (snd (end_challenge i m conv creds w))) = requests (trace w)).
Proof.
  intros Hu. unfold is_OTP. split; [|split; [|split]].
  - intros Hm. apply (end_challenge_after_otp i m conv creds w w _ u Hu).
    unfold otp_data. simpl. rewrite Hm. reflexivity.
  - intros Hm Htok. apply (end_challenge_after_otp i m conv creds w w _ u Hu).
    unfold otp_data. simpl. rewrite Hm.
    apply String.eqb_neq in Htok. rewrite Htok. reflexivity.
  - intros line rest Hm Htok Hin.
    assert (Hotp : otp_data (EndAuth_request m) creds w =
                   (ok (with_AdditionalAuthData (EndAuth_request m) (TrimSpace line)),
                    {| trace := (trace w ++ [EvPrint "%s: " [ArgS "Enter verification code"]])
                                ++ [EvReadLine];
                       server := server w; stdin := rest;
                       followRedirect := followRedirect w; jar := jar w |})).
    { unfold otp_data. simpl. rewrite Hm, Htok. simpl.
      unfold PromptString, bind, wrap, Printf, ReadString, ret, log. simpl. rewrite Hin.
      destruct (String.eqb_spec (TrimSpace line) "") as [->|_]; reflexivity. }
    destruct (end_challenge_after_otp i m conv creds w _ _ u Hu Hotp) as (Hr & Hi).
    rewrite Hr, Hi. simpl. rewrite !requests_app. simpl. rewrite !app_nil_r. auto.
  - intros Hm Htok Hin.
    unfold end_challenge, bind, otp_data. simpl. rewrite Hm, Htok. simpl.
    unfold PromptString, bind, wrap, Printf, ReadString, ret, log. simpl.
    destruct Hin as [-> | (e & rest & ->)]; simpl;
      (split; [eauto|]); rewrite !requests_app; simpl; rewrite !app_nil_r; reflexivity.
Qed.

(** X16.  A page without a form is never taken for the terminal page.
    When the body has none of the four textual markers and its document
    has no form, the loop ends with an error and sends nothing, also when
    the document has an input named SAMLResponse with a value. *)
Theorem assertion_outside_a_form_is_not_returned (fuel : nat)
    (creds : LoginCredentials) (res : Response) (body : string) (doc : Node)
    (w : World) :
  Body res = ok body ->
  (forall s, (rank s < rank HiddenFormOrAssertion)%nat -> marker s body = false) ->
  NewDocumentFromReader body = ok doc ->
  Find sel_form [doc] = [] ->
  isHiddenForm body = false /\
  exists e, authenticate_loop (S fuel) creds res w = Some (fail e, w) /\
            explicit_exit (fail e).
Proof.
  intros Hbody Hnone Hdoc Hform.
  assert (Hh : isHiddenForm body = false).
  { unfold isHiddenForm. rewrite Hdoc, Hform. reflexivity. }
  split; [exact Hh|]. simpl. rewrite Hbody. unfold switch.
  pose proof (Hnone ConvergedSignIn) as H1. pose proof (Hnone ConvergedTFA) as H2.
  pose proof (Hnone KmsiInterrupt) as H3. pose proof (Hnone SAMLRequestRelay) as H4.
  simpl in H1, H2, H3, H4.
  rewrite H1, H2, H3, H4, Hh by lia. unfold run.
  destruct (default_case body w) as [o w1] eqn:Hd.
  assert (Hw : w1 = w).
  { revert Hd. unfold default_case, throw.
    repeat match goal with
           | |- context [if ?b then _ else _] => destruct b
           | |- context [match ?x with ok _ => _ | fail _ => _ end] => destruct x
           end; intros [= _ <-]; reflexivity. }
  apply default_case_outcome in Hd as (e & -> & He). subst w1. eauto.
Qed.

End Code_and_config.

Section Embedded_config.
Context {P : Platform}.

Lemma append_cons (c : ascii) (a b : string) : String c a +:+ b = String c (a +:+ b).
Proof. reflexivity. Qed.

Lemma append_nil_l (b : string) : EmptyString +:+ b = b.
Proof. reflexivity. Qed.

Lemma append_assoc (a b c : string) : (a +:+ b) +:+ c = a +:+ (b +:+ c).
Proof.
  induction a as [|x a IH]; [reflexivity|]. rewrite !append_cons, IH. reflexivity.
Qed.

Lemma length_append (a b : string) :
  String.length (a +:+ b) = (String.length a + String.length b)%nat.
Proof.
  induction a as [|x a IH]; [reflexivity|]. rewrite append_cons. simpl. rewrite IH.
  reflexivity.
Qed.

Lemma mentions_append (c : ascii) (a b : string) :
  mentions c (a +:+ b) = mentions c a || mentions c b.
Proof.
  induction a as [|x a IH]; [reflexivity|]. rewrite append_cons. simpl. rewrite IH.
  apply orb_assoc.
Qed.

Lemma HasPrefix_append (p s : string) : HasPrefix (p +:+ s) p = true.
Proof.
  unfold HasPrefix. induction p as [|x p IH]; [destruct s; reflexivity|].
  rewrite append_cons. simpl. destruct (ascii_dec x x); [exact IH|congruence].
Qed.

Lemma HasPrefix_skip (p s : string) :
  HasPrefix s p = true -> s = p +:+ skip (String.length p) s.
Proof.
  unfold HasPrefix. revert s. induction p as [|x p IH]; intros s H.
  - destruct s; reflexivity.
  - destruct s as [|y s]; simpl in H; [discriminate|].
    destruct (ascii_dec x y) as [->|]; [|discriminate].
    rewrite append_cons. simpl. f_equal. apply IH. exact H.
Qed.

Lemma skip_append (p s : string) : skip (String.length p) (p +:+ s) = s.
Proof.
  induction p as [|x p IH]; [destruct s; reflexivity|]. rewrite append_cons. exact IH.
Qed.

Lemma until_semicolon_spec (s : string) :
  forall r b, until_semicolon s = (r, b) ->
    mentions ";" r = false /\
    (b = true -> exists post, s = r +:+ String ";" post) /\
    (b = false -> s = r).
Proof.
  induction s as [|c s IH]; intros r b; cbn [until_semicolon].
  - intros [= <- <-]. split; [reflexivity|]. split; [discriminate|reflexivity].
  - destruct (Ascii.eqb_spec c ";") as [->|Hne].
    + intros [= <- <-]. split; [reflexivity|]. split; [eauto|discriminate].
    + destruct (until_semicolon s) as [r0 b0]. intros [= <- <-].
      destruct (IH r0 b0 eq_refl) as (Hm & Ht & Hf). split; [|split].
      * cbn [mentions]. rewrite Hm.
        assert (Hc : Ascii.eqb ";" c = false) by (apply Ascii.eqb_neq; congruence).
        rewrite Hc. reflexivity.
      * intros Hb. destruct (Ht Hb) as (post & ->). exists post. reflexivity.
      * intros Hb. f_equal. auto.
Qed.

Lemma until_semicolon_append (r post : string) :
  mentions ";" r = false -> until_semicolon (r +:+ String ";" post) = (r, true).
Proof.
  induction r as [|c r IH]; intros Hm; [reflexivity|].
  cbn [mentions] in Hm. apply orb_false_iff in Hm as (Hc & Hm).
  rewrite append_cons. cbn [until_semicolon].
  rewrite Ascii.eqb_sym, Hc, (IH Hm). reflexivity.
Qed.

Lemma last_is_snoc (c : ascii) (s : string) : last_is c (s +:+ String c EmptyString) = true.
Proof.
  unfold last_is. rewrite length_append. simpl.
  replace (String.length s + 1 - 1)%nat with (String.length s) by lia.
  induction s as [|x s IH]; simpl; [apply Ascii.eqb_refl|].
  destruct s as [|y s]; [simpl; apply Ascii.eqb_refl|]. exact IH.
Qed.

Lemma last_is_split (c : ascii) (s : string) :
  last_is c s = true -> exists s', s = s' +:+ String c EmptyString.
Proof.
  unfold last_is. induction s as [|x s IH]; simpl; [discriminate|].
  rewrite Nat.sub_0_r. destruct s as [|y s].
  - simpl. destruct (Ascii.eqb_spec c x) as [->|]; [|discriminate].
    intros _. exists EmptyString. reflexivity.
  - simpl in *. rewrite Nat.sub_0_r in IH. intros H.
    destruct (IH H) as (s' & Hs'). exists (String x s'). rewrite append_cons, <- Hs'.
    reflexivity.
Qed.

Lemma Config_at_shape (s g : string) :
  Config_at s = Some g ->
  exists inner post,
    s = "$Config={" +:+ inner +:+ "};" +:+ post /\
    g = "{" +:+ inner +:+ "}" /\ inner <> "" /\ mentions ";" inner = false.
Proof.
  unfold Config_at. destruct (HasPrefix s "$Config={") eqn:Hp; [|discriminate].
  apply HasPrefix_skip in Hp. simpl String.length in Hp.
  destruct (until_semicolon (skip 9 s)) as [r b] eqn:Hu.
  destruct (until_semicolon_spec _ _ _ Hu) as (Hm & Ht & _).
  destruct b; [|discriminate].
  destruct (2 <=? String.length r)%nat eqn:Hlen; destruct (last_is "}" r) eqn:Hlast;
    cbn [andb]; try discriminate.
  intros [= <-]. destruct (Ht eq_refl) as (post & Hpost).
  apply last_is_split in Hlast as (inner & ->).
  exists inner, post. split; [|split; [|split]].
  - rewrite Hp at 1. rewrite Hpost, append_assoc. reflexivity.
  - reflexivity.
  - intros ->. simpl in Hlen. discriminate.
  - rewrite mentions_append in Hm. apply orb_false_iff in Hm as (Hm & _). exact Hm.
Qed.

Lemma Config_at_found (inner post : string) :
  inner <> "" -> mentions ";" inner = false ->
  Config_at ("$Config={" +:+ inner +:+ "};" +:+ post) = Some ("{" +:+ inner +:+ "}").
Proof.
  intros Hne Hm. unfold Config_at. rewrite HasPrefix_append.
  change 9%nat with (String.length "$Config={"). rewrite skip_append.
  replace (inner +:+ "};" +:+ post) with ((inner +:+ "}") +:+ String ";" post)
    by (rewrite append_assoc; reflexivity).
  rewrite until_semicolon_append
    by (rewrite mentions_append, Hm; reflexivity).
  rewrite last_is_snoc, length_append. simpl.
  destruct inner as [|c inner]; [congruence|]. simpl.
  replace (String.length inner + 1)%nat with (S (String.length inner)) by lia.
  reflexivity.
Qed.

Lemma FindStringSubmatch_Config_here (s g : string) :
  Config_at s = Some g -> FindStringSubmatch_Config s = Some g.
Proof. intros H. destruct s; cbn [FindStringSubmatch_Config]; rewrite H; reflexivity. Qed.

(** X17.  The embedded configuration.  What the client takes from a
    page is the text of an object that stands in the page as
    [$Config={...};]: opening brace to closing brace, at least one
    character between them and no semicolon among them, so an object with
    a semicolon in it is never taken whole.  Where the page has such an
    occurrence one is found; a page that does not contain [$Config={] is
    the error "$Config not found". *)
Theorem embedded_config_is_a_semicolon_free_object (html : string) :
  (forall g,
      FindStringSubmatch_Config html = Some g ->
      (exists pre inner post,
          html = pre +:+ "$Config={" +:+ inner +:+ "};" +:+ post /\
          g = "{" +:+ inner +:+ "}" /\ inner <> "" /\ mentions ";" inner = false) /\
      unmarshalEmbeddedJSON html = Unmarshal_ConvergedResponse g) /\
  (forall pre inner post,
      html = pre +:+ "$Config={" +:+ inner +:+ "};" +:+ post ->
      inner <> "" -> mentions ";" inner = false ->
      exists g, FindStringSubmatch_Config html = Some g) /\
  (Contains html "$Config={" = false ->
   unmarshalEmbeddedJSON html = fail (Errorf "$Config not found in response" [])).
Proof.
  split; [|split].
  - intros g Hg. split; [|unfold unmarshalEmbeddedJSON; rewrite Hg; reflexivity].
    revert Hg. induction html as [|c html IH].
    + intros Hg. vm_compute in Hg. discriminate.
    + cbn [FindStringSubmatch_Config].
      destruct (Config_at (String c html)) eqn:Hc.
      * intros [= <-]. apply Config_at_shape in Hc as (inner & post & Hs & Hrest).
        exists EmptyString, inner, post. auto.
      * intros Hg. destruct (IH Hg) as (pre & inner & post & -> & Hrest).
        exists (String c pre), inner, post. auto.
  - intros pre. revert html. induction pre as [|c pre IH]; intros html inner post -> Hne Hm.
    + rewrite append_nil_l. eexists.
      apply FindStringSubmatch_Config_here, Config_at_found; assumption.
    + rewrite append_cons. cbn [FindStringSubmatch_Config].
      destruct (Config_at _); [eauto|]. eapply IH; eauto.
  - intros Hc. unfold unmarshalEmbeddedJSON.
    replace (FindStringSubmatch_Config html) with (@None string); [reflexivity|].
    symmetry. induction html as [|c html IH].
    + vm_compute. reflexivity.
    + cbn [FindStringSubmatch_Config Contains] in *. unfold Config_at.
      destruct (HasPrefix (String c html) "$Config={"); [discriminate|]. auto.
Qed.

End Embedded_config.

Section Split_facts.

Lemma Split_nonempty (s : string) (sep : ascii) : Split s sep <> [].
Proof.
  induction s as [|c s IH]; simpl; [discriminate|].
  destruct (Ascii.eqb c sep); [discriminate|]. destruct (Split s sep); discriminate.
Qed.

Lemma Split_cons_sep (s : string) (sep : ascii) :
  Split (String sep s) sep = EmptyString :: Split s sep.
Proof. simpl. rewrite Ascii.eqb_refl. reflexivity. Qed.

Lemma Split_cons_other (c : ascii) (s : string) (sep : ascii) :
  c <> sep ->
  exists piece pieces, Split s sep = piece :: pieces /\
                       Split (String c s) sep = String c piece :: pieces.
Proof.
  intros Hne. simpl. apply Ascii.eqb_neq in Hne. rewrite Hne.
  destruct (Split s sep) as [|piece pieces] eqn:E; [apply Split_nonempty in E; contradiction|].
  eauto.
Qed.

(** No piece contains the separator. *)
Lemma Split_pieces (s : string) (sep : ascii) :
  Forall (fun piece => mentions sep piece = false) (Split s sep).
Proof.
  induction s as [|c s IH]; [repeat constructor|].
  destruct (Ascii.eqb_spec c sep) as [->|Hne].
  - rewrite Split_cons_sep. constructor; [reflexivity|exact IH].
  - destruct (Split_cons_other c s sep Hne) as (piece & pieces & E & ->).
    rewrite E in IH. apply Forall_cons in IH as (Hp & Hps).
    constructor; [|exact Hps]. cbn [mentions]. rewrite Hp.
    assert (Hc : Ascii.eqb sep c = false) by (apply Ascii.eqb_neq; congruence).
    rewrite Hc. reflexivity.
Qed.

(** Joining the pieces gives the text back. *)
Lemma Join_Split (s : string) (sep : ascii) : Join (Split s sep) sep = s.
Proof.
  induction s as [|c s IH]; [reflexivity|].
  destruct (Ascii.eqb_spec c sep) as [->|Hne].
  - rewrite Split_cons_sep. cbn [Join].
    destruct (Split s sep) eqn:E; [apply Split_nonempty in E; contradiction|].
    rewrite IH. reflexivity.
  - destruct (Split_cons_other c s sep Hne) as (piece & pieces & E & ->).
    rewrite E in IH. destruct pieces as [|p2 pieces]; cbn [Join] in *.
    + rewrite IH. reflexivity.
    + rewrite <- IH. reflexivity.
Qed.

(** A text without the separator is one piece, and the pieces of two
    texts joined by the separator are the first, when it has no separator,
    before the pieces of the second. *)
Lemma Split_whole (s : string) (sep : ascii) :
  mentions sep s = false -> Split s sep = [s].
Proof.
  induction s as [|c s IH]; [reflexivity|]. cbn [mentions]. intros H.
  apply orb_false_iff in H as (Hc & Hm). simpl.
  rewrite Ascii.eqb_sym, Hc, (IH Hm). reflexivity.
Qed.

Lemma Split_append (a b : string) (sep : ascii) :
  mentions sep a = false -> Split (a +:+ String sep b) sep = a :: Split b sep.
Proof.
  induction a as [|c a IH]; intros H.
  - rewrite append_nil_l. apply Split_cons_sep.
  - cbn [mentions] in H. apply orb_false_iff in H as (Hc & Hm).
    rewrite append_cons. simpl. rewrite Ascii.eqb_sym, Hc, (IH Hm). reflexivity.
Qed.

Lemma last_Split_pieces (s : string) (sep : ascii) :
  mentions sep (List.last (Split s sep) EmptyString) = false.
Proof.
  pose proof (Split_pieces s sep) as H.
  pose proof (Split_nonempty s sep) as Hne.
  induction (Split s sep) as [|p ps IH]; [contradiction|].
  apply Forall_cons in H as (Hp & Hps).
  destruct ps as [|q ps]; [exact Hp|]. apply IH; [exact Hps|discriminate].
Qed.

Lemma Join_last (l : list string) (sep : ascii) :
  (1 < length l)%nat ->
  exists before, Join l sep = before +:+ String sep (List.last l EmptyString).
Proof.
  induction l as [|p ps IH]; [simpl; lia|].
  intros Hlen. destruct ps as [|q ps]; [simpl in Hlen; lia|].
  destruct ps as [|r ps].
  - exists p. reflexivity.
  - destruct IH as (before & Hb); [simpl; lia|].
    exists (p +:+ String sep before).
    change (Join (p :: q :: r :: ps) sep) with (p +:+ String sep (Join (q :: r :: ps) sep)).
    rewrite Hb, append_assoc. reflexivity.
Qed.

(** A text with a separator ends with a separator followed by its last
    piece. *)
Lemma last_Split_suffix (s : string) (sep : ascii) :
  (1 < length (Split s sep))%nat ->
  exists before,
    s = before +:+ String sep (List.last (Split s sep) EmptyString).
Proof.
  intros Hlen. destruct (Join_last _ sep Hlen) as (before & Hb).
  exists before. rewrite <- Hb, Join_Split. reflexivity.
Qed.

End Split_facts.


Section Roles_facts.
Context {P : Platform}.

Lemma Split_before_last (before name : string) (sep : ascii) :
  mentions sep name = false ->
  exists p ps, Split (before +:+ String sep name) sep = p :: ps ++ [name].
Proof.
  intros Hname. induction before as [|c before IH].
  - exists EmptyString, []. rewrite append_nil_l, Split_cons_sep, (Split_whole _ _ Hname).
    reflexivity.
  - destruct IH as (p & ps & E). rewrite append_cons.
    destruct (Ascii.eqb_spec c sep) as [->|Hne].
    + exists EmptyString, (p :: ps). rewrite Split_cons_sep, E. reflexivity.
    + destruct (Split_cons_other c (before +:+ String sep name) sep Hne)
        as (piece & pieces & E1 & ->).
      rewrite E in E1. injection E1 as <- <-. eauto.
Qed.

(** X18 (extractRoleName): the name of a role is the text after the last
    slash of its ARN, and the whole ARN when it has no slash.  So the name
    never contains a slash, and an ARN that ends with a slash has the empty
    name. *)
Theorem extractRoleName_is_text_after_last_slash :
  (forall arn, mentions "/" arn = false -> extractRoleName arn = arn) /\
  (forall before name, mentions "/" name = false ->
     extractRoleName (before +:+ "/" +:+ name) = name) /\
  (forall arn, mentions "/" (extractRoleName arn) = false) /\
  (forall arn, extractRoleName arn = arn \/
               exists before, arn = before +:+ "/" +:+ extractRoleName arn).
Proof.
  split; [|split; [|split]].
  - intros arn H. unfold extractRoleName. rewrite (Split_whole _ _ H). reflexivity.
  - intros before name H. unfold extractRoleName.
    change ("/" +:+ name) with (String "/" name).
    destruct (Split_before_last before name "/" H) as (p & ps & ->).
    replace (1 <? length (p :: ps ++ [name]))%nat with true.
    + change (p :: ps ++ [name]) with ((p :: ps) ++ [name]). apply last_last.
    + symmetry. apply Nat.ltb_lt. cbn [length]. rewrite length_app. simpl. lia.
  - intros arn. unfold extractRoleName.
    destruct (1 <? length (Split arn "/"))%nat eqn:E.
    + apply last_Split_pieces.
    + pose proof (Split_pieces arn "/") as H. pose proof (Join_Split arn "/") as HJ.
      destruct (Split arn "/") as [|p [|q ps]] eqn:ES;
        [apply Split_nonempty in ES; contradiction| |simpl in E; discriminate].
      apply Forall_cons in H as (Hp & _). simpl in HJ. subst p. exact Hp.
  - intros arn. unfold extractRoleName.
    destruct (1 <? length (Split arn "/"))%nat eqn:E; [right|left; reflexivity].
    apply Nat.ltb_lt in E. exact (last_Split_suffix arn "/" E).
Qed.

(** X19 (parseRoleString): a role string is accepted only when it has
    exactly one comma; the role it gives then has a role ARN with [:role/]
    and a principal ARN with [:saml-provider/], which are the two sides of
    the comma without their outer blanks, in one order or the other, and
    its name is taken from its role ARN. *)
Theorem parseRoleString_accepts_one_role_and_one_provider (roleStr : string) (role : AWSRole) :
  parseRoleString roleStr = ok role ->
  exists a b,
    roleStr = a +:+ "," +:+ b /\
    mentions "," a = false /\ mentions "," b = false /\
    Contains (RoleARN role) ":role/" = true /\
    Contains (PrincipalARN role) ":saml-provider/" = true /\
    Name role = extractRoleName (RoleARN role) /\
    ((RoleARN role = TrimSpace a /\ PrincipalARN role = TrimSpace b) \/
     (RoleARN role = TrimSpace b /\ PrincipalARN role = TrimSpace a)).
Proof.
  unfold parseRoleString.
  pose proof (Split_pieces roleStr ",") as Hp. pose proof (Join_Split roleStr ",") as HJ.
  destruct (Split roleStr ",") as [|a [|b [|c rest]]]; try discriminate.
  cbn [length Nat.eqb negb nth]. intros H. exists a, b.
  apply Forall_cons in Hp as (Ha & Hp). apply Forall_cons in Hp as (Hb & _).
  split; [symmetry; exact HJ|]. split; [exact Ha|]. split; [exact Hb|].
  destruct (Contains (TrimSpace a) ":role/" && Contains (TrimSpace b) ":saml-provider/") eqn:E1.
  - injection H as <-. apply andb_true_iff in E1 as (? & ?). simpl. auto 10.
  - destruct (Contains (TrimSpace b) ":role/" && Contains (TrimSpace a) ":saml-provider/") eqn:E2;
      [|discriminate].
    injection H as <-. apply andb_true_iff in E2 as (? & ?). simpl. auto 10.
Qed.

Lemma parseRoleString_pair (a b : string) :
  mentions "," a = false -> mentions "," b = false ->
  parseRoleString (a +:+ "," +:+ b) =
    if Contains (TrimSpace a) ":role/" && Contains (TrimSpace b) ":saml-provider/"
    then ok {| RoleARN := TrimSpace a; PrincipalARN := TrimSpace b;
               Name := extractRoleName (TrimSpace a) |}
    else if Contains (TrimSpace b) ":role/" && Contains (TrimSpace a) ":saml-provider/"
    then ok {| RoleARN := TrimSpace b; PrincipalARN := TrimSpace a;
               Name := extractRoleName (TrimSpace b) |}
    else fail (Errorf "invalid role/principal ARNs in: %s" [ArgS (a +:+ "," +:+ b)]).
Proof.
  intros Ha Hb. unfold parseRoleString.
  change ("," +:+ b) with (String "," b).
  rewrite (Split_append _ _ _ Ha), (Split_whole _ _ Hb). reflexivity.
Qed.

(** X20 (parseRoleString): the two ARNs may come in either order: unless
    each side carries both marks, the two orders give the same role, or
    are both refused. *)
Theorem parseRoleString_takes_either_order (a b : string) :
  mentions "," a = false -> mentions "," b = false ->
  (Contains (TrimSpace a) ":role/" && Contains (TrimSpace a) ":saml-provider/" &&
   Contains (TrimSpace b) ":role/" && Contains (TrimSpace b) ":saml-provider/") = false ->
  forall role,
    parseRoleString (a +:+ "," +:+ b) = ok role <->
    parseRoleString (b +:+ "," +:+ a) = ok role.
Proof.
  intros Ha Hb Hamb role.
  rewrite (parseRoleString_pair a b Ha Hb), (parseRoleString_pair b a Hb Ha).
  destruct (Contains (TrimSpace a) ":role/"), (Contains (TrimSpace a) ":saml-provider/"),
    (Contains (TrimSpace b) ":role/"), (Contains (TrimSpace b) ":saml-provider/");
    simpl in *; try discriminate; try reflexivity; split; discriminate.
Qed.

Lemma ParseAWSRoles_from_ok (roleStrings : list string) :
  forall acc roles,
    ParseAWSRoles_from acc roleStrings = Roles roles <->
    exists new, roles = acc ++ new /\
                Forall2 (fun s r => parseRoleString s = ok r) roleStrings new.
Proof.
  induction roleStrings as [|s rest IH]; intros acc roles; simpl.
  - split.
    + intros [= <-]. exists []. rewrite app_nil_r. split; [reflexivity|constructor].
    + intros (new & -> & H). inversion H. rewrite app_nil_r. reflexivity.
  - destruct (parseRoleString s) as [r|e] eqn:E.
    + rewrite IH. split.
      * intros (new & -> & H). exists (r :: new). rewrite <- app_assoc. split; [reflexivity|].
        constructor; assumption.
      * intros (new & -> & H). inversion H as [|? r' ? new' Hr Hrest]; subst.
        assert (r' = r) by congruence. subst r'.
        exists new'. rewrite <- app_assoc. split; [reflexivity|exact Hrest].
    + split; [discriminate|]. intros (new & _ & H). inversion H; congruence.
Qed.

Lemma ParseAWSRoles_from_fail (roleStrings : list string) :
  forall acc s e,
    ParseAWSRoles_from acc roleStrings = FailedRole s e <->
    exists pre post, roleStrings = pre ++ s :: post /\
                     Forall (fun s' => exists r, parseRoleString s' = ok r) pre /\
                     parseRoleString s = fail e.
Proof.
  induction roleStrings as [|s0 rest IH]; intros acc s e; simpl.
  - split; [discriminate|]. intros (pre & post & H & _). destruct pre; discriminate.
  - destruct (parseRoleString s0) as [r|e0] eqn:E.
    + rewrite IH. split.
      * intros (pre & post & -> & Hpre & Hs). exists (s0 :: pre), post.
        split; [reflexivity|]. split; [constructor; eauto|exact Hs].
      * intros (pre & post & H & Hpre & Hs). destruct pre as [|p pre].
        -- injection H as -> ->. congruence.
        -- injection H as -> ->. apply Forall_cons in Hpre as (_ & Hpre).
           exists pre, post. auto.
    + split.
      * intros [= <- <-]. exists [], rest. split; [reflexivity|]. split; [constructor|exact E].
      * intros (pre & post & H & Hpre & Hs). destruct pre as [|p pre].
        -- injection H as -> ->. congruence.
        -- injection H as -> ->. apply Forall_cons in Hpre as ((r & Hr) & _). congruence.
Qed.

(** X21 (ParseAWSRoles): the role strings are parsed all or none.  The
    roles come back exactly when every string parses, one role for each
    string and in the order of the strings; otherwise the error names the
    first string that does not parse and carries its error. *)
Theorem ParseAWSRoles_gives_all_roles_or_first_failure (roleStrings : list string) :
  (forall roles,
     ParseAWSRoles roleStrings = Roles roles <->
     Forall2 (fun s r => parseRoleString s = ok r) roleStrings roles) /\
  (forall s e,
     ParseAWSRoles roleStrings = FailedRole s e <->
     exists pre post, roleStrings = pre ++ s :: post /\
                      Forall (fun s' => exists r, parseRoleString s' = ok r) pre /\
                      parseRoleString s = fail e).
Proof.
  split.
  - intros roles. unfold ParseAWSRoles. rewrite ParseAWSRoles_from_ok. split.
    + intros (new & -> & H). exact H.
    + intros H. exists roles. auto.
  - intros s e. apply ParseAWSRoles_from_fail.
Qed.

(** X22 (AccountID): the account of a role is the fifth field of its ARN,
    the fields being what the colons separate. *)
Theorem AccountID_is_fifth_field_of_ARN (role : AWSRole) (a b c d account : string) :
  mentions ":" a = false -> mentions ":" b = false -> mentions ":" c = false ->
  mentions ":" d = false -> mentions ":" account = false ->
  (RoleARN role = a +:+ ":" +:+ b +:+ ":" +:+ c +:+ ":" +:+ d +:+ ":" +:+ account \/
   exists rest,
     RoleARN role = a +:+ ":" +:+ b +:+ ":" +:+ c +:+ ":" +:+ d +:+ ":" +:+ account
                      +:+ ":" +:+ rest) ->
  AccountID role = account.
Proof.
  intros Ha Hb Hc Hd He H. unfold AccountID.
  destruct H as [->|(rest & ->)].
  - change (a +:+ ":" +:+ b +:+ ":" +:+ c +:+ ":" +:+ d +:+ ":" +:+ account)
      with (a +:+ String ":" (b +:+ String ":" (c +:+ String ":" (d +:+ String ":" account)))).
    rewrite !Split_append by assumption. rewrite (Split_whole _ _ He). reflexivity.
  - change (a +:+ ":" +:+ b +:+ ":" +:+ c +:+ ":" +:+ d +:+ ":" +:+ account +:+ ":" +:+ rest)
      with (a +:+ String ":" (b +:+ String ":" (c +:+ String ":" (d +:+ String ":"
              (account +:+ String ":" rest))))).
    rewrite !Split_append by assumption.
    cbn [length]. destruct (Split rest ":"); reflexivity.
Qed.

End Roles_facts.


Section Config_facts.

(** X23 (GetProfile): what a profile leaves out comes from the defaults.
    Under defaults that name a region and a positive session length, a
    merged profile always has a region and a positive session length; a
    region or a positive length of the profile itself is kept. *)
Theorem GetProfile_fills_gaps_from_defaults (c : Config) (name : string) (m : MergedProfile) :
  d_Region (cfg_Defaults c) <> "" ->
  0 < d_SessionDuration (cfg_Defaults c) ->
  GetProfile c name = inr m ->
  m_Region m <> "" /\ 0 < m_SessionDuration m /\
  exists profile,
    cfg_Profiles c !! name = Some profile /\
    (p_Region profile <> "" -> m_Region m = p_Region profile) /\
    (0 < p_SessionDuration profile -> m_SessionDuration m = p_SessionDuration profile).
Proof.
  intros Hr Hd. unfold GetProfile.
  destruct (cfg_Profiles c !! name) as [profile|]; [|discriminate].
  intros [= <-]. cbn [m_Region m_SessionDuration].
  destruct (String.eqb_spec (p_Region profile) "") as [E|E]; cbn [negb];
    destruct (Z.ltb_spec 0 (p_SessionDuration profile)).
  all: split; [assumption|]; split; [lia|]; exists profile;
    split; [reflexivity|]; split; [intros; congruence || reflexivity|intros; lia || reflexivity].
Qed.

(** X24 (SetProfile): a profile that was set is found under its name with
    the fields it was given, and nothing changes for any other name. *)
Theorem SetProfile_changes_one_name (c : Config) (name : string) (profile : Profile) :
  HasProfile (SetProfile c name profile) name = true /\
  (exists m, GetProfile (SetProfile c name profile) name = inr m /\
             m_Name m = name /\ m_URL m = p_URL profile /\ m_AppID m = p_AppID profile /\
             m_Username m = p_Username profile /\ m_RoleARN m = p_RoleARN profile /\
             m_Output m = p_Output profile) /\
  (forall other, other <> name ->
     GetProfile (SetProfile c name profile) other = GetProfile c other /\
     HasProfile (SetProfile c name profile) other = HasProfile c other).
Proof.
  split; [|split].
  - unfold HasProfile, SetProfile. cbn [cfg_Profiles]. rewrite lookup_insert_eq. reflexivity.
  - unfold GetProfile, SetProfile. cbn [cfg_Profiles]. rewrite lookup_insert_eq.
    eexists. split; [reflexivity|]. cbn. auto 10.
  - intros other Hne. unfold GetProfile, HasProfile, SetProfile. cbn [cfg_Profiles cfg_Defaults].
    rewrite lookup_insert_ne by congruence. auto.
Qed.

(** X25 (DeleteProfile): deleting fails exactly for a name that has no
    profile, and then says so with that name; when it succeeds the name
    has no profile any more, every other name keeps its own, and deleting
    the same name again fails.  Deleting a profile that was set under a
    fresh name gives the configuration back. *)
Theorem DeleteProfile_removes_one_name (c : Config) (name : string) :
  (HasProfile c name = false <-> DeleteProfile c name = inl (ProfileNotFound name)) /\
  (forall c', DeleteProfile c name = inr c' ->
     HasProfile c' name = false /\
     DeleteProfile c' name = inl (ProfileNotFound name) /\
     cfg_Defaults c' = cfg_Defaults c /\
     forall other, other <> name ->
       GetProfile c' other = GetProfile c other /\ HasProfile c' other = HasProfile c other) /\
  (forall profile, HasProfile c name = false ->
     DeleteProfile (SetProfile c name profile) name = inr c).
Proof.
  split; [|split].
  - unfold HasProfile, DeleteProfile. destruct (cfg_Profiles c !! name); split; congruence.
  - intros c'. unfold DeleteProfile.
    destruct (cfg_Profiles c !! name) as [p|] eqn:E; [|discriminate].
    intros [= <-]. unfold HasProfile, GetProfile. cbn [cfg_Profiles cfg_Defaults].
    rewrite lookup_delete_eq. repeat split; rewrite lookup_delete_ne by congruence; reflexivity.
  - intros profile. unfold HasProfile, DeleteProfile, SetProfile. cbn [cfg_Profiles cfg_Defaults].
    rewrite lookup_insert_eq. destruct (cfg_Profiles c !! name) eqn:E; [discriminate|].
    intros _. rewrite delete_insert_id by exact E. destruct c; reflexivity.
Qed.

(** X26 (GetSessionDuration): a positive configured length goes before a
    positive length of the assertion, and 3600 seconds stand in when
    neither is positive.  The result is positive as long as the lengths
    fit 32 bits; a configured length from 2^31 to 2^32 - 1 comes back
    negative. *)
Theorem GetSessionDuration_prefers_configured_length (configuredDuration samlDuration : Z) :
  (configuredDuration < 2 ^ 31 -> samlDuration < 2 ^ 31 ->
     0 < GetSessionDuration configuredDuration samlDuration /\
     GetSessionDuration configuredDuration samlDuration =
       if 0 <? configuredDuration then configuredDuration
       else if 0 <? samlDuration then samlDuration else 3600) /\
  (2 ^ 31 <= configuredDuration < 2 ^ 32 ->
     GetSessionDuration configuredDuration samlDuration = configuredDuration - 2 ^ 32 /\
     GetSessionDuration configuredDuration samlDuration < 0).
Proof.
  unfold GetSessionDuration, int32. split.
  - intros Hc Hs.
    destruct (Z.ltb_spec 0 configuredDuration); [|destruct (Z.ltb_spec 0 samlDuration)].
    + rewrite Z.mod_small by lia. lia.
    + rewrite Z.mod_small by lia. lia.
    + lia.
  - intros Hc. destruct (Z.ltb_spec 0 configuredDuration); [|lia].
    replace (configuredDuration + 2 ^ 31) with (configuredDuration - 2 ^ 31 + 1 * 2 ^ 32) by lia.
    rewrite Z.mod_add by lia. rewrite Z.mod_small by lia. lia.
Qed.

End Config_facts.

Section Selection_facts.
Context {P : Platform} {St : Strconv}.

Lemma print_options_prints (options : list string) :
  forall i w, exists w',
    print_options i options w = (ok tt, w') /\ stdin w' = stdin w.
Proof.
  induction options as [|opt rest IH]; intros i w.
  - exists w. split; reflexivity.
  - cbn [print_options]. unfold bind, Printf.
    destruct (IH (i + 1) (log (EvPrint "  [%d] %s\n" [ArgD (i + 1); ArgS opt]) w))
      as (w' & E & Hs).
    exists w'. rewrite E. split; [reflexivity|exact Hs].
Qed.

(** [PromptSelect] prints, leaving the terminal's input alone, and then
    reads one line. *)
Lemma PromptSelect_reads (prompt : string) (options : list string) (w : World) :
  exists w1, stdin w1 = stdin w /\
    PromptSelect prompt options w =
      match wrap "failed to read input: %w" ReadString w1 with
      | (fail e, w') => (fail e, w')
      | (ok input, w') =>
          match Atoi (TrimSpace input) with
          | fail _ => (fail (Errorf "invalid selection: %s" [ArgS (TrimSpace input)]), w')
          | ok selection =>
              if (selection <? 1) || (Z.of_nat (length options) <? selection)
              then (fail (Errorf "selection out of range: %d (must be 1-%d)"
                            [ArgD selection; ArgD (Z.of_nat (length options))]), w')
              else (ok (selection - 1), w')
          end
      end.
Proof.
  unfold PromptSelect. unfold bind at 1. unfold Printf at 1.
  unfold bind at 1.
  destruct (print_options_prints options 0 (log (EvPrint "%s\n" [ArgS prompt]) w))
    as (w1 & -> & Hs1).
  unfold bind at 1. unfold Printf at 1.
  exists (log (EvPrint "%s" [ArgS "Selection: "]) w1). split; [exact Hs1|].
  unfold bind.
  destruct (wrap "failed to read input: %w" ReadString _) as [[input|e] w2]; [|reflexivity].
  destruct (Atoi (TrimSpace input)); [|reflexivity].
  destruct ((_ <? 1) || _); reflexivity.
Qed.

(** What [PromptSelect] gives when the terminal has a line. *)
Lemma PromptSelect_line (prompt : string) (options : list string) (w : World)
    (line : string) (rest : list (result string)) :
  stdin w = ok line :: rest ->
  exists w',
    PromptSelect prompt options w =
      (match Atoi (TrimSpace line) with
       | fail _ => fail (Errorf "invalid selection: %s" [ArgS (TrimSpace line)])
       | ok selection =>
           if (selection <? 1) || (Z.of_nat (length options) <? selection)
           then fail (Errorf "selection out of range: %d (must be 1-%d)"
                        [ArgD selection; ArgD (Z.of_nat (length options))])
           else ok (selection - 1)
       end, w') /\ stdin w' = rest.
Proof.
  intros Hin. destruct (PromptSelect_reads prompt options w) as (w1 & Hs & ->).
  unfold wrap, ReadString. rewrite Hs, Hin.
  destruct (Atoi (TrimSpace line)) as [selection|e].
  - destruct ((selection <? 1) || (Z.of_nat (length options) <? selection));
      eexists; split; reflexivity.
  - eexists; split; reflexivity.
Qed.

Lemma PromptSelect_outcome (prompt : string) (options : list string) (w : World) :
  (forall idx w', PromptSelect prompt options w = (ok idx, w') ->
     0 <= idx < Z.of_nat (length options)) /\
  (forall e w', PromptSelect prompt options w = (fail e, w') ->
     forall msg, e <> LibError msg).
Proof.
  destruct (PromptSelect_reads prompt options w) as (w1 & Hs & ->).
  unfold wrap. destruct (ReadString w1) as [[input|e0] w2].
  - destruct (Atoi (TrimSpace input)) as [selection|e].
    + destruct (Z.ltb_spec selection 1); cbn [orb];
        [|destruct (Z.ltb_spec (Z.of_nat (length options)) selection)].
      * split; [intros ? ? [=]|intros ? ? [= <- _] ?; discriminate].
      * split; [intros ? ? [=]|intros ? ? [= <- _] ?; discriminate].
      * split; [intros ? ? [= <- _]; lia|intros ? ? [=]].
    + split; [intros ? ? [=]|intros ? ? [= <- _] ?; discriminate].
  - split; [intros ? ? [=]|intros ? ? [= <- _] ?; discriminate].
Qed.

Lemma index_role_in_range (roles : list AWSRole) (idx : Z) (w : World) :
  0 <= idx < Z.of_nat (length roles) ->
  exists role, roles !! Z.to_nat idx = Some role /\ index_role roles idx w = (ok role, w).
Proof.
  intros H. unfold index_role. destruct (Z.ltb_spec idx 0); [lia|].
  destruct (roles !! Z.to_nat idx) as [role|] eqn:E.
  - exists role. split; reflexivity.
  - apply lookup_ge_None in E. lia.
Qed.

Lemma selectRole_member (roles : list AWSRole) (w : World) (role : AWSRole) (w' : World) :
  selectRole roles w = (ok role, w') -> In role roles.
Proof.
  unfold selectRole. destruct roles as [|r0 roles']; cbn [length Nat.eqb]; [intros [=]|].
  set (roles := r0 :: roles').
  destruct (PromptSelect_outcome "Select an AWS role:" (map role_option roles) w)
    as (Hok & _).
  unfold bind.
  destruct (PromptSelect "Select an AWS role:" (map role_option roles) w)
    as [[idx|e] w1] eqn:E; [|intros [=]].
  specialize (Hok idx w1 eq_refl). rewrite length_map in Hok.
  destruct (index_role_in_range roles idx w1 Hok) as (r & Hl & ->).
  intros [= <- _]. apply list_elem_of_In. eapply list_elem_of_lookup_2. exact Hl.
Qed.

(** X27 (selectRole): the role that comes back is one of the roles given:
    the index that the prompt returns is always inside the list, so the
    indexing never fails.  An empty list is refused before anything is
    printed or read. *)
Theorem selectRole_returns_a_listed_role (roles : list AWSRole) (w : World) :
  (forall role w', selectRole roles w = (ok role, w') -> In role roles) /\
  (forall e w', selectRole roles w = (fail e, w') ->
     e <> LibError "panic: index out of range") /\
  (roles = [] -> selectRole roles w = (fail (Errorf "no roles to select from" []), w)).
Proof.
  split; [intros role w'; apply selectRole_member|].
  unfold selectRole. destruct roles as [|r0 roles']; cbn [length Nat.eqb].
  - split; [intros ? ? [= <- _]; discriminate|reflexivity].
  - set (roles := r0 :: roles').
    destruct (PromptSelect_outcome "Select an AWS role:" (map role_option roles) w)
      as (Hok & Hfail).
    unfold bind.
    destruct (PromptSelect "Select an AWS role:" (map role_option roles) w)
      as [[idx|e] w1] eqn:E.
    + specialize (Hok idx w1 eq_refl). rewrite length_map in Hok.
      destruct (index_role_in_range roles idx w1 Hok) as (role & Hl & ->).
      split; [intros ? ? [=]|discriminate].
    + split; [|discriminate].
      intros ? ? [= <- _]. apply (Hfail e w1 eq_refl).
Qed.

(** X28 (selectRole): a number typed from 1 to the number of roles
    selects the role at that place in the list, and any other number is
    refused as out of range. *)
Theorem selectRole_picks_the_numbered_role (roles : list AWSRole) (w : World)
    (line : string) (rest : list (result string)) (n : Z) :
  roles <> [] ->
  stdin w = ok line :: rest ->
  Atoi (TrimSpace line) = ok n ->
  (1 <= n <= Z.of_nat (length roles) ->
     exists role, roles !! Z.to_nat (n - 1) = Some role /\
                  fst (selectRole roles w) = ok role) /\
  (n < 1 \/ Z.of_nat (length roles) < n ->
     fst (selectRole roles w) =
       fail (Errorf "selection out of range: %d (must be 1-%d)"
               [ArgD n; ArgD (Z.of_nat (length roles))])).
Proof.
  intros Hne Hin Hn. unfold selectRole.
  destruct roles as [|r0 roles']; [contradiction|]. cbn [length Nat.eqb].
  set (roles := r0 :: roles'). fold roles.
  change (S (length roles')) with (length roles).
  destruct (PromptSelect_line "Select an AWS role:" (map role_option roles) w line rest Hin)
    as (w1 & E & _).
  rewrite Hn, length_map in E. unfold bind. rewrite E. split.
  - intros Hr.
    destruct (Z.ltb_spec n 1); [lia|].
    destruct (Z.ltb_spec (Z.of_nat (length roles)) n); [lia|]. cbn [orb].
    destruct (index_role_in_range roles (n - 1) w1) as (role & Hl & ->); [lia|].
    exists role. split; [exact Hl|reflexivity].
  - intros Hr.
    destruct (Z.ltb_spec n 1); [reflexivity|].
    destruct (Z.ltb_spec (Z.of_nat (length roles)) n); [reflexivity|lia].
Qed.

(** X29 (runLogin, the choice of the role): the role taken is always one
    of the roles of the assertion.  A single role is taken as it is,
    whatever role the profile names.  With several roles and a role named
    in the profile, the first role with that ARN is taken, and nothing is
    asked; when no role has it the login fails. *)
Theorem login_role_is_one_of_the_assertion (roles : list AWSRole) (configured : string)
    (w : World) :
  (forall role w', runLogin_select_role roles configured w = (ok role, w') -> In role roles) /\
  (forall role, roles = [role] ->
     fst (runLogin_select_role roles configured w) = ok role) /\
  ((2 <= length roles)%nat -> configured <> "" ->
     snd (runLogin_select_role roles configured w) = w /\
     (forall role, fst (runLogin_select_role roles configured w) = ok role ->
        RoleARN role = configured /\
        exists before after, roles = before ++ role :: after /\
          Forall (fun r => RoleARN r <> configured) before) /\
     (Forall (fun r => RoleARN r <> configured) roles ->
        fst (runLogin_select_role roles configured w) =
          fail (Errorf "configured role %s not found in SAML assertion" [ArgS configured]))).
Proof.
  split; [|split].
  - intros role w'. unfold runLogin_select_role.
    destruct roles as [|r0 [|r1 roles']]; cbn [length Nat.eqb].
    + intros [=].
    + unfold bind, Printf, ret. intros [= <- _]. left. reflexivity.
    + destruct (String.eqb configured ""); cbn [negb].
      * unfold wrap.
        destruct (selectRole (r0 :: r1 :: roles') w) as [[r|e] w1] eqn:E; [|intros [=]].
        intros [= <- _].
        exact (selectRole_member _ _ _ _ E).
      * destruct (find _ _) as [r|] eqn:E; [|intros [=]].
        intros [= <- _]. apply find_some in E. tauto.
  - intros role ->. reflexivity.
  - intros Hlen Hc. unfold runLogin_select_role.
    destruct roles as [|r0 [|r1 roles']]; [simpl in Hlen; lia|simpl in Hlen; lia|].
    cbn [length Nat.eqb]. set (roles := r0 :: r1 :: roles').
    destruct (String.eqb_spec configured "") as [|_]; [contradiction|]. cbn [negb].
    split; [destruct (find _ roles); reflexivity|]. split.
    + intros role. destruct (find _ roles) as [r|] eqn:E; [|intros [=]].
      intros [= <-]. clear -E. induction roles as [|x xs IH]; [discriminate|].
      cbn [find] in E. destruct (String.eqb_spec (RoleARN x) configured) as [Hx|Hx].
      * injection E as <-. split; [exact Hx|]. exists [], xs. split; [reflexivity|constructor].
      * destruct (IH E) as (Hr & before & after & -> & Hb). split; [exact Hr|].
        exists (x :: before), after. split; [reflexivity|constructor; assumption].
    + intros Hall. destruct (find _ roles) as [r|] eqn:E; [|reflexivity].
      apply find_some in E as (Hin & Hr). apply String.eqb_eq in Hr.
      rewrite Forall_forall in Hall. apply list_elem_of_In in Hin.
      exfalso. exact (Hall r Hin Hr).
Qed.

End Selection_facts.


(** * Further examples *)

Section Run_examples.
#[local] Existing Instance Ref.platform.

(** A whole run against a federated account: the start page is the
    sign-in page, the account is federated, the federation service answers
    with its form and then with the terminal page. *)
Lemma every_request_bears_the_identity_witness :
  exists r w',
    Authenticate 3 Ref.client (Some Ref.creds)
      (Ref.session (Ref.answer Ref.start Ref.signin_page :: server Ref.federated) []) =
      Some (r, w') /\
    exists new,
      trace w' = [] ++ new /\
      forall req f, EvDo req f ∈ new -> req_Header req !! "User-Agent" = Some identity.
Proof.
  eexists _, _. split; [vm_compute; reflexivity|].
  eapply (every_request_bears_the_identity 3 Ref.client Ref.creds
           (Ref.session (Ref.answer Ref.start Ref.signin_page :: server Ref.federated) [])).
  vm_compute. reflexivity.
Defined.

Lemma redirects_are_off_only_to_decline_witness :
  exists r w',
    Authenticate 3 Ref.client (Some Ref.creds)
      (Ref.session (Ref.answer Ref.start Ref.signin_page :: server Ref.federated) []) =
      Some (r, w') /\
    followRedirect w' = true /\
    exists new,
      trace w' = [] ++ new /\ forall req, EvDo req false ∈ new -> declines req.
Proof.
  eexists _, _. split; [vm_compute; reflexivity|].
  eapply (redirects_are_off_only_to_decline 3 Ref.client Ref.creds
           (Ref.session (Ref.answer Ref.start Ref.signin_page :: server Ref.federated) [])).
  - reflexivity.
  - vm_compute. reflexivity.
Defined.

Lemma supplied_code_is_never_prompted_for_witness :
  exists r w',
    Authenticate 3 Ref.client (Some Sample.creds_with_code)
      (Ref.session (Ref.answer Ref.start Ref.signin_page :: server Ref.federated)
                   [ok "000000"]) = Some (r, w') /\
    stdin w' = [ok "000000"] /\
    exists new, trace w' = [] ++ new /\ EvReadLine ∉ new.
Proof.
  eexists _, _. split; [vm_compute; reflexivity|].
  eapply (supplied_code_is_never_prompted_for 3 Ref.client Sample.creds_with_code
           (Ref.session (Ref.answer Ref.start Ref.signin_page :: server Ref.federated)
                        [ok "000000"])).
  - discriminate.
  - vm_compute. reflexivity.
Defined.

Lemma new_client_starts_at_its_application_witness :
  exists c h r w',
    NewClient (ok (jar (Ref.session [] []))) (Some {| co_URL := baseURL Ref.client; co_AppID := appID Ref.client;
                               co_SkipVerify := false |}) = ok (c, h) /\
    Authenticate 1 c (Some Ref.creds) (world_of h [] []) = Some (r, w') /\
    exists o,
      Some {| co_URL := baseURL Ref.client; co_AppID := appID Ref.client;
              co_SkipVerify := false |} = Some o /\
      co_URL o <> "" /\ co_AppID o <> "" /\
      startURL c =
        co_URL o +:+
        "/applications/redirecttofederatedapplication.aspx?Operation=LinkedSignIn&applicationId="
        +:+ co_AppID o /\
      (exists rest, trace w' = EvDo (Get_call (startURL c)) true :: rest) /\
      (@nil Exchange = [] ->
       exists e, r = fail (Wrapf "failed to start authentication: %w" e) /\
                 trace w' = [EvDo (Get_call (startURL c)) true]) /\
      followRedirect w' = true.
Proof.
  eexists _, _, _, _. split; [vm_compute; reflexivity|].
  split; [vm_compute; reflexivity|].
  eapply (new_client_starts_at_its_application (ok (jar (Ref.session [] [])))
            (Some {| co_URL := baseURL Ref.client; co_AppID := appID Ref.client;
                     co_SkipVerify := false |}) _ _ 1 Ref.creds [] []).
  - vm_compute. reflexivity.
  - discriminate.
  - discriminate.
  - vm_compute. reflexivity.
  - vm_compute. reflexivity.
Defined.

Lemma loop_ends_when_answers_run_out_witness :
  exists r w',
    authenticate_loop 3 Ref.creds (Ref.response Ref.start Ref.signin_page)
      Ref.signin_again = Some (r, w').
Proof.
  apply (loop_ends_when_answers_run_out Ref.creds 3
           (Ref.response Ref.start Ref.signin_page) Ref.signin_again).
  - vm_compute. lia.
  - intros body [= <-] (_ & H & _). vm_compute in H. discriminate.
  - unfold never_handed_back, Ref.signin_again, Ref.session. cbn [server].
    repeat (constructor;
            [intros res body Hr Hb (_ & H & _); cbn in Hr; injection Hr as <-;
             cbn in Hb; injection Hb as <-; vm_compute in H; discriminate|]).
    constructor.
Defined.

Lemma handed_back_page_is_looped_on_witness :
  switch 5 (Ref.response Ref.start Ref.bare_tfa_page) Ref.bare_tfa_page Ref.creds
    (Ref.session [] []) =
    Some (ok (Continue (Ref.response Ref.start Ref.bare_tfa_page)), Ref.session [] []) /\
  authenticate_loop 5 Ref.creds (Ref.response Ref.start Ref.bare_tfa_page)
    (Ref.session [] []) = None.
Proof.
  apply (handed_back_page_is_looped_on Ref.creds 5
           (Ref.response Ref.start Ref.bare_tfa_page) Ref.bare_tfa_page (Ref.session [] [])).
  - reflexivity.
  - split; [vm_compute; reflexivity|]. split; [vm_compute; reflexivity|].
    exists Ref.bare_tfa_conv. split; [vm_compute; reflexivity|]. split; reflexivity.
Defined.

End Run_examples.

Section Handler_examples.
#[local] Existing Instance Ref.platform.

(** The sign-in form of the federation service goes back with the user
    name and the password in it, and its third field as the form had it. *)
Lemma processFederatedAuth_overlays_credentials_witness :
  exists formValues,
    parseFormData Ref.adfs_page = ok (formValues, Ref.adfs) /\
    requests (trace (snd (processFederatedAuth Ref.adfs Ref.creds
                            (Ref.session [Ref.answer Ref.adfs Ref.adfs_page;
                                          Ref.answer Ref.aws Ref.assertion_page] [])))) =
      requests [] ++
      [Get_call Ref.adfs;
       relay_call (fullURL (Ref.response Ref.adfs Ref.adfs_page) Ref.adfs)
                  (federation_form formValues Ref.creds)] /\
    federation_form formValues Ref.creds !! "UserName" = Some [Username Ref.creds] /\
    federation_form formValues Ref.creds !! "Password" = Some [Password Ref.creds] /\
    federation_form formValues Ref.creds !! "AuthMethod" = Some ["FormsAuthentication"] /\
    (forall k, k <> "UserName" -> k <> "Password" -> k <> "AuthMethod" ->
               federation_form formValues Ref.creds !! k = formValues !! k).
Proof.
  eexists. split; [vm_compute; reflexivity|].
  eapply (processFederatedAuth_overlays_credentials Ref.adfs Ref.creds
            (Ref.session [Ref.answer Ref.adfs Ref.adfs_page;
                          Ref.answer Ref.aws Ref.assertion_page] [])
            Ref.adfs _ (Ref.answer Ref.adfs Ref.adfs_page)
            [Ref.answer Ref.aws Ref.assertion_page]
            (Ref.response Ref.adfs Ref.adfs_page) Ref.adfs_page Ref.adfs).
  - reflexivity.
  - reflexivity.
  - reflexivity.
  - reflexivity.
  - vm_compute. reflexivity.
  - discriminate.
  - vm_compute. reflexivity.
Defined.

(** The password form of the sample sign-in page. *)
Lemma processAuthentication_posts_password_example :
  trace (snd (processAuthentication (URLPost Ref.signin_conv) Ref.start Ref.creds
                Ref.signin_conv (Ref.session [] []))) =
    [] ++ [EvDo (password_call (URLPost Ref.signin_conv) Ref.start Ref.creds
                   Ref.signin_conv) true] /\
  password_form Ref.creds Ref.signin_conv !! "passwd" = Some ["hunter2"] /\
  password_form Ref.creds Ref.signin_conv !! "loginfmt" = Some ["user@example.com"] /\
  password_form Ref.creds Ref.signin_conv !! "login" = Some ["user@example.com"] /\
  password_form Ref.creds Ref.signin_conv !! "ctx" = Some ["ctx1"].
Proof.
  apply (proj2 (processAuthentication_refuses_error_page_or_posts_password
                  (URLPost Ref.signin_conv) Ref.start Ref.creds Ref.signin_conv
                  (Ref.session [] []))
               (URLPost Ref.signin_conv)).
  - left. reflexivity.
  - vm_compute. reflexivity.
Defined.

(** The relay of the sample relay page. *)
Lemma processSAMLRequest_relays_example :
  trace (snd (processSAMLRequest (Ref.response Ref.login Ref.relay_page) Ref.relay_page
                (Ref.session [] []))) =
    [] ++ [EvDo (relay_call (fullURL (Ref.response Ref.login Ref.relay_page) Ref.acs)
                   Ref.relay_values) true].
Proof.
  apply (proj2 (proj2 (processSAMLRequest_relays_to_resolved_action
                         (Ref.response Ref.login Ref.relay_page) Ref.relay_page
                         (Ref.session [] [])))
               Ref.relay_values Ref.acs Ref.acs).
  - vm_compute. reflexivity.
  - discriminate.
  - vm_compute. reflexivity.
Defined.

(** A challenge that is approved at the second poll: the completion form
    is posted with what the second poll answered. *)
Lemma successful_challenge_posts_completion_form_witness :
  exists w w',
    processMFABeginAuth [Ref.sms; Ref.push] Ref.tfa_conv
      (Ref.session (Ref.answer (URLBeginAuth Ref.tfa_conv) Ref.begin_body ::
                    server Ref.approving ++
                    [Ref.answer (URLPost Ref.tfa_conv) Ref.assertion_page]) []) =
      (ok Ref.begin_resp, w) /\
    poll 2 0 Ref.begin_resp Ref.tfa_conv Ref.creds w = Some (ok Ref.success_resp, w') /\
    processMFA 2 [Ref.sms; Ref.push] Ref.tfa_conv Ref.creds
      (Ref.session (Ref.answer (URLBeginAuth Ref.tfa_conv) Ref.begin_body ::
                    server Ref.approving ++
                    [Ref.answer (URLPost Ref.tfa_conv) Ref.assertion_page]) []) =
      Some (Do (completion_call_request Ref.success_resp Ref.tfa_conv) w') /\
    trace (snd (Do (completion_call_request Ref.success_resp Ref.tfa_conv) w')) =
      trace w' ++ [EvDo (completion_call Ref.success_resp Ref.tfa_conv) (followRedirect w')] /\
    completion_form Ref.success_resp Ref.tfa_conv !! SFTName Ref.tfa_conv =
      Some [FlowToken Ref.success_resp] /\
    (SFTName Ref.tfa_conv <> "request" ->
     completion_form Ref.success_resp Ref.tfa_conv !! "request" =
       Some [Ctx Ref.success_resp]) /\
    (SFTName Ref.tfa_conv <> "mfaAuthMethod" ->
     completion_form Ref.success_resp Ref.tfa_conv !! "mfaAuthMethod" =
       Some [AuthMethodID Ref.success_resp]).
Proof.
  eexists _, _. split; [vm_compute; reflexivity|]. split; [vm_compute; reflexivity|].
  eapply (successful_challenge_posts_completion_form 2 [Ref.sms; Ref.push] Ref.tfa_conv
            Ref.creds _ _ _ Ref.begin_resp Ref.success_resp _).
  - discriminate.
  - vm_compute. reflexivity.
  - vm_compute. reflexivity.
  - reflexivity.
  - vm_compute. reflexivity.
Defined.

(** A code read from the terminal goes out without its outer blanks. *)
Lemma end_challenge_carries_the_code_witness :
  requests (trace (snd (end_challenge 0 Sample.otp_resp Ref.tfa_conv Ref.creds
                          (Ref.session [] [ok "  654321 "])))) =
    requests [] ++
    [EndAuth_call (with_AdditionalAuthData (EndAuth_request Sample.otp_resp)
                     (TrimSpace "  654321 ")) Ref.tfa_conv] /\
  stdin (snd (end_challenge 0 Sample.otp_resp Ref.tfa_conv Ref.creds
                (Ref.session [] [ok "  654321 "]))) = [].
Proof.
  apply (proj1 (proj2 (proj2 (end_challenge_carries_the_code 0 Sample.otp_resp Ref.tfa_conv
                                Ref.creds (Ref.session [] [ok "  654321 "])
                                (URLEndAuth Ref.tfa_conv) ltac:(vm_compute; reflexivity))))
               "  654321 " []); reflexivity.
Defined.

End Handler_examples.

Section Sample_examples.
#[local] Existing Instance Sample.platform.

(** The "keep me signed in" page is declined with redirects off, at its
    post-back address made absolute. *)
Lemma KmsiInterrupt_declines_example :
  trace (snd (processKmsiInterrupt (Sample.response Ref.login Sample.kmsi_page)
                Sample.kmsi_page (Sample.session [] []))) =
    [] ++ [EvDo (kmsi_call (Sample.response Ref.login Sample.kmsi_page) Sample.kmsi_conv)
             false] /\
  followRedirect (snd (processKmsiInterrupt (Sample.response Ref.login Sample.kmsi_page)
                         Sample.kmsi_page (Sample.session [] []))) = true /\
  kmsi_form Sample.kmsi_conv !! "LoginOptions" = Some ["1"] /\
  fst (processKmsiInterrupt (Sample.response Ref.login Sample.kmsi_page)
         Sample.kmsi_page (Sample.session [] [])) =
    fail (Wrapf "KMSI request failed: %w" (LibError "no answer from the server")).
Proof.
  apply (proj1 (KmsiInterrupt_declines_with_redirects_off
                  (Sample.response Ref.login Sample.kmsi_page) Sample.kmsi_page
                  (Sample.session [] []))
               Sample.kmsi_conv (Ref.login +:+ "/kmsi")).
  - vm_compute. reflexivity.
  - vm_compute. reflexivity.
Defined.

(** A first form without an action is refused, though the form after it
    has one. *)
Lemma reProcessForm_refuses_missing_form_or_action_witness :
  reProcessForm Sample.actionless_page (Sample.session [] []) =
    (fail (Errorf "form URL not found" []), Sample.session [] []).
Proof.
  apply (proj1 (proj2 (reProcessForm_refuses_missing_form_or_action Sample.actionless_page
                         Sample.actionless_doc (Sample.session [] [])
                         ltac:(vm_compute; reflexivity)))
               (Ref.element "form" [Ref.at_ "method" "post"] []) [Ref.form_ Ref.acs []]).
  - vm_compute. reflexivity.
  - vm_compute. reflexivity.
Defined.

Lemma begin_failure_ends_the_challenge_witness :
  exists w',
    processMFA 7 [Ref.sms; Ref.push] Ref.tfa_conv Ref.creds
      (Sample.session [Sample.answer (URLBeginAuth Ref.tfa_conv) Sample.unavailable_body;
                       Sample.answer (URLEndAuth Ref.tfa_conv) Ref.success_body] []) =
      Some (fail (Wrapf "MFA BeginAuth failed: %w"
                    (Errorf "MFA BeginAuth failed: %v"
                       [ArgV (Message Sample.unavailable_resp)])), w') /\
    trace w' =
      [] ++ [EvDo (BeginAuth_call (select_default Ref.sms [Ref.sms; Ref.push]) Ref.tfa_conv)
               true] /\
    server w' = [Sample.answer (URLEndAuth Ref.tfa_conv) Ref.success_body].
Proof.
  apply (begin_failure_ends_the_challenge 7 Ref.sms [Ref.push] Ref.tfa_conv Ref.creds
           (Sample.session [Sample.answer (URLBeginAuth Ref.tfa_conv) Sample.unavailable_body;
                            Sample.answer (URLEndAuth Ref.tfa_conv) Ref.success_body] [])
           (URLBeginAuth Ref.tfa_conv)
           (Sample.answer (URLBeginAuth Ref.tfa_conv) Sample.unavailable_body)
           [Sample.answer (URLEndAuth Ref.tfa_conv) Ref.success_body]
           (Sample.response (URLBeginAuth Ref.tfa_conv) Sample.unavailable_body)
           Sample.unavailable_resp).
  - vm_compute. reflexivity.
  - reflexivity.
  - reflexivity.
  - vm_compute. reflexivity.
  - reflexivity.
Defined.

Lemma final_refusal_fails_the_challenge_witness :
  exists w w',
    end_challenge 0 Ref.begin_resp Ref.tfa_conv Ref.creds w = (ok Sample.refused_resp, w') /\
    poll 1 0 Ref.begin_resp Ref.tfa_conv Ref.creds w = Some (ok Sample.refused_resp, w') /\
    steps Ref.tfa_conv (trace w') = steps Ref.tfa_conv (trace w) ++ [EndAuthCall] /\
    (forall mfas w0,
        0 = 0 -> mfas <> [] ->
        processMFABeginAuth mfas Ref.tfa_conv w0 = (ok Ref.begin_resp, w) ->
        processMFA 1 mfas Ref.tfa_conv Ref.creds w0 =
          Some (fail (Errorf "MFA authentication failed" []), w')).
Proof.
  exists (Sample.session [Sample.answer (URLEndAuth Ref.tfa_conv) Sample.refused_body] []).
  eexists. split; [vm_compute; reflexivity|].
  apply (final_refusal_fails_the_challenge 0 0 Ref.begin_resp Sample.refused_resp
           Ref.tfa_conv Ref.creds
           (Sample.session [Sample.answer (URLEndAuth Ref.tfa_conv) Sample.refused_body] [])).
  - vm_compute. reflexivity.
  - reflexivity.
  - reflexivity.
  - reflexivity.
Defined.

(** The assertion field with its value, but no form around it: the page
    is not the terminal page. *)
Lemma assertion_outside_a_form_is_not_returned_witness :
  isHiddenForm Sample.loose_page = false /\
  exists e,
    authenticate_loop 1 Ref.creds (Sample.response Ref.aws Sample.loose_page)
      (Sample.session [] []) = Some (fail e, Sample.session [] []) /\
    explicit_exit (fail e).
Proof.
  apply (assertion_outside_a_form_is_not_returned 0 Ref.creds
           (Sample.response Ref.aws Sample.loose_page) Sample.loose_page Sample.loose_doc
           (Sample.session [] [])).
  - reflexivity.
  - intros s Hs; destruct s; simpl in Hs; try lia; vm_compute; reflexivity.
  - vm_compute. reflexivity.
  - vm_compute. reflexivity.
Defined.

End Sample_examples.

Section Role_examples.
#[local] Existing Instance Ref.platform.
#[local] Existing Instance Sample.strconv.

(** A role string with the provider first and a blank after the comma. *)
Lemma parseRoleString_accepts_one_role_and_one_provider_witness :
  exists a b,
    Sample.provider_arn +:+ ", " +:+ Sample.admin_arn = a +:+ "," +:+ b /\
    mentions "," a = false /\ mentions "," b = false /\
    Contains (RoleARN Sample.admin) ":role/" = true /\
    Contains (PrincipalARN Sample.admin) ":saml-provider/" = true /\
    Name Sample.admin = extractRoleName (RoleARN Sample.admin) /\
    ((RoleARN Sample.admin = TrimSpace a /\ PrincipalARN Sample.admin = TrimSpace b) \/
     (RoleARN Sample.admin = TrimSpace b /\ PrincipalARN Sample.admin = TrimSpace a)).
Proof.
  apply (parseRoleString_accepts_one_role_and_one_provider
           (Sample.provider_arn +:+ ", " +:+ Sample.admin_arn) Sample.admin).
  vm_compute. reflexivity.
Defined.

Lemma parseRoleString_takes_either_order_witness :
  parseRoleString (Sample.provider_arn +:+ "," +:+ Sample.reader_arn) = ok Sample.reader <->
  parseRoleString (Sample.reader_arn +:+ "," +:+ Sample.provider_arn) = ok Sample.reader.
Proof.
  apply (parseRoleString_takes_either_order Sample.provider_arn Sample.reader_arn);
    vm_compute; reflexivity.
Defined.

Lemma AccountID_is_fifth_field_of_ARN_witness : AccountID Sample.admin = "123456789012".
Proof.
  apply (AccountID_is_fifth_field_of_ARN Sample.admin "arn" "aws" "iam" "" "123456789012");
    try reflexivity.
  right. exists "role/Admin". reflexivity.
Defined.

(** The roles of the two sample strings, in their order. *)
Example ParseAWSRoles_example :
  ParseAWSRoles [Sample.provider_arn +:+ "," +:+ Sample.admin_arn;
                 Sample.reader_arn +:+ ", " +:+ Sample.provider_arn] =
    Roles [Sample.admin; Sample.reader].
Proof. vm_compute. reflexivity. Qed.

(** The profile that names no region and no session length gets those
    of a new configuration. *)
Lemma GetProfile_fills_gaps_from_defaults_witness :
  exists m,
    GetProfile (SetProfile NewConfig "dev" Sample.dev) "dev" = inr m /\
    m_Region m <> "" /\ 0 < m_SessionDuration m /\
    exists profile,
      cfg_Profiles (SetProfile NewConfig "dev" Sample.dev) !! "dev" = Some profile /\
      (p_Region profile <> "" -> m_Region m = p_Region profile) /\
      (0 < p_SessionDuration profile -> m_SessionDuration m = p_SessionDuration profile).
Proof.
  eexists. split; [vm_compute; reflexivity|].
  apply (GetProfile_fills_gaps_from_defaults (SetProfile NewConfig "dev" Sample.dev) "dev").
  - discriminate.
  - reflexivity.
  - vm_compute. reflexivity.
Defined.

(** Typing 2 at the prompt selects the second role. *)
Lemma selectRole_picks_the_numbered_role_witness :
  exists role,
    [Sample.admin; Sample.reader] !! Z.to_nat (2 - 1) = Some role /\
    fst (selectRole [Sample.admin; Sample.reader] (Ref.session [] [ok (" 2" +:+ Ref.nl)])) =
      ok role.
Proof.
  apply (proj1 (selectRole_picks_the_numbered_role [Sample.admin; Sample.reader]
                  (Ref.session [] [ok (" 2" +:+ Ref.nl)]) (" 2" +:+ Ref.nl) [] 2
                  ltac:(discriminate) eq_refl ltac:(vm_compute; reflexivity))).
  simpl. lia.
Defined.

End Role_examples.


(** * The ends of the main loop, and the page behind an assertion *)

Section Loop_ends.
Context {P : Platform}.

(** The turn that returns the assertion leaves the world as it was. *)
Lemma switch_returns_in_place (fuel : nat) (res : Response) (body : string)
    (creds : LoginCredentials) (w w' : World) (a : string) :
  switch fuel res body creds w = Some (ok (Return a), w') -> w' = w.
Proof.
  rewrite switch_handler.
  destruct (classify body) eqn:Hc; simpl;
    try (intros H; apply handle_outcome in H as [(e & He) | (r & He)]; discriminate).
  - destruct (String.eqb_spec (getSAMLAssertion body) "") as [Heq|Hne].
    + intros H; apply handle_outcome in H as [(e & He) | (r & He)]; discriminate.
    + unfold run, ret. intros [= _ <-]. reflexivity.
  - unfold run. intros [= H]. apply default_case_outcome in H as (e & He & _). discriminate.
Qed.

(** The assertion that a run of the loop returns is the one of the page
    that the loop was classifying when it ended: the response it started
    from, nothing sent, or the last answer it took from the server. *)
Lemma loop_assertion_is_of_classified_page (creds : LoginCredentials) (fuel : nat) :
  forall (res : Response) (w : World) (a : string) (w' : World),
    authenticate_loop fuel creds res w = Some (ok a, w') ->
    exists page body,
      ((page = res /\ w' = w) \/ answered w page w') /\
      Body page = ok body /\
      classify body = HiddenFormOrAssertion /\ getSAMLAssertion body = a /\ a <> "".
Proof.
  induction fuel as [|fuel IH]; intros res w a w'; simpl; [discriminate|].
  destruct (Body res) as [body|e] eqn:Hbody; [|discriminate].
  assert (Hres : buffered res body = res).
  { destruct res as [u b]. simpl in Hbody. subst b. reflexivity. }
  destruct (switch fuel (buffered res body) body creds w) as [[[o|e] w1]|] eqn:Hsw;
    [|discriminate|discriminate].
  destruct o as [a0|res1].
  - pose proof (switch_returns_in_place _ _ _ _ _ _ _ Hsw) as ->.
    apply switch_outcome in Hsw as (Ha & Hc & Hg). intros [= <- <-].
    exists res, body. auto 10.
  - intros Hloop. apply IH in Hloop as (page & body' & Hpage & Hrest).
    exists page, body'. split; [|exact Hrest].
    apply turn_goes_on_with_an_answer in Hsw as [(u & x & Hu & Hx) | (_ & -> & ->)].
    + right. destruct Hpage as [(-> & ->) | (u' & x' & Hu' & Hx')].
      * exists u, x. auto.
      * exists (u ++ x :: u'), x'. rewrite Hu, Hu', <- app_assoc. auto.
    + rewrite Hres in Hpage. exact Hpage.
Qed.

(** C3, as the code has it.  A run of the main loop that ends, ends with
    one of the explicit errors or with a non-empty SAML assertion, and the
    assertion is the one of the hidden-form page that the loop was
    classifying: the response it started from, nothing sent since, or
    the last answer it took from the server.  The loop keeps no record of
    the states it has been in: the next turn starts from the response
    that the handler returned and from nothing else, so when that
    response is a page of the state just handled, the handler of that
    state runs again, on that response. *)
Theorem loop_ends_with_assertion_or_explicit_error (fuel : nat)
    (creds : LoginCredentials) (res : Response) (w : World) :
  (forall r w',
      authenticate_loop fuel creds res w = Some (r, w') ->
      explicit_exit r /\
      (forall a, r = ok a ->
         exists page body,
           ((page = res /\ w' = w) \/ answered w page w') /\
           Body page = ok body /\
           classify body = HiddenFormOrAssertion /\ getSAMLAssertion body = a /\
           a <> "")) /\
  (forall body res1 w1,
      Body res = ok body ->
      handler (classify body) fuel (buffered res body) body creds w =
        Some (ok (Continue res1), w1) ->
      authenticate_loop (S fuel) creds res w = authenticate_loop fuel creds res1 w1) /\
  (forall body res1 w1 body1,
      Body res = ok body ->
      handler (classify body) (S fuel) (buffered res body) body creds w =
        Some (ok (Continue res1), w1) ->
      Body res1 = ok body1 ->
      classify body1 = classify body ->
      authenticate_loop (S (S fuel)) creds res w =
        match handler (classify body) fuel (buffered res1 body1) body1 creds w1 with
        | None => None
        | Some (fail e, w2) => Some (fail e, w2)
        | Some (ok (Return a), w2) => Some (ok a, w2)
        | Some (ok (Continue res2), w2) => authenticate_loop fuel creds res2 w2
        end).
Proof.
  split; [|split].
  - intros r w' Hrun. split.
    + revert res w r w' Hrun.
      induction fuel as [|fuel IH]; intros res w r w'; simpl; [discriminate|].
      destruct (Body res) as [body|e].
      2: { intros [= <- <-]. constructor. }
      destruct (switch fuel (buffered res body) body creds w) as [[[o|e] w1]|] eqn:Hsw;
        [|intros [= <- <-]|discriminate].
      * apply switch_outcome in Hsw. destruct o as [a|res1].
        -- destruct Hsw as (Ha & _). intros [= <- <-]. constructor. exact Ha.
        -- apply IH.
      * apply switch_outcome in Hsw. exact Hsw.
    + intros a ->. exact (loop_assertion_is_of_classified_page creds fuel res w a w' Hrun).
  - intros body res1 w1 Hbody Hturn. simpl. rewrite Hbody, switch_handler, Hturn.
    reflexivity.
  - intros body res1 w1 body1 Hbody Hturn Hbody1 Hsame.
    change (authenticate_loop (S (S fuel)) creds res w)
      with (match Body res with
            | fail e => Some (fail (Wrapf "failed to read response body: %w" e), w)
            | ok resBodyStr =>
                match switch (S fuel) (buffered res resBodyStr) resBodyStr creds w with
                | None => None
                | Some (fail e, w') => Some (fail e, w')
                | Some (ok (Return samlAssertion), w') => Some (ok samlAssertion, w')
                | Some (ok (Continue res'), w') => authenticate_loop (S fuel) creds res' w'
                end
            end).
    rewrite Hbody, switch_handler, Hturn. simpl. rewrite Hbody1, switch_handler, Hsame.
    reflexivity.
Qed.

End Loop_ends.

Section Loop_examples.
#[local] Existing Instance Ref.platform.

(** The run against the federated account ends with the assertion of the
    terminal page, the last answer taken from the server. *)
Lemma loop_ends_with_assertion_or_explicit_error_witness :
  exists w',
    authenticate_loop 3 Ref.creds (Ref.response Ref.start Ref.signin_page) Ref.federated =
      Some (ok Ref.assertion, w') /\
    explicit_exit (ok Ref.assertion) /\
    (forall a, ok Ref.assertion = ok a ->
       exists page body,
         ((page = Ref.response Ref.start Ref.signin_page /\ w' = Ref.federated) \/
          answered Ref.federated page w') /\
         Body page = ok body /\
         classify body = HiddenFormOrAssertion /\ getSAMLAssertion body = a /\ a <> "").
Proof.
  eexists. split; [vm_compute; reflexivity|].
  apply (proj1 (loop_ends_with_assertion_or_explicit_error 3 Ref.creds
                  (Ref.response Ref.start Ref.signin_page) Ref.federated)
           (ok Ref.assertion)).
  vm_compute. reflexivity.
Defined.

End Loop_examples.

Section Semicolon_example.
#[local] Existing Instance Semi.platform.

(** C7 as stated fails.  This page has none of the five markers and
    embeds the server error code 50126 in its configuration object: the
    object decodes with that code.  The text of the error has a semicolon,
    so the object does not stand in the page as the client looks for it,
    the client finds no configuration, and the loop ends with the
    "unknown authentication state" error, not with the authentication
    error that carries the code. *)
Lemma error_code_behind_semicolon_is_unknown_state :
  (forall s, s <> Fallback -> marker s Semi.page = false) /\
  Contains Semi.page "sErrorCode" = true /\
  Contains Semi.page ("$Config=" +:+ Semi.config +:+ ";") = true /\
  Unmarshal_ConvergedResponse Semi.config = ok Semi.conv /\
  SErrorCode Semi.conv = "50126" /\
  FindStringSubmatch_Config Semi.page = None /\
  (forall fuel w,
     authenticate_loop (S fuel) Ref.creds (Semi.response Ref.start Semi.page) w =
       Some (fail unknown_state, w)) /\
  unknown_state <>
    Errorf "authentication error: %s - %s"
      [ArgS (SErrorCode Semi.conv); ArgS (SErrTxt Semi.conv)].
Proof.
  split; [intros s Hs; destruct s; try congruence; vm_compute; reflexivity|].
  split; [vm_compute; reflexivity|].
  split; [vm_compute; reflexivity|].
  split; [vm_compute; reflexivity|].
  split; [reflexivity|].
  split; [vm_compute; reflexivity|].
  split; [|discriminate].
  intros fuel w. cbn [authenticate_loop Body Semi.response].
  rewrite switch_fallback
    by (intros s Hs; destruct s; try congruence; vm_compute; reflexivity).
  unfold run, default_case.
  replace (Contains Semi.page "sErrorCode") with true by (vm_compute; reflexivity).
  replace (unmarshalEmbeddedJSON Semi.page)
    with (@fail ConvergedResponse (Errorf "$Config not found in response" []))
    by (vm_compute; reflexivity).
  reflexivity.
Qed.

End Semicolon_example.
